(** * pcurl: request construction and response rendering

    A shallow embedding of [src/index.ts], the single handler that the
    command-line parser runs: it turns the parsed flags into a request
    description, hands it to the HTTP client, and prints the response.

    JavaScript strings are sequences of UTF-16 code units, objects are
    property lists in the order the language enumerates them, numbers are
    IEEE-754 binary64 values (the [spec_float] of the Standard Library).
    Console output is recorded as a list of events, the exit code as an
    integer. *)

From Stdlib Require Import ZArith NArith List Bool Lia String Ascii.
From Stdlib Require Import Permutation.
From Stdlib Require Import SpecFloat.
Import ListNotations.

Set Implicit Arguments.

(** ** Strings *)

Module JsString.

(** A UTF-16 code unit. *)
Definition code := N.

Definition jsstring := list code.

(** An ASCII literal as a JavaScript string. *)
Definition js (s : string) : jsstring :=
  List.map N_of_ascii (list_ascii_of_string s).

Definition code_eqb (a b : code) : bool := N.eqb a b.

Fixpoint eqb (a b : jsstring) : bool :=
  match a, b with
  | [], [] => true
  | x :: a', y :: b' => code_eqb x y && eqb a' b'
  | _, _ => false
  end.

Definition colon : code := 58%N.

(** [s.split(sep)] for a one-unit separator: never empty, one more piece
    than there are separators. *)
Fixpoint split (sep : code) (s : jsstring) : list jsstring :=
  match s with
  | [] => [[]]
  | c :: s' =>
      if code_eqb c sep then [] :: split sep s'
      else match split sep s' with
           | p :: ps => (c :: p) :: ps
           | [] => [[c]]
           end
  end.

(** [parts.join(sep)]. *)
Fixpoint join (sep : code) (parts : list jsstring) : jsstring :=
  match parts with
  | [] => []
  | [p] => p
  | p :: ps => p ++ sep :: join sep ps
  end.

(** The code units [String.prototype.trim] strips: WhiteSpace and
    LineTerminator of the language specification. *)
Definition is_white_space (c : code) : bool :=
  ((9 <=? c) && (c <=? 13) || (c =? 32) || (c =? 160) || (c =? 5760)
   || (8192 <=? c) && (c <=? 8202) || (c =? 8232) || (c =? 8233)
   || (c =? 8239) || (c =? 8287) || (c =? 12288) || (c =? 65279))%N.

Fixpoint trimStart (s : jsstring) : jsstring :=
  match s with
  | c :: s' => if is_white_space c then trimStart s' else s
  | [] => []
  end.

Definition trimEnd (s : jsstring) : jsstring := rev (trimStart (rev s)).

Definition trim (s : jsstring) : jsstring := trimEnd (trimStart s).

Fixpoint startsWith (p s : jsstring) : bool :=
  match p, s with
  | [], _ => true
  | x :: p', y :: s' => code_eqb x y && startsWith p' s'
  | _ :: _, [] => false
  end.

(** [s.includes(sub)]. *)
Fixpoint includes (sub s : jsstring) : bool :=
  startsWith sub s ||
  match s with
  | [] => false
  | _ :: s' => includes sub s'
  end.

(** Truthiness of a string: every string but the empty one. *)
Definition nonempty (s : jsstring) : bool :=
  match s with [] => false | _ :: _ => true end.

(** Decimal digits of a natural number, as [String(n)] prints an integer. *)
Definition digit (d : N) : code := (48 + d)%N.

Fixpoint digits_fuel (fuel : nat) (n : N) (acc : jsstring) : jsstring :=
  match fuel with
  | O => acc
  | S fuel' =>
      let acc' := digit (n mod 10) :: acc in
      if (n <? 10)%N then acc' else digits_fuel fuel' (n / 10) acc'
  end.

Definition of_N (n : N) : jsstring := digits_fuel (S (N.to_nat (N.log2 n))) n [].

Definition of_Z (z : Z) : jsstring :=
  match z with
  | Z0 => of_N 0
  | Zpos p => of_N (Npos p)
  | Zneg p => 45%N :: of_N (Npos p)
  end.

End JsString.
Import JsString.

(** ** Objects

    An ordinary object as the list of its own properties in enumeration
    order: array-index keys first, ascending, then the other keys in the
    order they were created. *)

Module JsObject.

Definition object (V : Type) := list (jsstring * V).

Definition is_digit (c : code) : bool := ((48 <=? c) && (c <=? 57))%N.

Fixpoint decimal_value (s : jsstring) (acc : N) : N :=
  match s with
  | [] => acc
  | c :: s' => decimal_value s' (10 * acc + (c - 48))%N
  end.

(** The array index a property key denotes, if any: a canonical decimal
    numeral below 2^32 - 1. *)
Definition array_index (k : jsstring) : option N :=
  match k with
  | [] => None
  | c :: k' =>
      if forallb is_digit k && (negb (code_eqb c 48%N) || negb (nonempty k'))
         && (decimal_value k 0 <? 4294967295)%N
      then Some (decimal_value k 0)
      else None
  end.

Section Properties.
Variable V : Type.

Fixpoint obj_get (o : object V) (k : jsstring) : option V :=
  match o with
  | [] => None
  | (k', v) :: o' => if JsString.eqb k' k then Some v else obj_get o' k
  end.

Definition obj_has (o : object V) (k : jsstring) : bool :=
  match obj_get o k with Some _ => true | None => false end.

Fixpoint obj_update (o : object V) (k : jsstring) (v : V) : object V :=
  match o with
  | [] => []
  | (k', v') :: o' =>
      if JsString.eqb k' k then (k', v) :: o' else (k', v') :: obj_update o' k v
  end.

Fixpoint obj_insert_index (o : object V) (n : N) (k : jsstring) (v : V) : object V :=
  match o with
  | [] => [(k, v)]
  | (k', v') :: o' =>
      match array_index k' with
      | Some n' => if (n <? n')%N then (k, v) :: o
                   else (k', v') :: obj_insert_index o' n k v
      | None => (k, v) :: o
      end
  end.

(** CreateDataProperty: an existing property keeps its place and takes
    the new value; a new one goes where enumeration order puts it. *)
Definition obj_define (o : object V) (k : jsstring) (v : V) : object V :=
  if obj_has o k then obj_update o k v
  else match array_index k with
       | Some n => obj_insert_index o n k v
       | None => o ++ [(k, v)]
       end.
End Properties.

(** Enumeration order on keys: array indices ascending, then the other
    keys; two keys that are not indices are merely distinct. *)
Definition precedes (k1 k2 : jsstring) : bool :=
  match array_index k1, array_index k2 with
  | Some n1, Some n2 => (n1 <? n2)%N
  | Some _, None => true
  | None, Some _ => false
  | None, None => negb (JsString.eqb k1 k2)
  end.

Fixpoint ordered_keys (ks : list jsstring) : bool :=
  match ks with
  | [] => true
  | k :: ks' => forallb (precedes k) ks' && ordered_keys ks'
  end.

(** A property list that an object can have: no key twice, in enumeration
    order. *)
Definition ordered (V : Type) (o : object V) : bool :=
  ordered_keys (List.map fst o).

Definition proto_key : jsstring := js "__proto__".

(** [o[k] = v] on an object literal whose values are strings.  The key
    [__proto__] reaches the inherited accessor, which ignores a value that
    is neither an object nor null: nothing is stored. *)
Definition obj_assign (o : object jsstring) (k v : jsstring) : object jsstring :=
  if JsString.eqb k proto_key then o else obj_define o k v.

End JsObject.
Import JsObject.

(** ** Request construction (lines 33-77 of the handler) *)

Module Request.

(** The parsed flags, as the command-line parser hands them to the handler:
    an option that was not given is [undefined] ([None], or [false] for a
    switch); [-X] defaults to [GET] and [-H] collects into a list. *)
Record options := {
  opt_request : jsstring;
  opt_header : list jsstring;
  opt_data : option jsstring;
  opt_dataRaw : option jsstring;
  opt_dataBinary : option jsstring;
  opt_user : option jsstring;
  opt_insecure : bool;
  opt_include : bool;
  opt_silent : bool
}.

(** Truthiness of a value that is a string or [undefined]. *)
Definition truthy (v : option jsstring) : bool :=
  match v with
  | Some s => nonempty s
  | None => false
  end.

(** [a || b]. *)
Definition js_or (a b : option jsstring) : option jsstring :=
  if truthy a then a else b.

(** The callback of [options.header.forEach]. *)
Definition header_callback (headers : object jsstring) (h : jsstring) : object jsstring :=
  match split colon h with
  | key :: valueParts =>
      if nonempty key && (0 <? List.length valueParts)%nat
      then obj_assign headers (trim key) (trim (join colon valueParts))
      else headers
  | [] => headers
  end.

Definition parse_headers (hs : list jsstring) : object jsstring :=
  fold_left header_callback hs [].

(** [options.data || options.dataRaw || options.dataBinary]. *)
Definition unify_data (o : options) : option jsstring :=
  js_or (js_or (opt_data o) (opt_dataRaw o)) (opt_dataBinary o).

Definition inject_content_type (data : option jsstring) (headers : object jsstring)
  : object jsstring :=
  if truthy data
     && negb (truthy (obj_get headers (js "Content-Type")))
     && negb (truthy (obj_get headers (js "content-type")))
  then obj_assign headers (js "Content-Type") (js "application/json")
  else headers.

Record auth := {
  username : option jsstring;
  password : option jsstring
}.

(** [const [username, password] = options.user.split(":")]: the first two
    pieces, [undefined] where there is none. *)
Definition basic_auth (user : option jsstring) : option auth :=
  match user with
  | Some u =>
      if nonempty u
      then let parts := split colon u in
           Some {| username := nth_error parts 0; password := nth_error parts 1 |}
      else None
  | None => None
  end.

Record config := {
  cfg_method : jsstring;
  cfg_url : jsstring;
  cfg_headers : object jsstring;
  cfg_data : option jsstring;
  cfg_auth : option auth;
  cfg_rejectUnauthorized : bool
}.

Definition build_config (url : jsstring) (o : options) : config :=
  let headers := parse_headers (opt_header o) in
  let data := unify_data o in
  {| cfg_method := opt_request o;
     cfg_url := url;
     cfg_headers := inject_content_type data headers;
     cfg_data := data;
     cfg_auth := basic_auth (opt_user o);
     cfg_rejectUnauthorized := negb (opt_insecure o) |}.

(** [collect] (lines 11-13), the function that gathers a repeated option:
    [previous.concat([value])]. *)
Definition collect (value : jsstring) (previous : list jsstring) : list jsstring :=
  previous ++ [value].

(** [options.header] after the occurrences [values] of [-H]: the
    command-line parser calls [collect] once per occurrence, on the
    argument and on what it has gathered so far, starting from the default
    [[]] (line 20). *)
Definition collected (values : list jsstring) : list jsstring :=
  fold_left (fun previous value => collect value previous) values [].

(** The three body options as the command-line parser fills them: each
    occurrence of a flag stores its argument in that flag's own slot, a
    later occurrence of the same flag replacing an earlier one. *)
Inductive body_flag := FlagData | FlagDataRaw | FlagDataBinary.

Definition store_flag (o : options) (a : body_flag * jsstring) : options :=
  let '(f, v) := a in
  {| opt_request := opt_request o;
     opt_header := opt_header o;
     opt_data := match f with FlagData => Some v | _ => opt_data o end;
     opt_dataRaw := match f with FlagDataRaw => Some v | _ => opt_dataRaw o end;
     opt_dataBinary := match f with FlagDataBinary => Some v | _ => opt_dataBinary o end;
     opt_user := opt_user o;
     opt_insecure := opt_insecure o;
     opt_include := opt_include o;
     opt_silent := opt_silent o |}.

Definition store_flags (o : options) (args : list (body_flag * jsstring)) : options :=
  fold_left store_flag args o.

(** What the claims call "the text before / after the first colon". *)
Fixpoint first_colon (h : jsstring) : option (jsstring * jsstring) :=
  match h with
  | [] => None
  | c :: h' =>
      if code_eqb c colon then Some ([], h')
      else match first_colon h' with
           | Some (before, after) => Some (c :: before, after)
           | None => None
           end
  end.

(** The value the last of the flags [hs] gives the header [name], reading
    each flag as name and value around its first colon. *)
Fixpoint last_value (name : jsstring) (hs : list jsstring) (found : option jsstring)
  : option jsstring :=
  match hs with
  | [] => found
  | h :: hs' =>
      match first_colon h with
      | Some (before, after) =>
          if nonempty before && JsString.eqb (trim before) name
          then last_value name hs' (Some (trim after))
          else last_value name hs' found
      | None => last_value name hs' found
      end
  end.

(** No flag of [hs] names the header [name]. *)
Definition unnamed_in (name : jsstring) (hs : list jsstring) : Prop :=
  forall h before after,
    In h hs -> h = before ++ colon :: after -> ~ In colon before ->
    before = [] \/ trim before <> name.

(** ASCII lower-casing, to compare header names without regard to case. *)
Definition lower (s : jsstring) : jsstring :=
  List.map (fun c => if (65 <=? c)%N && (c <=? 90)%N then (c + 32)%N else c) s.

(** A name or a value without white space at its ends. *)
Definition trimmed (kv : jsstring * jsstring) : Prop :=
  trim (fst kv) = fst kv /\ trim (snd kv) = snd kv.

(** The header comes from the flag [h]: its name and its value are the
    trimmed texts before and after the first colon of [h]. *)
Definition given_by (h : jsstring) (kv : jsstring * jsstring) : Prop :=
  exists before after,
    h = before ++ colon :: after /\ ~ In colon before
    /\ fst kv = trim before /\ snd kv = trim after.

End Request.
Import Request.

(** ** Numbers

    A Number is a binary64 value: [spec_float] at precision 53 and maximal
    exponent 1024.  Reading a decimal literal rounds to nearest, ties to
    even, and overflows to an infinity; printing gives the shortest decimal
    that reads back as the same value (Number::toString).  Neither is code
    of the repository: both follow the language specification. *)

Module JsNumber.

Definition number := spec_float.

Definition number_eqb (a b : number) : bool :=
  match a, b with
  | S754_zero s, S754_zero s' => Bool.eqb s s'
  | S754_infinity s, S754_infinity s' => Bool.eqb s s'
  | S754_nan, S754_nan => true
  | S754_finite s m e, S754_finite s' m' e' =>
      Bool.eqb s s' && Pos.eqb m m' && Z.eqb e e'
  | _, _ => false
  end.

Definition is_finite (x : number) : bool :=
  match x with
  | S754_zero _ | S754_finite _ _ _ => true
  | S754_infinity _ | S754_nan => false
  end.

Local Open Scope Z_scope.

(** *** Reading: rounding to nearest, ties to even

    Every finite binary64 value is a whole number of units of [2^-1074], the
    least subnormal; a fraction is rounded as that many units. *)

(** The [L] with [2^L <= p/q < 2^(L+1)], for [p >= q]. *)
Definition floor_log2 (p q : Z) : Z :=
  let L := Z.log2 p - Z.log2 q in
  if p <? q * 2 ^ L then L - 1 else L.

(** The exponent, counted from that of the least subnormal, at which [p/q]
    units are rounded: the one that leaves 53 bits, or 0 when there are
    fewer. *)
Definition exponent_of (p q : Z) : Z := Z.max (floor_log2 p q - 52) 0.

(** What determines that exponent. *)
Definition exponent_for (p q E : Z) : Prop :=
  0 <= E /\ p < q * 2 ^ (E + 53) /\ (0 < E -> q * 2 ^ (E + 52) <= p).

Definition round_at (neg : bool) (p q E : Z) : number :=
  let b := q * 2 ^ E in
  let m0 := p / b in
  let m := match 2 * (p mod b) ?= b with
           | Lt => m0
           | Gt => m0 + 1
           | Eq => if Z.even m0 then m0 else m0 + 1
           end in
  let '(m', E') := if m =? 2 ^ 53 then (2 ^ 52, E + 1) else (m, E) in
  match m' with
  | Zpos mp => if E' <=? 2045 then S754_finite neg mp (E' - 1074) else S754_infinity neg
  | _ => S754_zero neg
  end.

Definition round_core (neg : bool) (p q : Z) : number :=
  round_at neg p q (exponent_of p q).

(** [p/q], with the sign asked for, as a Number. *)
Definition round_fraction (neg : bool) (p q : Z) : number :=
  round_core neg (p * 2 ^ 1074) q.

(** The Number value for [(-1)^neg * m * 10^e]. *)
Definition of_decimal (neg : bool) (m : N) (e : Z) : number :=
  match m with
  | N0 => S754_zero neg
  | Npos p => round_fraction neg (Zpos p * 10 ^ Z.max 0 e) (10 ^ Z.max 0 (- e))
  end.

(** The same value by the operations of the Standard Library's
    specification of the format, at precision 53 and maximal exponent
    1024. *)
Definition of_decimal_ieee (neg : bool) (m : N) (e : Z) : number :=
  match m with
  | N0 => S754_zero neg
  | Npos p =>
      match e with
      | Zneg k =>
          SFdiv 53 1024 (S754_finite neg p 0) (S754_finite false (Pos.pow 10 k) 0)
      | _ => binary_round 53 1024 neg (p * Z.to_pos (10 ^ e)) 0
      end
  end.

(** The finite values of the format: 53 bits at most, the exponent in
    range, and no spare exponent left in a short mantissa. *)
Definition valid (m : positive) (e : Z) : bool :=
  ((2 ^ 52 <=? Zpos m) && (Zpos m <? 2 ^ 53) && (-1074 <=? e) && (e <=? 971))
  || ((Zpos m <? 2 ^ 52) && (e =? -1074)).

Definition is_binary64 (x : number) : bool :=
  match x with
  | S754_finite _ m e => valid m e
  | S754_nan => false
  | S754_zero _ | S754_infinity _ => true
  end.

(** The value with another sign. *)
Definition with_sign (neg : bool) (x : number) : number :=
  match x with
  | S754_zero _ => S754_zero neg
  | S754_infinity _ => S754_infinity neg
  | S754_nan => S754_nan
  | S754_finite _ m e => S754_finite neg m e
  end.

(** *** Printing: Number::toString *)

(** The magnitude [m * 2^e] as a fraction. *)
Definition fraction (m : positive) (e : Z) : Z * Z :=
  (Zpos m * 2 ^ (e + 1074), 2 ^ 1074).

(** [floor (p/q * 10^t)], and how the part cut off compares with a half. *)
Definition scaled_floor (p q t : Z) : Z :=
  if 0 <=? t then (p * 10 ^ t) / q else p / (q * 10 ^ (- t)).

Definition scaled_rest (p q t : Z) : comparison :=
  if 0 <=? t then (2 * ((p * 10 ^ t) mod q)) ?= q
  else (2 * (p mod (q * 10 ^ (- t)))) ?= (q * 10 ^ (- t)).

(** The number of decimal digits of a positive integer. *)
Definition num_digits (z : Z) : Z :=
  Z.of_nat (List.length (of_N (Z.to_N z))).

(** The [n] with [10^(n-1) <= p/q < 10^n]. *)
Definition magnitude (p q : Z) : Z :=
  if q <=? p then num_digits (p / q)
  else 1 - num_digits ((q + p - 1) / p - 1).

(** The integers next to [p/q * 10^(k-n)], the closer one first (the even
    one on a tie). *)
Definition neighbours (p q k n : Z) : list Z :=
  let s0 := scaled_floor p q (k - n) in
  match scaled_rest p q (k - n) with
  | Lt => [s0; s0 + 1]
  | Gt => [s0 + 1; s0]
  | Eq => if Z.even s0 then [s0; s0 + 1] else [s0 + 1; s0]
  end.

(** [s] has [k] digits and [s * 10^(n-k)] reads as [x]. *)
Definition reads_as (x : number) (k n s : Z) : bool :=
  (0 <? s) && (num_digits s =? k)
  && number_eqb (of_decimal false (Z.to_N s) (n - k)) x.

Definition digits_at (x : number) (p q k n : Z) : option (Z * Z) :=
  match List.find (reads_as x k n) (neighbours p q k n) with
  | Some s => Some (s, n)
  | None => None
  end.

(** The digits of the exact value: [m * 2^e] is [m * 2^(e+1074) * 5^1074]
    over [10^1074]. *)
Definition exact_digits (m : positive) (e : Z) : Z * Z :=
  let s := Zpos m * 2 ^ (e + 1074) * 5 ^ 1074 in
  (s, num_digits s - 1074).

(** Step 5 of Number::toString: an [s] with as few digits [k] as possible,
    and an [n], such that [s * 10^(n-k)] reads as [x]; [n0] is the magnitude
    of [x], and [n] is [n0] or, when [x] lies just under a power of ten,
    [n0 + 1].  Seventeen digits identify every binary64 value ([more] counts
    the lengths still to try); the exact digits would do after that. *)
Fixpoint shortest_from (x : number) (p q n0 k : Z) (more : nat) (last : Z * Z) : Z * Z :=
  match digits_at x p q k n0 with
  | Some found => found
  | None =>
      match digits_at x p q k (n0 + 1) with
      | Some found => found
      | None =>
          match more with
          | S more' => shortest_from x p q n0 (k + 1) more' last
          | O => last
          end
      end
  end.

Definition shortest (m : positive) (e : Z) : Z * Z :=
  let '(p, q) := fraction m e in
  shortest_from (S754_finite false m e) p q (magnitude p q) 1 16 (exact_digits m e).

(** [s] and [n] are digits and a position that read as [x]. *)
Definition digits_of (x : number) (sn : Z * Z) : Prop :=
  0 < fst sn /\ of_decimal false (Z.to_N (fst sn)) (snd sn - num_digits (fst sn)) = x.

Definition zeros (n : Z) : jsstring := repeat 48%N (Z.to_nat n).

(** Steps 6-10 of Number::toString, [k] being the number of digits of [s]. *)
Definition format (s n : Z) : jsstring :=
  let digits := of_N (Z.to_N s) in
  let k := Z.of_nat (List.length digits) in
  if (k <=? n) && (n <=? 21) then digits ++ zeros (n - k)
  else if (0 <? n) && (n <=? 21)
  then firstn (Z.to_nat n) digits ++ js "." ++ skipn (Z.to_nat n) digits
  else if (-6 <? n) && (n <=? 0) then js "0." ++ zeros (- n) ++ digits
  else
    let exponent :=
      js "e" ++ (if n - 1 <? 0 then js "-" else js "+") ++ of_N (Z.abs_N (n - 1)) in
    match digits with
    | d :: (_ :: _) as more => d :: js "." ++ more ++ exponent
    | _ => digits ++ exponent
    end.

(** Number::toString, radix 10. *)
Definition toString (x : number) : jsstring :=
  match x with
  | S754_nan => js "NaN"
  | S754_zero _ => js "0"
  | S754_infinity false => js "Infinity"
  | S754_infinity true => js "-Infinity"
  | S754_finite neg m e =>
      let '(s, n) := shortest m e in
      (if neg then js "-" else []) ++ format s n
  end.

End JsNumber.
Import JsNumber.

(** ** JSON

    [JSON.stringify (v, null, 2)] and [JSON.parse] of the language
    specification, on values that hold no [undefined], function or symbol:
    what [JSON.parse] produces, and what the client hands over as a decoded
    body. *)

Module Json.

Unset Elimination Schemes.
Inductive json :=
| JNull
| JBool (b : bool)
| JNumber (x : number)
| JString (s : jsstring)
| JArray (items : list json)
| JObject (props : object json).
Set Elimination Schemes.

Local Open Scope N_scope.

Definition quotation : code := 34.
Definition backslash : code := 92.
Definition comma : code := 44.
Definition lbracket : code := 91.
Definition rbracket : code := 93.
Definition lbrace : code := 123.
Definition rbrace : code := 125.

(** *** Serialization *)

Definition hex_digit (d : N) : code := if d <? 10 then 48 + d else 87 + d.

(** [\uXXXX], lower-case hexadecimal. *)
Definition unicode_escape (c : code) : jsstring :=
  js "\u" ++ [hex_digit (c / 4096 mod 16); hex_digit (c / 256 mod 16);
              hex_digit (c / 16 mod 16); hex_digit (c mod 16)].

Definition is_high_surrogate (c : code) : bool := (55296 <=? c) && (c <=? 56319).
Definition is_low_surrogate (c : code) : bool := (56320 <=? c) && (c <=? 57343).

Definition escape_unit (c : code) : jsstring :=
  if c =? 8 then js "\b"
  else if c =? 9 then js "\t"
  else if c =? 10 then js "\n"
  else if c =? 12 then js "\f"
  else if c =? 13 then js "\r"
  else if c =? quotation then [backslash; quotation]
  else if c =? backslash then [backslash; backslash]
  else if c <? 32 then unicode_escape c
  else [c].

(** The body of QuoteJSONString: code point by code point, a surrogate
    that is not half of a pair escaped. *)
Fixpoint quote_units (s : jsstring) : jsstring :=
  match s with
  | [] => []
  | c :: s' =>
      if is_high_surrogate c then
        match s' with
        | d :: s'' =>
            if is_low_surrogate d then c :: d :: quote_units s''
            else unicode_escape c ++ quote_units s'
        | [] => unicode_escape c
        end
      else if is_low_surrogate c then unicode_escape c ++ quote_units s'
      else escape_unit c ++ quote_units s'
  end.

Definition quote (s : jsstring) : jsstring :=
  quotation :: quote_units s ++ [quotation].

Definition newline_indent (indent : nat) : jsstring := 10 :: repeat 32 indent.

Fixpoint join_with (sep : jsstring) (parts : list jsstring) : jsstring :=
  match parts with
  | [] => []
  | [p] => p
  | p :: ps => p ++ sep ++ join_with sep ps
  end.

(** SerializeJSONProperty with a gap of two spaces, at the current
    indentation. *)
Fixpoint serialize (indent : nat) (v : json) : jsstring :=
  match v with
  | JNull => js "null"
  | JBool b => if b then js "true" else js "false"
  | JNumber x => if is_finite x then toString x else js "null"
  | JString s => quote s
  | JArray items =>
      match List.map (serialize (2 + indent)) items with
      | [] => js "[]"
      | partial =>
          js "[" ++ newline_indent (2 + indent)
          ++ join_with (comma :: newline_indent (2 + indent)) partial
          ++ newline_indent indent ++ js "]"
      end
  | JObject props =>
      match List.map (fun kv => quote (fst kv) ++ js ": " ++ serialize (2 + indent) (snd kv))
                     props with
      | [] => js "{}"
      | partial =>
          js "{" ++ newline_indent (2 + indent)
          ++ join_with (comma :: newline_indent (2 + indent)) partial
          ++ newline_indent indent ++ js "}"
      end
  end.

(** [JSON.stringify (v, null, 2)]. *)
Definition stringify (v : json) : jsstring := serialize 0 v.

(** *** Parsing *)

Definition is_json_ws (c : code) : bool :=
  (c =? 9) || (c =? 10) || (c =? 13) || (c =? 32).

Fixpoint skip_ws (s : jsstring) : jsstring :=
  match s with
  | c :: s' => if is_json_ws c then skip_ws s' else s
  | [] => []
  end.

Fixpoint strip_prefix (p s : jsstring) : option jsstring :=
  match p, s with
  | [], _ => Some s
  | x :: p', y :: s' => if code_eqb x y then strip_prefix p' s' else None
  | _ :: _, [] => None
  end.

Fixpoint span_digits (s : jsstring) : jsstring * jsstring :=
  match s with
  | c :: s' =>
      if is_digit c then let '(ds, rest) := span_digits s' in (c :: ds, rest)
      else ([], s)
  | [] => ([], [])
  end.

Definition lex_sign (s : jsstring) : bool * jsstring :=
  match s with
  | c :: s' => if c =? 45 then (true, s') else (false, s)
  | [] => (false, s)
  end.

Definition lex_fraction (s : jsstring) : option (jsstring * jsstring) :=
  match s with
  | c :: s' =>
      if c =? 46 then
        match span_digits s' with
        | ([], _) => None
        | (ds, rest) => Some (ds, rest)
        end
      else Some ([], s)
  | [] => Some ([], s)
  end.

Definition lex_exponent (s : jsstring) : option (Z * jsstring) :=
  match s with
  | c :: s' =>
      if (c =? 101) || (c =? 69) then
        let '(neg, s'') :=
          match s' with
          | d :: t => if d =? 45 then (true, t) else if d =? 43 then (false, t) else (false, s')
          | [] => (false, s')
          end in
        match span_digits s'' with
        | ([], _) => None
        | (ds, rest) =>
            let e := Z.of_N (decimal_value ds 0) in
            Some (if neg then (- e)%Z else e, rest)
        end
      else Some (0%Z, s)
  | [] => Some (0%Z, s)
  end.

(** A JSON number at the head of [s], and its Number value. *)
Definition lex_number (s : jsstring) : option (number * jsstring) :=
  let '(neg, s1) := lex_sign s in
  match span_digits s1 with
  | ([], _) => None
  | ((d :: more) as int, s2) =>
      if (d =? 48) && nonempty more then None
      else
        match lex_fraction s2 with
        | Some (frac, s3) =>
            match lex_exponent s3 with
            | Some (e, rest) =>
                Some (of_decimal neg (decimal_value (int ++ frac) 0)
                                 (e - Z.of_nat (List.length frac)), rest)
            | None => None
            end
        | None => None
        end
  end.

Definition hex_value (c : code) : option N :=
  if is_digit c then Some (c - 48)
  else if (97 <=? c) && (c <=? 102) then Some (c - 87)
  else if (65 <=? c) && (c <=? 70) then Some (c - 55)
  else None.

Definition hex4 (a b c d : code) : option code :=
  match hex_value a, hex_value b, hex_value c, hex_value d with
  | Some x, Some y, Some z, Some w => Some (4096 * x + 256 * y + 16 * z + w)
  | _, _, _, _ => None
  end.

Definition unescape (c : code) : option code :=
  if c =? quotation then Some quotation
  else if c =? backslash then Some backslash
  else if c =? 47 then Some 47
  else if c =? 98 then Some 8
  else if c =? 102 then Some 12
  else if c =? 110 then Some 10
  else if c =? 114 then Some 13
  else if c =? 116 then Some 9
  else None.

(** The characters of a JSON string after its opening quote, up to and
    including the closing one. *)
Fixpoint lex_string (s : jsstring) : option (jsstring * jsstring) :=
  match s with
  | [] => None
  | c :: s' =>
      if c =? quotation then Some ([], s')
      else if c =? backslash then
        match s' with
        | e :: s'' =>
            if e =? 117 then
              match s'' with
              | h1 :: h2 :: h3 :: h4 :: s5 =>
                  match hex4 h1 h2 h3 h4, lex_string s5 with
                  | Some u, Some (str, rest) => Some (u :: str, rest)
                  | _, _ => None
                  end
              | _ => None
              end
            else
              match unescape e, lex_string s'' with
              | Some u, Some (str, rest) => Some (u :: str, rest)
              | _, _ => None
              end
        | [] => None
        end
      else if c <? 32 then None
      else
        match lex_string s' with
        | Some (str, rest) => Some (c :: str, rest)
        | None => None
        end
  end.

Section Loops.
Variable parse_value : jsstring -> option (json * jsstring).

(** The elements of an array after the first has been found to exist. *)
Fixpoint parse_elements (fuel : nat) (s : jsstring) : option (list json * jsstring) :=
  match fuel with
  | O => None
  | S fuel' =>
      match parse_value s with
      | Some (v, rest) =>
          match skip_ws rest with
          | c :: rest' =>
              if c =? comma then
                match parse_elements fuel' rest' with
                | Some (vs, r) => Some (v :: vs, r)
                | None => None
                end
              else if c =? rbracket then Some ([v], rest')
              else None
          | [] => None
          end
      | None => None
      end
  end.

(** The members of an object, each defined on the object built so far. *)
Fixpoint parse_members (fuel : nat) (s : jsstring) (acc : object json)
  : option (object json * jsstring) :=
  match fuel with
  | O => None
  | S fuel' =>
      match skip_ws s with
      | q :: s1 =>
          if q =? quotation then
            match lex_string s1 with
            | Some (key, s2) =>
                match skip_ws s2 with
                | c :: s3 =>
                    if c =? colon then
                      match parse_value s3 with
                      | Some (v, rest) =>
                          let acc' := obj_define acc key v in
                          match skip_ws rest with
                          | d :: rest' =>
                              if d =? comma then parse_members fuel' rest' acc'
                              else if d =? rbrace then Some (acc', rest')
                              else None
                          | [] => None
                          end
                      | None => None
                      end
                    else None
                | [] => None
                end
            | None => None
            end
          else None
      | [] => None
      end
  end.
End Loops.

Fixpoint parse_value (fuel : nat) (s : jsstring) : option (json * jsstring) :=
  match fuel with
  | O => None
  | S fuel' =>
      match skip_ws s with
      | [] => None
      | c :: s1 =>
          if c =? lbrace then
            match skip_ws s1 with
            | d :: s2 =>
                if d =? rbrace then Some (JObject [], s2)
                else
                  match parse_members (parse_value fuel') fuel' s1 [] with
                  | Some (props, rest) => Some (JObject props, rest)
                  | None => None
                  end
            | [] => None
            end
          else if c =? lbracket then
            match skip_ws s1 with
            | d :: s2 =>
                if d =? rbracket then Some (JArray [], s2)
                else
                  match parse_elements (parse_value fuel') fuel' s1 with
                  | Some (items, rest) => Some (JArray items, rest)
                  | None => None
                  end
            | [] => None
            end
          else if c =? quotation then
            match lex_string s1 with
            | Some (str, rest) => Some (JString str, rest)
            | None => None
            end
          else if c =? 110 then
            option_map (pair JNull) (strip_prefix (js "ull") s1)
          else if c =? 116 then
            option_map (pair (JBool true)) (strip_prefix (js "rue") s1)
          else if c =? 102 then
            option_map (pair (JBool false)) (strip_prefix (js "alse") s1)
          else
            match lex_number (c :: s1) with
            | Some (x, rest) => Some (JNumber x, rest)
            | None => None
            end
      end
  end.

(** [JSON.parse text]: one value, white space around it, nothing else;
    [None] is the SyntaxError. *)
Definition parse (text : jsstring) : option json :=
  match parse_value (S (List.length text)) text with
  | Some (v, rest) =>
      match skip_ws rest with
      | [] => Some v
      | _ :: _ => None
      end
  | None => None
  end.

(** *** The text of a number *)

Definition fraction_text (frac : jsstring) : jsstring :=
  match frac with
  | [] => []
  | _ :: _ => 46 :: frac
  end.

Definition exponent_text (ex : option (bool * jsstring)) : jsstring :=
  match ex with
  | None => []
  | Some (eneg, ed) => 101 :: (if eneg then 45 else 43) :: ed
  end.

Definition exponent_value (ex : option (bool * jsstring)) : Z :=
  match ex with
  | None => 0%Z
  | Some (eneg, ed) =>
      let e := Z.of_N (decimal_value ed 0) in
      if eneg then (- e)%Z else e
  end.

(** A number written as sign, integer digits, fraction digits and
    exponent. *)
Definition literal (neg : bool) (int frac : jsstring) (ex : option (bool * jsstring))
  : jsstring :=
  (if neg then [45] else []) ++ int ++ fraction_text frac ++ exponent_text ex.

(** [ds] is the decimal numeral of [n]. *)
Definition numeral (n : N) (ds : jsstring) : Prop :=
  forallb is_digit ds = true /\ decimal_value ds 0 = n
  /\ exists d ds', ds = d :: ds' /\ (0 < n -> d <> 48).

(** *** Values that survive a round trip *)

(** The number is read back from its own printed form. *)
Definition reads_back (x : number) : bool :=
  match lex_number (toString x) with
  | Some (y, []) => number_eqb y x
  | _ => false
  end.

(** Every number in the value is finite and is read back from its printed
    form. *)
Fixpoint stable (v : json) : bool :=
  match v with
  | JNumber x => is_finite x && reads_back x
  | JArray items => forallb stable items
  | JObject props => forallb (fun kv => stable (snd kv)) props
  | _ => true
  end.

(** The number is finite and is not the negative zero. *)
Definition printed_exactly (x : number) : bool :=
  match x with
  | S754_finite _ _ _ | S754_zero false => true
  | _ => false
  end.

Fixpoint exact_numbers (v : json) : bool :=
  match v with
  | JNumber x => printed_exactly x
  | JArray items => forallb exact_numbers items
  | JObject props => forallb (fun kv => exact_numbers (snd kv)) props
  | _ => true
  end.

(** A value of the language: every number is a value of the binary64
    format, and every object has its properties in enumeration order. *)
Fixpoint well_formed (v : json) : bool :=
  match v with
  | JNumber x => is_binary64 x
  | JArray items => forallb well_formed items
  | JObject props => ordered props && forallb (fun kv => well_formed (snd kv)) props
  | _ => true
  end.

(** The number of values in a value. *)
Fixpoint weight (v : json) : nat :=
  match v with
  | JArray items => S (list_sum (List.map weight items))
  | JObject props => S (list_sum (List.map (fun kv => weight (snd kv)) props))
  | _ => 1%nat
  end.

(** A code unit read in front of the rest of a string. *)
Definition prepend (u : code) (r : option (jsstring * jsstring))
  : option (jsstring * jsstring) :=
  match r with
  | Some (str, rest) => Some (u :: str, rest)
  | None => None
  end.

(** What may follow a number without being read as part of it. *)
Definition ends_number (rest : jsstring) : bool :=
  match rest with
  | [] => true
  | c :: _ => negb (is_digit c || (c =? 46) || (c =? 101) || (c =? 69))
  end.

(** The first code unit of a value: not white space, and not what closes an
    array or an object. *)
Definition starts_value (c : code) : bool :=
  negb (is_json_ws c) && negb (c =? rbracket) && negb (c =? rbrace).

(** What the induction gives for a value inside an array or an object. *)
Definition read_back (fuel0 indent : nat) (v : json) : Prop :=
  forall rest, ends_number rest = true ->
               parse_value fuel0 (serialize (2 + indent) v ++ rest) = Some (v, rest).

(** What stands between two elements or members. *)
Definition separator (indent : nat) : jsstring := comma :: newline_indent (2 + indent).

(** The text of one member of an object. *)
Definition member (indent : nat) (kv : jsstring * json) : jsstring :=
  quote (fst kv) ++ js ": " ++ serialize (2 + indent) (snd kv).

(** The value that the text printed for [v] denotes: a number that is an
    infinity or a NaN is printed as [null], and the negative zero as [0]. *)
Definition printed_number (x : number) : json :=
  match x with
  | S754_finite _ _ _ => JNumber x
  | S754_zero _ => JNumber (S754_zero false)
  | S754_infinity _ | S754_nan => JNull
  end.

Fixpoint printed_value (v : json) : json :=
  match v with
  | JNumber x => printed_number x
  | JArray items => JArray (List.map printed_value items)
  | JObject props => JObject (List.map (fun kv => (fst kv, printed_value (snd kv))) props)
  | _ => v
  end.

End Json.
Import Json.

(** ** The handler (lines 79-139): the client call and what is printed *)

Module Handler.

(** What the client resolves with.  [resp_data] is the body as the client
    hands it over: a string when it arrived as text, any other value when
    the client decoded it.  [resp_headers] has the names as the client
    delivers them (lower-case), [resp_protocol] is
    [response.request.protocol]. *)
Record response := {
  resp_status : Z;
  resp_statusText : jsstring;
  resp_headers : object jsstring;
  resp_data : json;
  resp_protocol : option jsstring
}.

(** What the client rejects with: [error.response] (status and reason),
    whether [error.request] is set, and [error.message]. *)
Record error := {
  err_response : option (Z * jsstring);
  err_request : bool;
  err_message : jsstring
}.

Inductive client_result :=
| Resolves (r : response)
| Rejects (e : error).

Inductive stream := Stdout | Stderr.

Inductive color := Blue | Cyan | Yellow | Red.

(** One argument of a console call. *)
Inductive text :=
| Plain (s : jsstring)
| Chalk (c : color) (s : jsstring)
| Highlight (formatted : jsstring)
| Value (v : json).

(** One console call: [console.log] writes to the output stream,
    [console.warn] and [console.error] to the error stream. *)
Definition event := (stream * list text)%type.

Record outcome := {
  printed : list event;
  exit_code : Z
}.

Definition status_line (r : response) : jsstring :=
  let version :=
    match resp_protocol r with
    | Some p =>
        match nth_error (split colon p) 1 with
        | Some v => if nonempty v then v else js "1.1"
        | None => js "1.1"
        end
    | None => js "1.1"
    end in
  js "HTTP/" ++ version ++ js " " ++ of_Z (resp_status r) ++ js " " ++ resp_statusText r.

Definition print_headers (o : options) (r : response) : list event :=
  if opt_include o then
    (Stdout, [Chalk Blue (status_line r)])
    :: List.map (fun kv => (Stdout, [Chalk Cyan (fst kv ++ js ": " ++ snd kv)]))
                (resp_headers r)
    ++ [(Stdout, [Plain []])]
  else [].

Definition warning_line (r : response) : jsstring :=
  js "Warning: Request failed with status " ++ of_Z (resp_status r)
  ++ js " " ++ resp_statusText r.

Definition print_warning (o : options) (r : response) : list event :=
  if (400 <=? resp_status r)%Z && negb (opt_silent o)
  then [(Stderr, [Chalk Yellow (warning_line r)])]
  else [].

Definition isJsonHeader (r : response) : bool :=
  match obj_get (resp_headers r) (js "content-type") with
  | Some contentType => nonempty contentType && includes (js "application/json") contentType
  | None => false
  end.

(** The string [JSON.parse] sees when handed a value that is not an
    object ([typeof v !== "object" || v === null]); [None] for an array or
    an object. *)
Definition primitive_text (v : json) : option jsstring :=
  match v with
  | JString s => Some s
  | JNull => Some (js "null")
  | JBool b => Some (if b then js "true" else js "false")
  | JNumber x => Some (toString x)
  | JArray _ | JObject _ => None
  end.

Definition print_body (r : response) : list event :=
  match primitive_text (resp_data r) with
  | None => [(Stdout, [Highlight (stringify (resp_data r))])]
  | Some text =>
      if isJsonHeader r then
        match parse text with
        | Some json => [(Stdout, [Highlight (stringify json)])]
        | None => [(Stdout, [Value (resp_data r)])]
        end
      else [(Stdout, [Value (resp_data r)])]
  end.

(** What the client makes of a response body before the handler sees it
    (its default [transformResponse]; the README's copy of the handler has
    "Axios automatically tries to parse JSON"): a body that is valid JSON
    text is handed over decoded, whatever the content type; any other body,
    the empty one among them, as the text itself.  [body] is the text the
    client has read from the bytes of the response.  This is the client's
    code, not the repository's. *)
Definition client_data (body : jsstring) : json :=
  match parse body with
  | Some v => v
  | None => JString body
  end.

(** The decoded values that come out as JSON under a JSON content type:
    all but the strings, which are parsed once more, and the infinite
    numbers, whose text is not JSON. *)
Definition printed_as_json (v : json) : bool :=
  match v with
  | JString _ => false
  | JNumber x => is_finite x
  | _ => true
  end.

(** What a console call writes for an argument that is a string: the
    string itself.  The colouring, the highlighting and the inspection of
    other values are the libraries'. *)
Definition written (t : text) : option jsstring :=
  match t with
  | Plain s | Value (JString s) => Some s
  | _ => None
  end.

Definition on_error (o : options) (e : error) : list event :=
  if opt_silent o then []
  else
    match err_response e with
    | Some (code, reason) =>
        [(Stderr, [Chalk Red (js "Error: " ++ of_Z code ++ js " " ++ reason)])]
    | None =>
        if err_request e
        then [(Stderr, [Chalk Red (js "Error: No response received from server.")])]
        else [(Stderr, [Chalk Red (js "Error:"); Plain (err_message e)])]
    end.

(** The handler: [axios] is the client call, resolving or rejecting on the
    request it is given.  Leaving the handler ends the process with code 0;
    the catch block ends it with [process.exit(1)]. *)
Definition action (axios : config -> client_result) (url : jsstring) (o : options)
  : outcome :=
  match axios (build_config url o) with
  | Resolves r =>
      {| printed := print_headers o r ++ print_warning o r ++ print_body r;
         exit_code := 0 |}
  | Rejects e =>
      {| printed := on_error o e; exit_code := 1 |}
  end.

(** The same flags with [-s] added. *)
Definition silenced (o : options) : options :=
  {| opt_request := opt_request o;
     opt_header := opt_header o;
     opt_data := opt_data o;
     opt_dataRaw := opt_dataRaw o;
     opt_dataBinary := opt_dataBinary o;
     opt_user := opt_user o;
     opt_insecure := opt_insecure o;
     opt_include := opt_include o;
     opt_silent := true |}.

Definition on_stream (s : stream) (out : list event) : list event :=
  List.filter (fun ev => match fst ev, s with
                         | Stdout, Stdout | Stderr, Stderr => true
                         | _, _ => false
                         end) out.

End Handler.
Import Handler.

(** ** Sample invocations and responses *)

Module Samples.

Definition default_options : options :=
  {| opt_request := js "GET"; opt_header := []; opt_data := None;
     opt_dataRaw := None; opt_dataBinary := None; opt_user := None;
     opt_insecure := false; opt_include := false; opt_silent := false |}.

Definition with_header_and_data (hs : list jsstring) (d : option jsstring) : options :=
  {| opt_request := js "POST"; opt_header := hs; opt_data := d;
     opt_dataRaw := None; opt_dataBinary := None; opt_user := None;
     opt_insecure := false; opt_include := false; opt_silent := false |}.

Definition not_found : response :=
  {| resp_status := 404;
     resp_statusText := js "Not Found";
     resp_headers := [(js "content-type", js "application/json; charset=utf-8")];
     resp_data := JString (js "<html>gone</html>");
     resp_protocol := Some (js "https:") |}.

Definition refused : error :=
  {| err_response := None; err_request := true; err_message := js "connect ECONNREFUSED" |}.

Definition dq : jsstring := [quotation].

(** A 200 response whose data is the text [body] itself, not decoded. *)
Definition json_response (body : jsstring) : response :=
  {| resp_status := 200;
     resp_statusText := js "OK";
     resp_headers := [(js "content-type", js "application/json; charset=utf-8")];
     resp_data := JString body;
     resp_protocol := Some (js "https:") |}.

(** A 200 response with the content type [contentType] whose body
    [body] went through the client. *)
Definition served (contentType body : jsstring) : response :=
  {| resp_status := 200;
     resp_statusText := js "OK";
     resp_headers := [(js "content-type", contentType)];
     resp_data := client_data body;
     resp_protocol := Some (js "http:") |}.

(** An object with the keys b, 10 and 9, in that order: an array of 1,
    2.5e0, true and null; the string x; an object whose k is -0.125. *)
Definition sample_body : jsstring :=
  js "{" ++ dq ++ js "b" ++ dq ++ js ":[1,2.5e0,true,null]," ++ dq ++ js "10" ++ dq
  ++ js ":" ++ dq ++ js "x" ++ dq ++ js "," ++ dq ++ js "9" ++ dq ++ js ":{" ++ dq
  ++ js "k" ++ dq ++ js ":-0.125}}".

Definition sample_value : json :=
  JObject
    [(js "9", JObject [(js "k", JNumber (S754_finite true 4503599627370496 (-55)))]);
     (js "10", JString (js "x"));
     (js "b", JArray [JNumber (S754_finite false 4503599627370496 (-52));
                      JNumber (S754_finite false 5629499534213120 (-51));
                      JBool true; JNull])].

(** Decimal literals around the places where rounding is delicate: halfway
    cases, the subnormal range, the largest finite value, powers of ten. *)
Definition decimal_samples : list (N * Z) :=
  [(1%N, (-1)%Z); (1%N, 999%Z); (5%N, (-324)%Z); (2%N, (-324)%Z); (3%N, (-324)%Z);
   (1%N, 23%Z); (9007199254740993%N, 0%Z); (9007199254740995%N, 0%Z); (5%N, 0%Z);
   (17976931348623157%N, 292%Z); (17976931348623158%N, 292%Z);
   (17976931348623159%N, 292%Z); (15%N, (-1)%Z);
   (123456789012345678901234567890%N, (-10)%Z); (22250738585072014%N, (-324)%Z);
   (22250738585072011%N, (-324)%Z); (22250738585072009%N, (-324)%Z); (4%N, (-324)%Z);
   (247%N, (-326)%Z); (24703282292062327%N, (-340)%Z); (24703282292062328%N, (-340)%Z);
   (1%N, 0%Z); (1%N, 308%Z); (1%N, 309%Z); (179769313486231580793%N, 288%Z);
   (179769313486231580794%N, 288%Z); (1%N, (-400)%Z); (7%N, (-1)%Z);
   (30000000000000004%N, (-17)%Z); (72057594037927945%N, 0%Z); (1%N, 22%Z);
   (4503599627370496%N, 0%Z); (4503599627370497%N, 0%Z); (9007199254740991%N, 0%Z);
   (9007199254740992%N, 0%Z); (18014398509481985%N, 0%Z); (18014398509481987%N, 0%Z);
   (36028797018963969%N, 0%Z); (49406564584124654%N, (-340)%Z);
   (49406564584124655%N, (-340)%Z); (98813129168249309%N, (-340)%Z); (123%N, 300%Z);
   (17976931348623157081%N, 289%Z)].

End Samples.
Import Samples.

(** * Properties *)

Unset Implicit Arguments.

(** ** Strings and objects *)

Module StringFacts.

Lemma code_eqb_eq (a b : code) : code_eqb a b = true <-> a = b.
Proof. apply N.eqb_eq. Qed.

Lemma eqb_eq (a b : jsstring) : JsString.eqb a b = true <-> a = b.
Proof.
  revert b; induction a as [|x a IH]; intros [|y b]; simpl; split;
    try congruence; try reflexivity.
  - intros H. apply andb_true_iff in H as [Hx Hab].
    apply code_eqb_eq in Hx. apply IH in Hab. congruence.
  - intros H. injection H as -> ->.
    apply andb_true_iff. split; [apply N.eqb_refl | now apply IH].
Qed.

Lemma eqb_refl (a : jsstring) : JsString.eqb a a = true.
Proof. now apply eqb_eq. Qed.

Lemma eqb_neq (a b : jsstring) : JsString.eqb a b = false <-> a <> b.
Proof.
  split.
  - intros H E. apply eqb_eq in E. congruence.
  - intros H. destruct (JsString.eqb a b) eqn:E; [|reflexivity].
    apply eqb_eq in E. contradiction.
Qed.

Lemma eqb_sym (a b : jsstring) : JsString.eqb a b = JsString.eqb b a.
Proof.
  destruct (JsString.eqb a b) eqn:E.
  - apply eqb_eq in E. subst. symmetry. apply eqb_refl.
  - apply eqb_neq in E. symmetry. apply eqb_neq. congruence.
Qed.

Lemma split_not_nil (sep : code) (s : jsstring) : split sep s <> [].
Proof.
  induction s as [|c s IH]; simpl; [discriminate|].
  destruct (code_eqb c sep); [discriminate|].
  destruct (split sep s); [contradiction|discriminate].
Qed.

Lemma join_cons (sep : code) (p : jsstring) (ps : list jsstring) :
  ps <> [] -> join sep (p :: ps) = p ++ sep :: join sep ps.
Proof. destruct ps; [contradiction|reflexivity]. Qed.

(** Joining the pieces with the separator gives the string back. *)
Lemma join_split (sep : code) (s : jsstring) : join sep (split sep s) = s.
Proof.
  induction s as [|c s IH]; [reflexivity|].
  simpl split. destruct (code_eqb c sep) eqn:E.
  - apply code_eqb_eq in E. subst c.
    rewrite join_cons by apply split_not_nil. now rewrite IH.
  - pose proof (split_not_nil sep s) as Hne.
    destruct (split sep s) as [|p ps]; [contradiction|].
    destruct ps as [|p' ps]; simpl in *; congruence.
Qed.

Lemma startsWith_app (p s : jsstring) : startsWith p (p ++ s) = true.
Proof.
  induction p as [|x p IH]; simpl; [reflexivity|].
  now rewrite IH, (proj2 (code_eqb_eq x x) eq_refl).
Qed.

Lemma includes_here (sub s : jsstring) :
  startsWith sub s = true -> includes sub s = true.
Proof. intros H. destruct s; simpl; rewrite H; reflexivity. Qed.

Lemma includes_app (a sub b : jsstring) : includes sub (a ++ sub ++ b) = true.
Proof.
  induction a as [|x a IH].
  - cbn [app]. apply includes_here, startsWith_app.
  - change (includes sub (x :: (a ++ sub ++ b)) = true). simpl.
    rewrite IH. apply orb_true_r.
Qed.

End StringFacts.

Module ObjectFacts.
Import StringFacts.

Section Properties.
Variable V : Type.
Implicit Types (o : object V) (k : jsstring) (v : V).

Lemma obj_get_update o k v k' :
  obj_has o k = true ->
  obj_get (obj_update o k v) k' = if JsString.eqb k k' then Some v else obj_get o k'.
Proof.
  unfold obj_has. induction o as [|[k0 v0] o IH]; simpl; [discriminate|].
  destruct (JsString.eqb k0 k) eqn:E0; simpl.
  - apply eqb_eq in E0. subst k0. intros _.
    destruct (JsString.eqb k k'); reflexivity.
  - intros H. rewrite (IH H).
    destruct (JsString.eqb k0 k') eqn:E1; [|reflexivity].
    apply eqb_eq in E1. subst k0. now rewrite eqb_sym, E0.
Qed.

Lemma obj_get_insert_index o n k v k' :
  obj_has o k = false ->
  obj_get (obj_insert_index o n k v) k' =
  if JsString.eqb k k' then Some v else obj_get o k'.
Proof.
  unfold obj_has. induction o as [|[k0 v0] o IH]; simpl; [reflexivity|].
  destruct (JsString.eqb k0 k) eqn:E0; [discriminate|]. intros H.
  assert (Hskip : obj_get ((k0, v0) :: obj_insert_index o n k v) k'
                  = if JsString.eqb k k' then Some v
                    else if JsString.eqb k0 k' then Some v0 else obj_get o k').
  { simpl. rewrite (IH H).
    destruct (JsString.eqb k0 k') eqn:E1; [|reflexivity].
    apply eqb_eq in E1. subst k0. now rewrite eqb_sym, E0. }
  destruct (array_index k0) as [n'|]; [destruct (n <? n')%N|]; simpl;
    try reflexivity; exact Hskip.
Qed.

Lemma obj_get_app o k v k' :
  obj_has o k = false ->
  obj_get (o ++ [(k, v)]) k' = if JsString.eqb k k' then Some v else obj_get o k'.
Proof.
  unfold obj_has. induction o as [|[k0 v0] o IH]; simpl.
  - destruct (JsString.eqb k k'); reflexivity.
  - destruct (JsString.eqb k0 k) eqn:E0; [discriminate|]. intros H.
    rewrite (IH H). destruct (JsString.eqb k0 k') eqn:E1; [|reflexivity].
    apply eqb_eq in E1. subst k0. now rewrite eqb_sym, E0.
Qed.

(** Reading after defining a property. *)
Lemma obj_get_define o k v k' :
  obj_get (obj_define o k v) k' = if JsString.eqb k k' then Some v else obj_get o k'.
Proof.
  unfold obj_define. destruct (obj_has o k) eqn:H.
  - now apply obj_get_update.
  - destruct (array_index k); [now apply obj_get_insert_index | now apply obj_get_app].
Qed.
End Properties.

Lemma obj_get_assign (o : object jsstring) (k v k' : jsstring) :
  k <> proto_key ->
  obj_get (obj_assign o k v) k' = if JsString.eqb k k' then Some v else obj_get o k'.
Proof.
  intros H. unfold obj_assign. apply eqb_neq in H. rewrite H. apply obj_get_define.
Qed.

Lemma obj_assign_proto (o : object jsstring) (v : jsstring) :
  obj_assign o proto_key v = o.
Proof. reflexivity. Qed.

End ObjectFacts.

(** ** Request construction *)

Module RequestFacts.
Import StringFacts ObjectFacts.

Lemma first_colon_app (before after : jsstring) :
  ~ In colon before -> first_colon (before ++ colon :: after) = Some (before, after).
Proof.
  induction before as [|c before IH]; intros Hn; simpl.
  - reflexivity.
  - destruct (code_eqb c colon) eqn:E.
    + apply code_eqb_eq in E. exfalso. apply Hn. now left.
    + rewrite IH; [reflexivity|]. intros Hin. apply Hn. now right.
Qed.

Lemma first_colon_inv (h before after : jsstring) :
  first_colon h = Some (before, after) ->
  h = before ++ colon :: after /\ ~ In colon before.
Proof.
  revert before. induction h as [|c h IH]; intros before; simpl; [discriminate|].
  destruct (code_eqb c colon) eqn:E.
  - apply code_eqb_eq in E. subst c. intros H. injection H as <- <-.
    split; [reflexivity | intros []].
  - destruct (first_colon h) as [[b a]|]; [|discriminate].
    intros H. injection H as <- <-.
    destruct (IH b eq_refl) as [-> Hn]. split; [reflexivity|].
    intros [Hc|Hin]; [|contradiction].
    subst c. now rewrite N.eqb_refl in E.
Qed.

Lemma first_colon_spec (h before after : jsstring) :
  first_colon h = Some (before, after) <->
  h = before ++ colon :: after /\ ~ In colon before.
Proof.
  split; [apply first_colon_inv|]. intros [-> Hn]. now apply first_colon_app.
Qed.

Lemma first_colon_none (h : jsstring) : first_colon h = None <-> ~ In colon h.
Proof.
  induction h as [|c h IH]; simpl.
  - split; [intros _ [] | reflexivity].
  - destruct (code_eqb c colon) eqn:E.
    + apply code_eqb_eq in E. split; [discriminate | intros H; exfalso; apply H; now left].
    + assert (Hc : c <> colon) by (intros ->; now rewrite N.eqb_refl in E).
      destruct (first_colon h) as [[b a]|].
      * split; [discriminate|]. intros H. exfalso.
        destruct IH as [_ IH]. enough (@None (jsstring * jsstring) = Some (b, a)) by discriminate.
        symmetry. apply IH. intros Hin. apply H. now right.
      * split; [|reflexivity]. intros _ [H|H]; [congruence|].
        now apply (proj1 IH).
Qed.

Lemma split_first_colon (h : jsstring) :
  split colon h = match first_colon h with
                  | Some (before, after) => before :: split colon after
                  | None => [h]
                  end.
Proof.
  induction h as [|c h IH]; simpl; [reflexivity|].
  destruct (code_eqb c colon); [reflexivity|].
  rewrite IH. destruct (first_colon h) as [[b a]|]; reflexivity.
Qed.

(** The callback, read as the claims word it: name and value around the
    first colon. *)
Lemma header_callback_first_colon (headers : object jsstring) (h : jsstring) :
  header_callback headers h =
  match first_colon h with
  | Some (before, after) =>
      if nonempty before then obj_assign headers (trim before) (trim after) else headers
  | None => headers
  end.
Proof.
  unfold header_callback. rewrite split_first_colon.
  destruct (first_colon h) as [[b a]|].
  - rewrite join_split.
    pose proof (split_not_nil colon a) as Hne.
    destruct (split colon a); [contradiction|].
    simpl. now rewrite andb_true_r.
  - simpl. now rewrite andb_false_r.
Qed.

Lemma last_value_app (name : jsstring) (l1 l2 : list jsstring) (found : option jsstring) :
  last_value name (l1 ++ l2) found = last_value name l2 (last_value name l1 found).
Proof.
  revert found. induction l1 as [|h l1 IH]; intros found; simpl; [reflexivity|].
  destruct (first_colon h) as [[b a]|]; [|apply IH].
  destruct (nonempty b && JsString.eqb (trim b) name); apply IH.
Qed.

Lemma obj_get_fold_headers (hs : list jsstring) (headers : object jsstring) (name : jsstring) :
  name <> proto_key ->
  obj_get (fold_left header_callback hs headers) name
  = last_value name hs (obj_get headers name).
Proof.
  intros Hp. revert headers. induction hs as [|h hs IH]; intros headers; simpl;
    [reflexivity|].
  rewrite IH, header_callback_first_colon.
  destruct (first_colon h) as [[b a]|]; [|reflexivity].
  destruct (nonempty b); simpl; [|reflexivity].
  destruct (JsString.eqb (trim b) name) eqn:E.
  - apply eqb_eq in E. rewrite obj_get_assign by congruence.
    now rewrite E, eqb_refl.
  - destruct (JsString.eqb (trim b) proto_key) eqn:P.
    + apply eqb_eq in P. rewrite P, obj_assign_proto. reflexivity.
    + apply eqb_neq in P. rewrite obj_get_assign by assumption. now rewrite E.
Qed.

Lemma obj_get_parse_headers (hs : list jsstring) (name : jsstring) :
  name <> proto_key -> obj_get (parse_headers hs) name = last_value name hs None.
Proof. intros H. unfold parse_headers. now rewrite obj_get_fold_headers. Qed.

Lemma last_value_unnamed (name : jsstring) (hs : list jsstring) (found : option jsstring) :
  unnamed_in name hs -> last_value name hs found = found.
Proof.
  induction hs as [|h hs IH]; intros Hun; simpl; [reflexivity|].
  assert (Hun' : unnamed_in name hs).
  { intros h' b a Hin. apply (Hun h' b a). now right. }
  destruct (first_colon h) as [[b a]|] eqn:F; [|now apply IH].
  apply first_colon_spec in F as [Hh Hn].
  destruct (Hun h b a (or_introl eq_refl) Hh Hn) as [-> | Hne]; simpl; [now apply IH|].
  apply eqb_neq in Hne. rewrite Hne, andb_false_r. now apply IH.
Qed.

Lemma nonempty_trim (s : jsstring) : trim s <> [] -> nonempty s = true.
Proof. destruct s; [intros H; now elim H | reflexivity]. Qed.

(** The value a flag gives its header survives to the end when no later
    flag names the same header. *)
Lemma obj_get_parse_headers_last (hs1 hs2 : list jsstring) (before after : jsstring) :
  ~ In colon before -> before <> [] -> trim before <> proto_key ->
  unnamed_in (trim before) hs2 ->
  obj_get (parse_headers (hs1 ++ (before ++ colon :: after) :: hs2)) (trim before)
  = Some (trim after).
Proof.
  intros Hn Hne Hp Hun.
  rewrite obj_get_parse_headers by assumption.
  rewrite last_value_app. simpl.
  rewrite (proj2 (first_colon_spec _ before after) (conj eq_refl Hn)).
  destruct before as [|c before]; [contradiction|].
  cbn [nonempty andb]. rewrite eqb_refl. now apply last_value_unnamed.
Qed.

Lemma parse_headers_dropped (hs1 hs2 : list jsstring) (h : jsstring) :
  (forall headers, header_callback headers h = headers) ->
  parse_headers (hs1 ++ h :: hs2) = parse_headers (hs1 ++ hs2).
Proof.
  intros H. unfold parse_headers. rewrite !fold_left_app. simpl. now rewrite H.
Qed.

End RequestFacts.

Module RequestClaims.
Import StringFacts ObjectFacts RequestFacts.

Lemma unnamed_in_check (name : jsstring) (hs : list jsstring) :
  forallb (fun h => match first_colon h with
                    | Some (before, _) => negb (nonempty before && JsString.eqb (trim before) name)
                    | None => true
                    end) hs = true ->
  unnamed_in name hs.
Proof.
  intros H h before after Hin Hh Hn.
  rewrite forallb_forall in H. specialize (H h Hin).
  rewrite (proj2 (first_colon_spec h before after) (conj Hh Hn)) in H.
  destruct before as [|c before]; [now left | right].
  cbn [nonempty andb] in H. apply eqb_neq.
  now destruct (JsString.eqb (trim (c :: before)) name).
Qed.

Lemma not_in_check (c : code) (s : jsstring) :
  forallb (fun x => negb (code_eqb x c)) s = true -> ~ In c s.
Proof.
  intros H Hin. rewrite forallb_forall in H. specialize (H c Hin).
  unfold code_eqb in H. now rewrite N.eqb_refl in H.
Qed.

Lemma trimStart_white (s : jsstring) :
  forallb is_white_space s = true -> trimStart s = [].
Proof.
  induction s as [|c s IH]; simpl; [reflexivity|].
  intros H. apply andb_true_iff in H as [Hc Hs]. now rewrite Hc, IH.
Qed.

Lemma trim_white (s : jsstring) : forallb is_white_space s = true -> trim s = [].
Proof. intros H. unfold trim. now rewrite trimStart_white. Qed.

(** The part of C3 that holds.  A header flag is read around its first
    colon.  A flag with no colon, or with nothing before its first colon,
    leaves the headers as they would be without it.  A flag whose text before the
    first colon is not blank gives the header of that name, trimmed, the
    trimmed text after the colon, whatever earlier flags said, provided no
    later flag names the same header (the name [__proto__], which an
    object does not store, apart). *)
Theorem header_flags_split_drop_overwrite :
  (forall hs1 h hs2,
      ~ In colon h -> parse_headers (hs1 ++ h :: hs2) = parse_headers (hs1 ++ hs2))
  /\ (forall hs1 after hs2,
         parse_headers (hs1 ++ (colon :: after) :: hs2) = parse_headers (hs1 ++ hs2))
  /\ (forall hs1 before after hs2,
         ~ In colon before -> trim before <> [] -> trim before <> proto_key ->
         unnamed_in (trim before) hs2 ->
         obj_get (parse_headers (hs1 ++ (before ++ colon :: after) :: hs2)) (trim before)
         = Some (trim after)).
Proof.
  repeat split.
  - intros hs1 h hs2 Hn. apply parse_headers_dropped. intros headers.
    rewrite header_callback_first_colon.
    now rewrite (proj2 (first_colon_none h) Hn).
  - intros hs1 after hs2. apply parse_headers_dropped. intros headers.
    now rewrite header_callback_first_colon.
  - intros hs1 before after hs2 Hn Hne Hp Hun.
    apply obj_get_parse_headers_last; try assumption.
    intros ->. now apply Hne.
Qed.

Lemma header_flags_witness :
  obj_get (parse_headers [js "Accept: text/plain"; js "X-Token:  abc:def ";
                          js "no colon here"; js "Accept: */*"])
          (js "X-Token")
  = Some (js "abc:def").
Proof.
  refine (proj2 (proj2 header_flags_split_drop_overwrite)
            [js "Accept: text/plain"] (js "X-Token") (js "  abc:def ")
            [js "no colon here"; js "Accept: */*"] _ _ _ _).
  - apply not_in_check. reflexivity.
  - vm_compute. discriminate.
  - vm_compute. discriminate.
  - apply unnamed_in_check. reflexivity.
Defined.

(** C3 (code bug).  The guard that drops a flag with an empty name tests
    the name before it is trimmed (line 41) and the header is stored under
    the trimmed name (line 42): the flag [" : v"], whose name is blank, has
    an empty name once trimmed and is kept all the same, under the empty
    name. *)
Lemma blank_header_name_is_kept :
  trim (js " ") = []
  /\ obj_get (parse_headers [js " : v"]) [] = Some (js "v")
  /\ parse_headers [js " : v"] <> parse_headers [].
Proof. repeat split. vm_compute. discriminate. Qed.

Lemma obj_get_inject (data : option jsstring) (headers : object jsstring) (k : jsstring) :
  k <> js "Content-Type" ->
  obj_get (inject_content_type data headers) k = obj_get headers k.
Proof.
  intros Hk. unfold inject_content_type.
  destruct (truthy data && _ && _); [|reflexivity].
  rewrite obj_get_assign by (vm_compute; discriminate).
  rewrite eqb_sym. apply eqb_neq in Hk. now rewrite Hk.
Qed.

(** C10 (amended).  A flag [Name:] whose text after the first colon is
    empty or blank is not dropped: when no later flag names the same
    header, the request's headers map the trimmed name to the empty
    string, unless the name is [Content-Type] and a body is present (the
    name [__proto__] apart). *)
Theorem empty_valued_header_kept (url : jsstring) (o : options)
        (hs1 hs2 : list jsstring) (name after : jsstring) :
  opt_header o = hs1 ++ (name ++ colon :: after) :: hs2 ->
  name <> [] -> ~ In colon name ->
  forallb is_white_space after = true ->
  trim name <> proto_key ->
  unnamed_in (trim name) hs2 ->
  (truthy (unify_data o) = true -> trim name <> js "Content-Type") ->
  obj_get (cfg_headers (build_config url o)) (trim name) = Some [].
Proof.
  intros Hh Hne Hn Hw Hp Hun Hct. cbn [build_config cfg_headers].
  assert (Hget : obj_get (parse_headers (opt_header o)) (trim name) = Some []).
  { rewrite Hh, <- (trim_white after Hw).
    now apply obj_get_parse_headers_last. }
  destruct (truthy (unify_data o)) eqn:Hd.
  - rewrite obj_get_inject by now apply Hct.
    exact Hget.
  - unfold inject_content_type. now rewrite Hd.
Qed.

Lemma empty_valued_header_witness :
  obj_get (cfg_headers (build_config (js "http://localhost/")
                          (with_header_and_data [js "X-Empty:  "; js "Accept: */*"]
                                                (Some (js "{}")))))
          (js "X-Empty")
  = Some [].
Proof.
  refine (@empty_valued_header_kept (js "http://localhost/")
            (with_header_and_data [js "X-Empty:  "; js "Accept: */*"] (Some (js "{}")))
            [] [js "Accept: */*"] (js "X-Empty") (js "  ") _ _ _ _ _ _ _).
  - reflexivity.
  - discriminate.
  - apply not_in_check. reflexivity.
  - reflexivity.
  - vm_compute. discriminate.
  - apply unnamed_in_check. reflexivity.
  - intros _. vm_compute. discriminate.
Defined.

(** C10 as stated fails: with a body, [Content-Type:] is not kept with an
    empty value; the injection replaces it. *)
Lemma empty_content_type_is_replaced :
  obj_get (cfg_headers (build_config (js "http://localhost/")
                          (with_header_and_data [js "Content-Type:"] (Some (js "{}")))))
          (js "Content-Type")
  = Some (js "application/json")
  /\ js "application/json" <> [].
Proof. split; [reflexivity | discriminate]. Qed.

(** C4, at a failing input: a [Content-Type] header given in another
    casing does not stop the injection; the request carries both. *)
Theorem content_type_injected_beside_other_casing :
  cfg_headers (build_config (js "http://localhost/")
                 (with_header_and_data [js "CONTENT-TYPE: text/plain"] (Some (js "x"))))
  = [(js "CONTENT-TYPE", js "text/plain"); (js "Content-Type", js "application/json")].
Proof. reflexivity. Qed.

Lemma unnamed_in_other_case (name : jsstring) (hs : list jsstring) :
  (forall h before after,
      In h hs -> h = before ++ colon :: after -> ~ In colon before ->
      lower (trim before) <> lower name) ->
  unnamed_in name hs.
Proof.
  intros H h before after Hin Hh Hn. right. intros E.
  apply (H h before after Hin Hh Hn). now rewrite E.
Qed.

(** The half of C4 that holds: with a body and no [Content-Type] flag in
    any casing, the request has [Content-Type: application/json]. *)
Theorem content_type_injected_when_absent (url : jsstring) (o : options) :
  truthy (unify_data o) = true ->
  (forall h before after,
      In h (opt_header o) -> h = before ++ colon :: after -> ~ In colon before ->
      lower (trim before) <> js "content-type") ->
  obj_get (cfg_headers (build_config url o)) (js "Content-Type")
  = Some (js "application/json").
Proof.
  intros Hd Hno. cbn [build_config cfg_headers]. unfold inject_content_type.
  rewrite Hd.
  assert (Hget : forall name, lower name = js "content-type" ->
                              obj_get (parse_headers (opt_header o)) name = None).
  { intros name Hl. rewrite obj_get_parse_headers.
    - apply last_value_unnamed, unnamed_in_other_case.
      intros h before after Hin Hh Hn. rewrite Hl. now apply (Hno h before after).
    - intros ->. vm_compute in Hl. discriminate. }
  rewrite !Hget by reflexivity. cbn [truthy negb andb].
  rewrite obj_get_assign by (vm_compute; discriminate).
  now rewrite eqb_refl.
Qed.

Lemma content_type_injected_witness :
  obj_get (cfg_headers (build_config (js "http://localhost/")
                          (with_header_and_data [js "Accept: */*"] (Some (js "{}")))))
          (js "Content-Type")
  = Some (js "application/json").
Proof.
  apply content_type_injected_when_absent.
  - reflexivity.
  - intros h before after [<-|[]] Hh Hn.
    assert (F : first_colon (js "Accept: */*") = Some (before, after))
      by (apply first_colon_spec; now split).
    vm_compute in F. injection F as <- <-. vm_compute. discriminate.
Defined.

(** C5, at a failing input: the password stops at the second colon. *)
Theorem basic_auth_cuts_password_at_second_colon :
  basic_auth (Some (js "user:pa:ss"))
  = Some {| username := Some (js "user"); password := Some (js "pa") |}.
Proof. reflexivity. Qed.

(** What [basic_auth] does with the credentials: the user name is the text
    before the first colon; the password is the text between the first
    colon and the second, or up to the end when there is no second; with
    no colon at all there is no password ([undefined]). *)
Theorem basic_auth_split (user : jsstring) :
  user <> [] ->
  basic_auth (Some user)
  = match first_colon user with
    | Some (name, rest) =>
        Some {| username := Some name;
                password := Some (match first_colon rest with
                                  | Some (pass, _) => pass
                                  | None => rest
                                  end) |}
    | None => Some {| username := Some user; password := None |}
    end.
Proof.
  intros Hne. unfold basic_auth.
  destruct user as [|c user]; [contradiction|]. cbn [nonempty].
  rewrite split_first_colon.
  destruct (first_colon (c :: user)) as [[name rest]|]; [|reflexivity].
  cbn [nth_error]. rewrite split_first_colon.
  destruct (first_colon rest) as [[pass more]|]; reflexivity.
Qed.

Lemma basic_auth_split_witness :
  basic_auth (Some (js "alice:secret"))
  = Some {| username := Some (js "alice"); password := Some (js "secret") |}.
Proof.
  exact (@basic_auth_split (js "alice:secret")
           ltac:(discriminate)).
Defined.






End RequestClaims.

(** ** The handler *)

Module HandlerFacts.
Import StringFacts.

Lemma on_stream_app (s : stream) (a b : list event) :
  on_stream s (a ++ b) = on_stream s a ++ on_stream s b.
Proof. apply filter_app. Qed.

Lemma on_stream_stdout (out : list event) :
  Forall (fun ev => fst ev = Stdout) out ->
  on_stream Stdout out = out /\ on_stream Stderr out = [].
Proof.
  induction 1 as [|[s args] out Hs _ [IH1 IH2]]; [split; reflexivity|].
  simpl in Hs. subst s. unfold on_stream in *. simpl. now rewrite IH1, IH2.
Qed.

Lemma print_headers_stdout (o : options) (r : response) :
  on_stream Stdout (print_headers o r) = print_headers o r
  /\ on_stream Stderr (print_headers o r) = [].
Proof.
  apply on_stream_stdout. unfold print_headers.
  destruct (opt_include o); [|constructor].
  constructor; [reflexivity|]. apply Forall_app. split.
  - apply Forall_forall. intros ev Hin. apply in_map_iff in Hin as [kv [<- _]].
    reflexivity.
  - now repeat constructor.
Qed.

Lemma print_body_stdout (r : response) :
  on_stream Stdout (print_body r) = print_body r
  /\ on_stream Stderr (print_body r) = [].
Proof.
  unfold print_body.
  destruct (primitive_text (resp_data r)); [|split; reflexivity].
  destruct (isJsonHeader r); [|split; reflexivity].
  destruct (parse j); split; reflexivity.
Qed.

Lemma build_config_silenced (url : jsstring) (o : options) :
  build_config url (silenced o) = build_config url o.
Proof. reflexivity. Qed.

(** The header tested by the handler is a [content-type] that contains
    [application/json]. *)
Lemma isJsonHeader_spec (r : response) :
  isJsonHeader r = true <->
  exists contentType,
    obj_get (resp_headers r) (js "content-type") = Some contentType
    /\ includes (js "application/json") contentType = true.
Proof.
  unfold isJsonHeader. destruct (obj_get (resp_headers r) (js "content-type")) as [ct|].
  - split.
    + intros H. apply andb_true_iff in H as [_ H]. now exists ct.
    + intros [ct' [E H]]. injection E as <-. rewrite H.
      destruct ct; [discriminate H | reflexivity].
  - split; [discriminate | intros [ct [E _]]; discriminate].
Qed.

End HandlerFacts.

Module HandlerClaims.
Import StringFacts HandlerFacts.

(** C1.  When the client resolves with a response, whatever its status,
    the process ends with code 0; when the client call throws, with
    code 1. *)
Theorem exit_code_follows_client (axios : config -> client_result)
        (url : jsstring) (o : options) :
  (forall r, axios (build_config url o) = Resolves r ->
             exit_code (action axios url o) = 0%Z)
  /\ (forall e, axios (build_config url o) = Rejects e ->
                exit_code (action axios url o) = 1%Z).
Proof.
  unfold action. split; [intros r H | intros e H]; now rewrite H.
Qed.

Lemma exit_code_witness :
  exit_code (action (fun _ => Resolves not_found) (js "https://example.com/missing")
               default_options) = 0%Z
  /\ exit_code (action (fun _ => Rejects refused) (js "https://example.com/missing")
                  default_options) = 1%Z.
Proof.
  split.
  - apply (proj1 (exit_code_follows_client (fun _ => Resolves not_found) _ _) not_found).
    reflexivity.
  - apply (proj2 (exit_code_follows_client (fun _ => Rejects refused) _ _) refused).
    reflexivity.
Defined.

(** C7.  A response with status 400 or more, silent mode off: the error
    stream carries one line, the warning, which contains the status code
    and the reason; the exit code is 0; the output stream carries what it
    carries in silent mode, the headers if asked for and the body. *)
Theorem warning_on_error_status (axios : config -> client_result)
        (url : jsstring) (o : options) (r : response) :
  axios (build_config url o) = Resolves r ->
  (400 <= resp_status r)%Z ->
  opt_silent o = false ->
  on_stream Stderr (printed (action axios url o))
  = [(Stderr, [Chalk Yellow (warning_line r)])]
  /\ includes (of_Z (resp_status r)) (warning_line r) = true
  /\ includes (resp_statusText r) (warning_line r) = true
  /\ exit_code (action axios url o) = 0%Z
  /\ on_stream Stdout (printed (action axios url o)) = print_headers o r ++ print_body r
  /\ on_stream Stdout (printed (action axios url o)) = printed (action axios url (silenced o)).
Proof.
  intros Hr Hs Hq.
  assert (Hw : print_warning o r = [(Stderr, [Chalk Yellow (warning_line r)])]).
  { unfold print_warning. rewrite Hq.
    now rewrite (proj2 (Z.leb_le 400 (resp_status r)) Hs). }
  assert (Hout : on_stream Stdout (printed (action axios url o))
                 = print_headers o r ++ print_body r).
  { unfold action. rewrite Hr. cbn [printed]. rewrite !on_stream_app.
    rewrite (proj1 (print_headers_stdout o r)), (proj1 (print_body_stdout r)), Hw.
    reflexivity. }
  repeat split.
  - unfold action. rewrite Hr. cbn [printed]. rewrite !on_stream_app.
    rewrite (proj2 (print_headers_stdout o r)), (proj2 (print_body_stdout r)), Hw.
    reflexivity.
  - unfold warning_line. apply includes_app.
  - unfold warning_line.
    rewrite (app_assoc (js "Warning: Request failed with status ")).
    rewrite (app_assoc _ (js " ")).
    rewrite <- (app_nil_r (resp_statusText r)) at 2.
    apply includes_app.
  - unfold action. now rewrite Hr.
  - exact Hout.
  - rewrite Hout. unfold action. rewrite build_config_silenced, Hr. cbn [printed].
    unfold print_warning, silenced. cbn [opt_silent negb]. rewrite andb_false_r.
    reflexivity.
Qed.

Lemma warning_witness :
  on_stream Stderr
    (printed (action (fun _ => Resolves not_found) (js "https://example.com/missing")
                default_options))
  = [(Stderr, [Chalk Yellow (js "Warning: Request failed with status 404 Not Found")])].
Proof.
  refine (proj1 (@warning_on_error_status (fun _ => Resolves not_found)
                   (js "https://example.com/missing") default_options
                   not_found _ _ _)).
  - reflexivity.
  - vm_compute. discriminate.
  - reflexivity.
Defined.

(** C8.  When the client call throws and the silent flag is set, nothing
    is printed on either stream and the process ends with code 1. *)
Theorem silent_failure_prints_nothing (axios : config -> client_result)
        (url : jsstring) (o : options) (e : error) :
  axios (build_config url o) = Rejects e ->
  opt_silent o = true ->
  printed (action axios url o) = [] /\ exit_code (action axios url o) = 1%Z.
Proof.
  intros He Hs. unfold action. rewrite He. cbn [printed exit_code].
  unfold on_error. now rewrite Hs.
Qed.

Lemma silent_failure_witness :
  printed (action (fun _ => Rejects refused) (js "https://example.com/")
             (silenced default_options)) = []
  /\ exit_code (action (fun _ => Rejects refused) (js "https://example.com/")
                  (silenced default_options)) = 1%Z.
Proof.
  apply (@silent_failure_prints_nothing (fun _ => Rejects refused) _ _ refused);
    reflexivity.
Defined.

(** The part of C6 that holds.  A body that is not valid JSON text,
    whatever the content type: the client hands the text itself over, the
    handler's own parse under a JSON content type fails without a trace,
    the text is written as it was received, and the exit code is 0. *)
Theorem other_body_printed_as_received (axios : config -> client_result)
        (url : jsstring) (o : options) (r : response) (body : jsstring) :
  axios (build_config url o) = Resolves r ->
  resp_data r = client_data body ->
  parse body = None ->
  print_body r = [(Stdout, [Value (JString body)])]
  /\ written (Value (JString body)) = Some body
  /\ printed (action axios url o)
     = print_headers o r ++ print_warning o r ++ [(Stdout, [Value (JString body)])]
  /\ exit_code (action axios url o) = 0%Z.
Proof.
  intros Hr Hd Hp.
  assert (Hb : print_body r = [(Stdout, [Value (JString body)])]).
  { unfold print_body. rewrite Hd. unfold client_data. rewrite Hp.
    cbn [primitive_text]. rewrite Hp. now destruct (isJsonHeader r). }
  unfold action. rewrite Hr. cbn [printed exit_code]. now rewrite Hb.
Qed.

Lemma other_body_witness :
  print_body not_found = [(Stdout, [Value (JString (js "<html>gone</html>"))])]
  /\ written (Value (JString (js "<html>gone</html>"))) = Some (js "<html>gone</html>")
  /\ printed (action (fun _ => Resolves not_found) (js "https://example.com/missing")
                default_options)
     = print_headers default_options not_found ++ print_warning default_options not_found
       ++ [(Stdout, [Value (JString (js "<html>gone</html>"))])]
  /\ exit_code (action (fun _ => Resolves not_found) (js "https://example.com/missing")
                  default_options) = 0%Z.
Proof.
  apply (other_body_printed_as_received (fun _ => Resolves not_found)
           (js "https://example.com/missing") default_options
           not_found (js "<html>gone</html>")).
  - reflexivity.
  - reflexivity.
  - reflexivity.
Defined.

(** C6 (code bug).  The last branch (lines 121-123; "Not JSON, just print
    raw" in the README's copy of the handler) prints [response.data], which
    the client has decoded whenever the body is valid JSON text, whatever
    the content type: under [text/plain] the body [1.0] is handed over as
    the number 1 and printed as such, like the body [1]. *)
Lemma decoded_number_is_not_printed_as_received :
  isJsonHeader (served (js "text/plain") (js "1.0")) = false
  /\ primitive_text (resp_data (served (js "text/plain") (js "1.0")))
     = Some (js "1")
  /\ print_body (served (js "text/plain") (js "1.0"))
     = [(Stdout, [Value (JNumber (S754_finite false 4503599627370496 (-52)))])]
  /\ print_body (served (js "text/plain") (js "1.0"))
     = print_body (served (js "text/plain") (js "1"))
  /\ js "1.0" <> js "1".
Proof.
  split; [reflexivity|]. split; [vm_compute; reflexivity|].
  split; [vm_compute; reflexivity|]. split; [vm_compute; reflexivity|]. discriminate.
Qed.

End HandlerClaims.

(** ** JSON: what is written is read back *)

Module JsonStrings.
Local Open Scope N_scope.

Lemma hex_value_digit (d : N) : d < 16 -> hex_value (hex_digit d) = Some d.
Proof.
  intros H.
  assert (E : d = 0 \/ d = 1 \/ d = 2 \/ d = 3 \/ d = 4 \/ d = 5 \/ d = 6 \/ d = 7
              \/ d = 8 \/ d = 9 \/ d = 10 \/ d = 11 \/ d = 12 \/ d = 13 \/ d = 14
              \/ d = 15) by lia.
  repeat (destruct E as [-> | E]; [reflexivity|]). now subst.
Qed.

Lemma hex4_escape (c : code) :
  c < 65536 ->
  hex4 (hex_digit (c / 4096 mod 16)) (hex_digit (c / 256 mod 16))
       (hex_digit (c / 16 mod 16)) (hex_digit (c mod 16)) = Some c.
Proof.
  intros H. unfold hex4.
  rewrite !hex_value_digit by (apply N.mod_lt; discriminate).
  f_equal.
  replace (c / 4096) with (c / 16 / 16 / 16) by (rewrite !N.Div0.div_div; reflexivity).
  replace (c / 256) with (c / 16 / 16) by (rewrite !N.Div0.div_div; reflexivity).
  pose proof (N.div_mod c 16). pose proof (N.div_mod (c / 16) 16).
  pose proof (N.div_mod (c / 16 / 16) 16).
  pose proof (N.mod_lt c 16). pose proof (N.mod_lt (c / 16) 16).
  pose proof (N.mod_lt (c / 16 / 16) 16).
  assert ((c / 16 / 16 / 16) mod 16 = c / 16 / 16 / 16).
  { apply N.mod_small. do 3 apply N.Div0.div_lt_upper_bound. lia. }
  lia.
Qed.

Lemma lex_string_unicode_escape (c : code) (s : jsstring) :
  c < 65536 -> lex_string (unicode_escape c ++ s) = prepend c (lex_string s).
Proof.
  intros H.
  change (lex_string (unicode_escape c ++ s))
    with (match hex4 (hex_digit (c / 4096 mod 16)) (hex_digit (c / 256 mod 16))
                     (hex_digit (c / 16 mod 16)) (hex_digit (c mod 16)),
                lex_string s with
          | Some u, Some (str, rest) => Some (u :: str, rest)
          | _, _ => None
          end).
  rewrite (hex4_escape c H). reflexivity.
Qed.

Lemma lex_string_literal (c : code) (s : jsstring) :
  32 <= c -> c <> quotation -> c <> backslash ->
  lex_string (c :: s) = prepend c (lex_string s).
Proof.
  intros H32 Hq Hb. cbn [lex_string].
  rewrite (proj2 (N.eqb_neq c quotation) Hq), (proj2 (N.eqb_neq c backslash) Hb).
  now rewrite (proj2 (N.ltb_ge c 32) H32).
Qed.

Lemma lex_string_escape_unit (c : code) (s : jsstring) :
  lex_string (escape_unit c ++ s) = prepend c (lex_string s).
Proof.
  unfold escape_unit.
  destruct (c =? 8) eqn:E1; [apply N.eqb_eq in E1; now subst|].
  destruct (c =? 9) eqn:E2; [apply N.eqb_eq in E2; now subst|].
  destruct (c =? 10) eqn:E3; [apply N.eqb_eq in E3; now subst|].
  destruct (c =? 12) eqn:E4; [apply N.eqb_eq in E4; now subst|].
  destruct (c =? 13) eqn:E5; [apply N.eqb_eq in E5; now subst|].
  destruct (c =? quotation) eqn:E6; [apply N.eqb_eq in E6; now subst|].
  destruct (c =? backslash) eqn:E7; [apply N.eqb_eq in E7; now subst|].
  destruct (c <? 32) eqn:E8.
  - apply lex_string_unicode_escape. apply N.ltb_lt in E8. lia.
  - apply lex_string_literal.
    + now apply N.ltb_ge.
    + now apply N.eqb_neq.
    + now apply N.eqb_neq.
Qed.

Lemma surrogate_literal (c : code) (s : jsstring) :
  is_high_surrogate c || is_low_surrogate c = true ->
  lex_string (c :: s) = prepend c (lex_string s) /\ c < 65536.
Proof.
  unfold is_high_surrogate, is_low_surrogate. intros H.
  assert (Hc : 55296 <= c <= 57343).
  { apply orb_true_iff in H as [H|H]; apply andb_true_iff in H as [H1 H2];
      apply N.leb_le in H1, H2; lia. }
  split; [|lia]. apply lex_string_literal; unfold quotation, backslash; lia.
Qed.

(** The characters QuoteJSONString writes between the quotes are read back
    as the string. *)
Lemma lex_string_quote_units (s rest : jsstring) :
  lex_string (quote_units s ++ quotation :: rest) = Some (s, rest).
Proof.
  assert (H : forall n s, (List.length s <= n)%nat ->
                          lex_string (quote_units s ++ quotation :: rest) = Some (s, rest)).
  { clear s. induction n as [|n IH]; intros [|c s] Hn; simpl in Hn;
      try reflexivity; try lia.
    cbn [quote_units].
    destruct (is_high_surrogate c) eqn:Hh.
    - destruct (surrogate_literal c (quote_units s ++ quotation :: rest)) as [Hlit Hc];
        [now rewrite Hh|].
      destruct s as [|d s]; cbv iota.
      + rewrite lex_string_unicode_escape by assumption. reflexivity.
      + destruct (is_low_surrogate d) eqn:Hl.
        * cbn [app].
          destruct (surrogate_literal c (d :: quote_units s ++ quotation :: rest))
            as [Hlit' _]; [now rewrite Hh|].
          destruct (surrogate_literal d (quote_units s ++ quotation :: rest))
            as [Hlit'' _]; [now rewrite Hl, orb_true_r|].
          rewrite Hlit', Hlit'', IH by (simpl in Hn; lia). reflexivity.
        * rewrite <- app_assoc, lex_string_unicode_escape by assumption.
          rewrite IH by lia. reflexivity.
    - destruct (is_low_surrogate c) eqn:Hl.
      + destruct (surrogate_literal c (quote_units s ++ quotation :: rest)) as [_ Hc];
          [now rewrite Hl, orb_true_r|].
        rewrite <- app_assoc, lex_string_unicode_escape by assumption.
        rewrite IH by lia. reflexivity.
      + rewrite <- app_assoc, lex_string_escape_unit.
        rewrite IH by lia. reflexivity. }
  now apply (H (List.length s)).
Qed.

End JsonStrings.

Module JsonNumbers.
Local Open Scope N_scope.

Lemma ends_number_cons (c : code) (rest : jsstring) :
  ends_number (c :: rest) = true ->
  is_digit c = false /\ (c =? 46) = false /\ (c =? 101) = false /\ (c =? 69) = false.
Proof.
  unfold ends_number. intros H. apply negb_true_iff in H.
  repeat (apply orb_false_iff in H as [H ?]). now repeat split.
Qed.

Lemma span_digits_app (s ds r rest : jsstring) :
  span_digits s = (ds, r) ->
  (r = [] -> forall c t, rest = c :: t -> is_digit c = false) ->
  span_digits (s ++ rest) = (ds, r ++ rest).
Proof.
  revert ds r. induction s as [|c s IH]; intros ds r; simpl.
  - intros E Hr. injection E as <- <-. destruct rest as [|c t]; [reflexivity|].
    simpl. now rewrite (Hr eq_refl c t eq_refl).
  - destruct (is_digit c).
    + destruct (span_digits s) as [ds' r'] eqn:Es. intros E Hr. injection E as <- <-.
      now rewrite (IH ds' r' eq_refl Hr).
    + intros E _. now injection E as <- <-.
Qed.

Lemma span_digits_ends (s ds r rest : jsstring) :
  span_digits s = (ds, r) -> ends_number rest = true ->
  span_digits (s ++ rest) = (ds, r ++ rest).
Proof.
  intros E H. apply span_digits_app; [assumption|].
  intros _ c t ->. now apply ends_number_cons in H.
Qed.

Lemma lex_fraction_app (s f r rest : jsstring) :
  lex_fraction s = Some (f, r) -> ends_number rest = true ->
  lex_fraction (s ++ rest) = Some (f, r ++ rest).
Proof.
  intros E H. destruct s as [|c s]; simpl in *.
  - injection E as <- <-. destruct rest as [|c t]; [reflexivity|].
    apply ends_number_cons in H as (_ & H & _). simpl. now rewrite H.
  - destruct (c =? 46); [|now injection E as <- <-].
    destruct (span_digits s) as [ds r'] eqn:Es.
    rewrite (@span_digits_ends _ _ _ _ Es H).
    destruct ds; [discriminate|]. now injection E as <- <-.
Qed.

Lemma lex_exponent_app (s r rest : jsstring) (e : Z) :
  lex_exponent s = Some (e, r) -> ends_number rest = true ->
  lex_exponent (s ++ rest) = Some (e, r ++ rest).
Proof.
  intros E H. destruct s as [|c s]; simpl in *.
  - injection E as <- <-. destruct rest as [|c t]; [reflexivity|].
    apply ends_number_cons in H as (_ & _ & H1 & H2). simpl. now rewrite H1, H2.
  - destruct ((c =? 101) || (c =? 69)); [|now injection E as <- <-].
    destruct s as [|d s].
    + discriminate.
    + cbn [app].
      destruct (d =? 45).
      * destruct (span_digits s) as [ds r'] eqn:Es.
        rewrite (@span_digits_ends _ _ _ _ Es H).
        destruct ds; [discriminate|]. now injection E as <- <-.
      * destruct (d =? 43).
        -- destruct (span_digits s) as [ds r'] eqn:Es.
           rewrite (@span_digits_ends _ _ _ _ Es H).
           destruct ds; [discriminate|]. now injection E as <- <-.
        -- destruct (span_digits (d :: s)) as [ds r'] eqn:Es.
           change (d :: s ++ rest) with ((d :: s) ++ rest).
           rewrite (@span_digits_ends _ _ _ _ Es H).
           destruct ds; [discriminate|]. now injection E as <- <-.
Qed.

(** A number that is read from a string is read from it in front of
    anything that does not continue it. *)
Lemma lex_number_app (s r rest : jsstring) (x : number) :
  lex_number s = Some (x, r) -> ends_number rest = true ->
  lex_number (s ++ rest) = Some (x, r ++ rest).
Proof.
  unfold lex_number. intros E H.
  assert (Hs : lex_sign (s ++ rest) = (fst (lex_sign s), snd (lex_sign s) ++ rest)).
  { destruct s as [|c s]; [discriminate E|]. simpl. now destruct (c =? 45). }
  rewrite Hs. destruct (lex_sign s) as [neg s1]. cbn [fst snd].
  destruct (span_digits s1) as [int s2] eqn:Ei.
  rewrite (@span_digits_ends _ _ _ _ Ei H).
  destruct int as [|d more]; [discriminate|].
  destruct ((d =? 48) && nonempty more); [discriminate|].
  destruct (lex_fraction s2) as [[frac s3]|] eqn:Ef; [|discriminate].
  rewrite (@lex_fraction_app _ _ _ _ Ef H).
  destruct (lex_exponent s3) as [[e rest']|] eqn:Ee; [|discriminate].
  rewrite (@lex_exponent_app _ _ _ _ Ee H). now injection E as <- <-.
Qed.

Lemma span_digits_head (c : code) (s ds r : jsstring) :
  span_digits (c :: s) = (ds, r) -> ds <> [] -> is_digit c = true.
Proof.
  simpl. destruct (is_digit c); [reflexivity|].
  intros E. injection E as <- _. intros H. now elim H.
Qed.

(** A number starts with a minus sign or a digit. *)
Lemma lex_number_head (s r : jsstring) (x : number) :
  lex_number s = Some (x, r) ->
  exists c s', s = c :: s' /\ (c = 45 \/ is_digit c = true).
Proof.
  unfold lex_number. destruct s as [|c s]; [discriminate|].
  intros E. exists c, s. split; [reflexivity|]. cbn [lex_sign] in E.
  destruct (c =? 45) eqn:Ec; [left; now apply N.eqb_eq|]. right.
  destruct (span_digits (c :: s)) as [int s2] eqn:Ei.
  destruct int; [discriminate|]. now apply (@span_digits_head _ _ _ _ Ei).
Qed.

End JsonNumbers.

Module ObjectOrder.
Import StringFacts ObjectFacts.
Local Open Scope N_scope.

Lemma decimal_value_acc (s : jsstring) (acc : N) :
  decimal_value s acc = acc * 10 ^ N.of_nat (List.length s) + decimal_value s 0.
Proof.
  revert acc. induction s as [|c s IH]; intros acc.
  - simpl. lia.
  - cbn [decimal_value List.length].
    rewrite (IH (10 * acc + (c - 48))), (IH (10 * 0 + (c - 48))).
    rewrite Nnat.Nat2N.inj_succ, N.pow_succ_r'. lia.
Qed.

Lemma decimal_value_lt (s : jsstring) :
  forallb is_digit s = true -> decimal_value s 0 < 10 ^ N.of_nat (List.length s).
Proof.
  induction s as [|c s IH]; intros H.
  - simpl. lia.
  - cbn [forallb] in H. apply andb_true_iff in H as [Hc Hs].
    cbn [decimal_value List.length]. rewrite decimal_value_acc.
    rewrite Nnat.Nat2N.inj_succ, N.pow_succ_r'. specialize (IH Hs).
    unfold is_digit in Hc. apply andb_true_iff in Hc as [H1 H2].
    apply N.leb_le in H1, H2. nia.
Qed.

Lemma decimal_value_ge (c : code) (s : jsstring) :
  is_digit c = true -> c <> 48 ->
  10 ^ N.of_nat (List.length s) <= decimal_value (c :: s) 0.
Proof.
  intros Hc Hz. cbn [decimal_value]. rewrite decimal_value_acc.
  unfold is_digit in Hc. apply andb_true_iff in Hc as [H1 H2].
  apply N.leb_le in H1, H2. nia.
Qed.

Lemma digits_same_length (a b : jsstring) :
  forallb is_digit a = true -> forallb is_digit b = true ->
  List.length a = List.length b ->
  decimal_value a 0 = decimal_value b 0 -> a = b.
Proof.
  revert b. induction a as [|c a IH]; intros [|d b] Ha Hb Hl Hv;
    try discriminate; [reflexivity|].
  cbn [forallb] in Ha, Hb.
  apply andb_true_iff in Ha as [Hc Ha]. apply andb_true_iff in Hb as [Hd Hb].
  injection Hl as Hl. cbn [decimal_value] in Hv.
  rewrite (decimal_value_acc a), (decimal_value_acc b), <- Hl in Hv.
  pose proof (decimal_value_lt a Ha) as La.
  pose proof (decimal_value_lt b Hb) as Lb. rewrite <- Hl in Lb.
  destruct (N.div_mod_unique (10 ^ N.of_nat (List.length a))
              (10 * 0 + (c - 48)) (10 * 0 + (d - 48))
              (decimal_value a 0) (decimal_value b 0) La Lb) as [Hq Hr]; [lia|].
  unfold is_digit in Hc, Hd.
  apply andb_true_iff in Hc as [H1 _]. apply andb_true_iff in Hd as [H2 _].
  apply N.leb_le in H1, H2.
  f_equal; [lia | now apply IH].
Qed.

(** What [array_index] accepts. *)
Lemma array_index_canonical (k : jsstring) (n : N) :
  array_index k = Some n ->
  forallb is_digit k = true /\ decimal_value k 0 = n
  /\ exists c k', k = c :: k' /\ (c <> 48 \/ k' = []).
Proof.
  unfold array_index. destruct k as [|c k']; [discriminate|].
  destruct (forallb is_digit (c :: k')) eqn:Hd; [|discriminate].
  destruct (negb (code_eqb c 48) || negb (nonempty k')) eqn:Hz; [|discriminate].
  cbn [andb]. destruct (decimal_value (c :: k') 0 <? 4294967295); [|discriminate].
  intros E. injection E as <-. repeat split. exists c, k'. split; [reflexivity|].
  apply orb_true_iff in Hz as [Hz|Hz]; apply negb_true_iff in Hz.
  - left. intros ->. discriminate.
  - right. now destruct k'.
Qed.

Lemma canonical_length_le (a b : jsstring) (n : N) :
  array_index a = Some n -> array_index b = Some n ->
  (List.length a <= List.length b)%nat.
Proof.
  intros Ha Hb.
  destruct (array_index_canonical _ _ Ha) as (Da & Va & ca & a' & -> & Za).
  destruct (array_index_canonical _ _ Hb) as (Db & Vb & cb & b' & -> & Zb).
  destruct (Nat.le_gt_cases (List.length (ca :: a')) (List.length (cb :: b')))
    as [|Hlt]; [assumption|]. exfalso.
  pose proof (decimal_value_lt _ Db) as Lb.
  cbn [forallb] in Da. apply andb_true_iff in Da as [Dca Da'].
  destruct Za as [Za | ->]; [|simpl in Hlt; lia].
  pose proof (decimal_value_ge ca a' Dca Za) as Ga.
  assert (10 ^ N.of_nat (List.length (cb :: b')) <= 10 ^ N.of_nat (List.length a')).
  { apply N.pow_le_mono_r; [discriminate|]. simpl in Hlt |- *. lia. }
  lia.
Qed.

(** An array index has one spelling. *)
Lemma array_index_inj (a b : jsstring) (n : N) :
  array_index a = Some n -> array_index b = Some n -> a = b.
Proof.
  intros Ha Hb.
  pose proof (@canonical_length_le a b n Ha Hb). pose proof (@canonical_length_le b a n Hb Ha).
  destruct (array_index_canonical _ _ Ha) as (Da & Va & _).
  destruct (array_index_canonical _ _ Hb) as (Db & Vb & _).
  apply digits_same_length; try assumption; [lia | congruence].
Qed.

Lemma precedes_distinct (k1 k2 : jsstring) : precedes k1 k2 = true -> k1 <> k2.
Proof.
  unfold precedes. intros H ->.
  destruct (array_index k2).
  - apply N.ltb_lt in H. lia.
  - now rewrite eqb_refl in H.
Qed.

Lemma precedes_index_trans (k1 k2 k3 : jsstring) (n : N) :
  array_index k1 = Some n ->
  precedes k1 k2 = true -> precedes k2 k3 = true -> precedes k1 k3 = true.
Proof.
  unfold precedes. intros ->.
  destruct (array_index k2), (array_index k3); try discriminate; try reflexivity.
  intros H1 H2. apply N.ltb_lt in H1, H2. apply N.ltb_lt. lia.
Qed.

Section Order.
Variable V : Type.
Implicit Types (o : object V) (k : jsstring) (v : V).

Lemma obj_has_keys o k : obj_has o k = true <-> In k (List.map fst o).
Proof.
  unfold obj_has. induction o as [|[k' v'] o IH]; simpl.
  - split; [discriminate | intros []].
  - destruct (JsString.eqb k' k) eqn:E.
    + apply eqb_eq in E. split; [now left | reflexivity].
    + apply eqb_neq in E. rewrite IH. split; [now right | intros [|]; [contradiction | assumption]].
Qed.

Lemma keys_update o k v : List.map fst (obj_update o k v) = List.map fst o.
Proof.
  induction o as [|[k' v'] o IH]; simpl; [reflexivity|].
  destruct (JsString.eqb k' k); simpl; congruence.
Qed.

Lemma forallb_keys_insert (P : jsstring -> bool) o n k v :
  forallb P (List.map fst (obj_insert_index o n k v))
  = P k && forallb P (List.map fst o).
Proof.
  induction o as [|[k' v'] o IH]; simpl; [reflexivity|].
  destruct (array_index k') as [n'|]; [destruct (n <? n')|]; simpl;
    try reflexivity.
  rewrite IH. now destruct (P k), (P k').
Qed.

Lemma ordered_insert_index o n k v :
  array_index k = Some n -> obj_has o k = false ->
  ordered o = true -> ordered (obj_insert_index o n k v) = true.
Proof.
  intros Hk. unfold ordered.
  induction o as [|[k' v'] o IH]; intros Hhas Ho; [reflexivity|].
  assert (Hne : k' <> k).
  { intros ->. unfold obj_has in Hhas. simpl in Hhas. now rewrite eqb_refl in Hhas. }
  assert (Hhas' : obj_has o k = false).
  { unfold obj_has in *. simpl in Hhas. apply eqb_neq in Hne. now rewrite Hne in Hhas. }
  cbn [List.map fst ordered_keys] in Ho. apply andb_true_iff in Ho as [Hall Ho].
  assert (Hfront : precedes k k' = true ->
                   ordered_keys (List.map fst ((k, v) :: (k', v') :: o)) = true).
  { intros Hp. cbn [List.map fst ordered_keys forallb]. rewrite Hp, Hall, Ho.
    cbn [andb]. rewrite andb_true_r. apply forallb_forall. intros k'' Hin.
    rewrite forallb_forall in Hall.
    apply (@precedes_index_trans k k' k'' n Hk Hp). now apply Hall. }
  cbn [obj_insert_index]. destruct (array_index k') as [n'|] eqn:Hk'.
  - destruct (n <? n') eqn:Hlt.
    + apply Hfront. unfold precedes. now rewrite Hk, Hk'.
    + cbn [List.map fst ordered_keys]. rewrite forallb_keys_insert, Hall, (IH Hhas' Ho).
      rewrite !andb_true_r. unfold precedes. rewrite Hk', Hk. apply N.ltb_lt.
      apply N.ltb_ge in Hlt.
      assert (n <> n'). { intros ->. apply Hne. now apply (@array_index_inj k' k n'). }
      lia.
  - apply Hfront. unfold precedes. now rewrite Hk, Hk'.
Qed.

Lemma ordered_keys_app_last (ks : list jsstring) (k : jsstring) :
  ordered_keys (ks ++ [k]) = ordered_keys ks && forallb (fun k' => precedes k' k) ks.
Proof.
  induction ks as [|k' ks IH]; [reflexivity|].
  cbn [app ordered_keys forallb]. rewrite forallb_app, IH. cbn [forallb].
  rewrite andb_true_r.
  destruct (forallb (precedes k') ks), (precedes k' k), (ordered_keys ks);
    reflexivity.
Qed.

(** Defining a property keeps an object in enumeration order. *)
Lemma ordered_define o k v : ordered o = true -> ordered (obj_define o k v) = true.
Proof.
  intros Ho. unfold obj_define. destruct (obj_has o k) eqn:Hhas.
  - unfold ordered. now rewrite keys_update.
  - destruct (array_index k) as [n|] eqn:Hk.
    + now apply ordered_insert_index.
    + unfold ordered. rewrite map_app. cbn [List.map fst].
      rewrite ordered_keys_app_last. fold (ordered o).
      rewrite Ho. apply forallb_forall. intros k' Hin. unfold precedes. rewrite Hk.
      destruct (array_index k'); [reflexivity|]. apply negb_true_iff, eqb_neq.
      intros ->. apply obj_has_keys in Hin. congruence.
Qed.

Lemma insert_index_last o n k v :
  array_index k = Some n ->
  forallb (fun k' => precedes k' k) (List.map fst o) = true ->
  obj_insert_index o n k v = o ++ [(k, v)].
Proof.
  intros Hk. induction o as [|[k' v'] o IH]; intros Hall; [reflexivity|].
  cbn [List.map fst forallb] in Hall. apply andb_true_iff in Hall as [Hp Hall].
  cbn [obj_insert_index app]. unfold precedes in Hp. rewrite Hk in Hp.
  destruct (array_index k') as [n'|]; [|discriminate].
  apply N.ltb_lt in Hp. rewrite (proj2 (N.ltb_ge n n')) by lia.
  now rewrite IH.
Qed.

(** Defining, on an object, the property that enumeration puts last adds
    it at the end. *)
Lemma obj_define_last o k v :
  ordered (o ++ [(k, v)]) = true -> obj_define o k v = o ++ [(k, v)].
Proof.
  unfold ordered. rewrite map_app. cbn [List.map fst].
  rewrite ordered_keys_app_last. intros H.
  apply andb_true_iff in H as [_ Hall]. unfold obj_define.
  assert (Hhas : obj_has o k = false).
  { destruct (obj_has o k) eqn:E; [|reflexivity]. apply obj_has_keys in E.
    rewrite forallb_forall in Hall. now elim (@precedes_distinct k k (Hall k E)). }
  rewrite Hhas. destruct (array_index k) as [n|] eqn:Hk; [|reflexivity].
  now apply insert_index_last.
Qed.

End Order.
End ObjectOrder.

Module Rounding.
Local Open Scope Z_scope.

Lemma floor_log2_bounds (p q : Z) :
  0 < q -> q * 2 ^ 52 <= p ->
  52 <= floor_log2 p q
  /\ q * 2 ^ floor_log2 p q <= p < q * 2 ^ (floor_log2 p q + 1).
Proof.
  intros Hq Hp.
  assert (Hp0 : 0 < p) by nia.
  pose proof (Z.log2_spec p Hp0) as [Pa Pb].
  pose proof (Z.log2_spec q Hq) as [Qa Qb].
  pose proof (Z.log2_nonneg p) as Na. pose proof (Z.log2_nonneg q) as Nb.
  set (a := Z.log2 p) in *. set (b := Z.log2 q) in *.
  assert (HL : 52 <= a - b).
  { destruct (Z.le_gt_cases 52 (a - b)) as [|Hlt]; [assumption|]. exfalso.
    assert (2 ^ Z.succ a <= 2 ^ (b + 52)) by (apply Z.pow_le_mono_r; lia).
    rewrite Z.pow_add_r in H by lia. nia. }
  assert (Hab : 2 ^ a = 2 ^ b * 2 ^ (a - b)).
  { rewrite <- Z.pow_add_r by lia. f_equal. lia. }
  assert (Hs : 2 ^ (a - b) = 2 * 2 ^ (a - b - 1)).
  { rewrite <- Z.pow_succ_r by lia. f_equal. lia. }
  assert (Hs' : 2 ^ (a - b + 1) = 2 * 2 ^ (a - b)).
  { rewrite Z.pow_add_r by lia. lia. }
  rewrite Z.pow_succ_r in Pb, Qb by lia.
  assert (0 < 2 ^ (a - b - 1)) by (apply Z.pow_pos_nonneg; lia).
  assert (0 < 2 ^ b) by (apply Z.pow_pos_nonneg; lia).
  unfold floor_log2. fold a b.
  destruct (p <? q * 2 ^ (a - b)) eqn:E.
  - apply Z.ltb_lt in E. replace (a - b - 1 + 1) with (a - b) by lia.
    split; [|split; [|assumption]].
    + destruct (Z.eq_dec (a - b) 52) as [E52|]; [|lia].
      rewrite E52 in E. lia.
    + nia.
  - apply Z.ltb_ge in E. split; [assumption|]. split; [assumption|].
    rewrite Hs'. nia.
Qed.

Lemma floor_log2_small (p q : Z) :
  0 < p -> 0 < q -> p < q * 2 ^ 52 -> floor_log2 p q <= 52.
Proof.
  intros Hp Hq Hlt.
  pose proof (Z.log2_spec p Hp) as [Pa Pb].
  pose proof (Z.log2_spec q Hq) as [Qa Qb].
  pose proof (Z.log2_nonneg p) as Na. pose proof (Z.log2_nonneg q) as Nb.
  assert (HL : Z.log2 p - Z.log2 q <= 52).
  { destruct (Z.le_gt_cases (Z.log2 p - Z.log2 q) 52) as [|Hgt]; [assumption|]. exfalso.
    assert (2 ^ (Z.succ (Z.log2 q) + 52) <= 2 ^ Z.log2 p) by (apply Z.pow_le_mono_r; lia).
    rewrite Z.pow_add_r in H by lia. nia. }
  unfold floor_log2. destruct (_ <? _); lia.
Qed.

Lemma exponent_of_spec (p q : Z) :
  0 < p -> 0 < q -> exponent_for p q (exponent_of p q).
Proof.
  intros Hp Hq. unfold exponent_for, exponent_of.
  destruct (Z.le_gt_cases (q * 2 ^ 52) p) as [Hbig | Hsmall].
  - destruct (floor_log2_bounds p q Hq Hbig) as (HL & Hlo & Hhi).
    rewrite Z.max_l by lia.
    replace (floor_log2 p q - 52 + 53) with (floor_log2 p q + 1) by lia.
    replace (floor_log2 p q - 52 + 52) with (floor_log2 p q) by lia.
    repeat split; [lia | assumption | intros _; assumption].
  - pose proof (floor_log2_small p q Hp Hq Hsmall).
    rewrite Z.max_r by lia. repeat split; [lia | | lia].
    change (2 ^ (0 + 53)) with (2 * 2 ^ 52). lia.
Qed.

Lemma exponent_for_unique (p q E1 E2 : Z) :
  0 < q -> exponent_for p q E1 -> exponent_for p q E2 -> E1 = E2.
Proof.
  assert (H : forall E1 E2, 0 < q -> exponent_for p q E1 -> exponent_for p q E2 ->
                            E1 <= E2).
  { clear E1 E2. intros E1 E2 Hq (H1 & U1 & L1) (H2 & U2 & L2).
    destruct (Z.le_gt_cases E1 E2) as [|Hgt]; [assumption|]. exfalso.
    specialize (L1 ltac:(lia)).
    assert (2 ^ (E2 + 53) <= 2 ^ (E1 + 52)) by (apply Z.pow_le_mono_r; lia).
    nia. }
  intros Hq H1 H2. apply Z.le_antisymm; now apply H.
Qed.

Lemma exponent_of_unique (p q E : Z) :
  0 < p -> 0 < q -> exponent_for p q E -> exponent_of p q = E.
Proof.
  intros Hp Hq H. apply (exponent_for_unique p q); [assumption | | assumption].
  now apply exponent_of_spec.
Qed.

Lemma compare_scale (a b c : Z) : 0 < c -> (a * c ?= b * c) = (a ?= b).
Proof.
  intros Hc. destruct (Z.compare_spec a b) as [->|H|H].
  - apply Z.compare_refl.
  - apply Z.compare_lt_iff. nia.
  - apply Z.compare_gt_iff. nia.
Qed.

(** The rounding depends on the fraction's value only. *)
Lemma round_core_scale (neg : bool) (p q c : Z) :
  0 < p -> 0 < q -> 0 < c -> round_core neg (p * c) (q * c) = round_core neg p q.
Proof.
  intros Hp Hq Hc. unfold round_core.
  assert (HE : exponent_of (p * c) (q * c) = exponent_of p q).
  { apply exponent_of_unique; [nia | nia |].
    destruct (exponent_of_spec p q Hp Hq) as (H0 & Hu & Hl).
    repeat split; [assumption | nia |]. intros H. specialize (Hl H). nia. }
  rewrite HE. set (E := exponent_of p q). unfold round_at.
  assert (Hb : 0 < q * 2 ^ E).
  { apply Z.mul_pos_pos; [assumption|]. apply Z.pow_pos_nonneg; [lia|].
    unfold E, exponent_of. lia. }
  replace (q * c * 2 ^ E) with (q * 2 ^ E * c) by ring.
  rewrite Z.div_mul_cancel_r by lia.
  rewrite Z.mul_mod_distr_r by lia.
  replace (2 * (p mod (q * 2 ^ E) * c)) with (2 * (p mod (q * 2 ^ E)) * c) by ring.
  rewrite compare_scale by assumption.
  reflexivity.
Qed.

Lemma round_fraction_scale (neg : bool) (p q c : Z) :
  0 < p -> 0 < q -> 0 < c ->
  round_fraction neg (p * c) (q * c) = round_fraction neg p q.
Proof.
  intros Hp Hq Hc. unfold round_fraction.
  replace (p * c * 2 ^ 1074) with (p * 2 ^ 1074 * c) by ring.
  apply round_core_scale; lia.
Qed.

Lemma valid_spec (m : positive) (e : Z) :
  valid m e = true <->
  (2 ^ 52 <= Zpos m < 2 ^ 53 /\ -1074 <= e <= 971) \/ (Zpos m < 2 ^ 52 /\ e = -1074).
Proof.
  unfold valid. rewrite orb_true_iff, !andb_true_iff.
  rewrite !Z.leb_le, !Z.ltb_lt, Z.eqb_eq. intuition lia.
Qed.

(** A valid finite number is the rounding of its own value. *)
Lemma round_core_exact (neg : bool) (m : positive) (e : Z) :
  valid m e = true ->
  round_core neg (Zpos m * 2 ^ (e + 1074)) 1 = S754_finite neg m e.
Proof.
  intros Hv. apply valid_spec in Hv.
  assert (He : 0 <= e + 1074 <= 2045) by lia.
  set (e' := e + 1074) in *.
  assert (Hpow : 0 < 2 ^ e') by (apply Z.pow_pos_nonneg; lia).
  assert (HE : exponent_of (Zpos m * 2 ^ e') 1 = e').
  { apply exponent_of_unique; [nia | lia |]. unfold exponent_for.
    rewrite !Z.pow_add_r by lia. repeat split; [lia | nia |].
    intros H. destruct Hv as [[Hm _] | [_ He0]]; [nia | lia]. }
  unfold round_core. rewrite HE. unfold round_at.
  rewrite Z.mul_1_l, Z.div_mul, Z.mod_mul by lia.
  replace (2 * 0 ?= 2 ^ e') with Lt by (symmetry; apply Z.compare_lt_iff; lia).
  assert (Hm : Zpos m < 2 ^ 53) by (change (2 ^ 53) with (2 * 2 ^ 52); lia).
  rewrite (proj2 (Z.eqb_neq (Zpos m) (2 ^ 53))) by lia.
  rewrite (proj2 (Z.leb_le e' 2045)) by lia.
  f_equal. unfold e'. lia.
Qed.

Lemma round_fraction_exact (neg : bool) (m : positive) (e : Z) :
  valid m e = true ->
  round_fraction neg (Zpos m * 2 ^ (e + 1074)) (2 ^ 1074) = S754_finite neg m e.
Proof.
  intros Hv. unfold round_fraction.
  rewrite <- (round_core_exact neg m e Hv).
  assert (Hv' := proj1 (valid_spec m e) Hv).
  assert (0 < 2 ^ (e + 1074)) by (apply Z.pow_pos_nonneg; lia).
  replace (2 ^ 1074) with (1 * 2 ^ 1074) at 2 by ring.
  apply round_core_scale; [nia | lia | reflexivity].
Qed.

(** What rounding gives is valid, with the sign asked for. *)
Lemma round_core_valid (neg s : bool) (p q : Z) (m : positive) (e : Z) :
  0 < p -> 0 < q -> round_core neg p q = S754_finite s m e ->
  s = neg /\ valid m e = true.
Proof.
  intros Hp Hq. unfold round_core.
  destruct (exponent_of_spec p q Hp Hq) as (H0 & Hu & Hl).
  set (E := exponent_of p q) in *. unfold round_at.
  assert (Hpow : 0 < 2 ^ E) by (apply Z.pow_pos_nonneg; lia).
  assert (Hb : 0 < q * 2 ^ E) by nia.
  set (b := q * 2 ^ E) in *.
  assert (Hm0 : 0 <= p / b < 2 ^ 53).
  { split; [apply Z.div_pos; lia|]. apply Z.div_lt_upper_bound; [assumption|].
    unfold b. rewrite Z.pow_add_r in Hu by lia. nia. }
  assert (Hlow : 0 < E -> 2 ^ 52 <= p / b).
  { intros HE. apply Z.div_le_lower_bound; [assumption|].
    specialize (Hl HE). unfold b. rewrite Z.pow_add_r in Hl by lia. nia. }
  set (m0 := p / b) in *.
  set (mr := match 2 * (p mod b) ?= b with
             | Lt => m0
             | Gt => m0 + 1
             | Eq => if Z.even m0 then m0 else m0 + 1
             end).
  assert (Hmr : m0 <= mr <= m0 + 1).
  { unfold mr. destruct (_ ?= _); [destruct (Z.even m0)| |]; lia. }
  change (2 ^ 53) with 9007199254740992 in *.
  change (2 ^ 52) with 4503599627370496 in *.
  destruct (mr =? 9007199254740992) eqn:Emax.
  - destruct (E + 1 <=? 2045) eqn:Ele; [|discriminate].
    intros H. injection H as <- <- <-. split; [reflexivity|].
    apply Z.leb_le in Ele. apply valid_spec. left.
    change (2 ^ 52) with 4503599627370496. change (2 ^ 53) with 9007199254740992. lia.
  - apply Z.eqb_neq in Emax. destruct mr as [|mp|mp] eqn:Er; try discriminate.
    destruct (E <=? 2045) eqn:Ele; [|discriminate].
    intros H. injection H as <- <- <-. split; [reflexivity|].
    apply Z.leb_le in Ele. apply valid_spec.
    change (2 ^ 52) with 4503599627370496. change (2 ^ 53) with 9007199254740992.
    destruct (Z.eq_dec E 0) as [E0|]; [|left; specialize (Hlow ltac:(lia)); lia].
    destruct (Z.le_gt_cases 4503599627370496 (Zpos mp)); [left | right]; lia.
Qed.

(** On the samples, the rounding agrees with the division and the rounding
    of the Standard Library's specification, for both signs. *)
Example of_decimal_agrees_with_ieee :
  forallb (fun me => number_eqb (of_decimal false (fst me) (snd me))
                                (of_decimal_ieee false (fst me) (snd me))
                     && number_eqb (of_decimal true (fst me) (snd me))
                                   (of_decimal_ieee true (fst me) (snd me)))
          decimal_samples = true.
Proof. vm_compute. reflexivity. Qed.

End Rounding.

Module Numerals.
Import ObjectOrder JsonNumbers.
Local Open Scope N_scope.

Lemma decimal_value_app (a b : jsstring) (acc : N) :
  decimal_value (a ++ b) acc = decimal_value b (decimal_value a acc).
Proof. revert acc. induction a as [|c a IH]; intros acc; [reflexivity | apply IH]. Qed.

Lemma is_digit_digit (d : N) : d < 10 -> is_digit (digit d) = true /\ digit d - 48 = d.
Proof.
  intros H. unfold is_digit, digit. split; [|lia].
  apply andb_true_iff. split; apply N.leb_le; lia.
Qed.

Lemma digits_fuel_step (fuel : nat) (n : N) (acc : jsstring) :
  digits_fuel (S fuel) n acc
  = if n <? 10 then digit (n mod 10) :: acc
    else digits_fuel fuel (n / 10) (digit (n mod 10) :: acc).
Proof. reflexivity. Qed.

Lemma digits_fuel_numeral (fuel : nat) :
  forall n acc, n < 2 ^ N.of_nat (S fuel) ->
  exists ds, digits_fuel (S fuel) n acc = ds ++ acc /\ numeral n ds.
Proof.
  induction fuel as [|fuel IH]; intros n acc Hn.
  - change (2 ^ N.of_nat 1) with 2 in Hn.
    exists [digit n]. rewrite digits_fuel_step.
    rewrite (N.mod_small n 10) by lia.
    rewrite (proj2 (N.ltb_lt n 10)) by lia.
    destruct (is_digit_digit n ltac:(lia)) as [Hd Hv].
    split; [reflexivity|]. repeat split.
    + cbn [forallb]. now rewrite Hd.
    + cbn [decimal_value]. lia.
    + exists (digit n), []. split; [reflexivity|]. unfold digit. lia.
  - rewrite digits_fuel_step. destruct (n <? 10) eqn:E.
    + apply N.ltb_lt in E. exists [digit n].
      rewrite (N.mod_small n 10) by lia.
      destruct (is_digit_digit n E) as [Hd Hv].
      split; [reflexivity|]. repeat split.
      * cbn [forallb]. now rewrite Hd.
      * cbn [decimal_value]. lia.
      * exists (digit n), []. split; [reflexivity|]. unfold digit. lia.
    + apply N.ltb_ge in E.
      assert (Hdiv : n / 10 < 2 ^ N.of_nat (S fuel)).
      { apply N.Div0.div_lt_upper_bound.
        rewrite (Nnat.Nat2N.inj_succ (S fuel)), N.pow_succ_r' in Hn. lia. }
      destruct (IH (n / 10) (digit (n mod 10) :: acc) Hdiv)
        as (ds & Eds & Hdig & Hval & d & ds' & Ehd & Hnz).
      exists (ds ++ [digit (n mod 10)]).
      split; [rewrite Eds, <- app_assoc; reflexivity|].
      pose proof (N.mod_lt n 10 ltac:(discriminate)) as Hmod.
      destruct (is_digit_digit (n mod 10) Hmod) as [Hd Hv].
      repeat split.
      * rewrite forallb_app. cbn [forallb]. now rewrite Hdig, Hd.
      * rewrite decimal_value_app, Hval. cbn [decimal_value]. rewrite Hv.
        pose proof (N.div_mod n 10 ltac:(discriminate)). lia.
      * exists d, (ds' ++ [digit (n mod 10)]). split; [now rewrite Ehd|].
        intros _. apply Hnz.
        apply N.div_str_pos. lia.
Qed.

(** [of_N] writes the decimal numeral. *)
Lemma of_N_numeral (n : N) : numeral n (of_N n).
Proof.
  unfold of_N.
  destruct (digits_fuel_numeral (N.to_nat (N.log2 n)) n []) as (ds & E & H).
  - rewrite Nnat.Nat2N.inj_succ, Nnat.N2Nat.id.
    destruct n as [|p]; [reflexivity|]. apply N.log2_spec. reflexivity.
  - rewrite E, app_nil_r. exact H.
Qed.

Lemma span_digits_all (ds rest : jsstring) :
  forallb is_digit ds = true ->
  (forall c t, rest = c :: t -> is_digit c = false) ->
  span_digits (ds ++ rest) = (ds, rest).
Proof.
  intros Hd Hr. induction ds as [|c ds IH]; cbn [app].
  - destruct rest as [|c t]; [reflexivity|]. simpl. now rewrite (Hr c t eq_refl).
  - cbn [forallb] in Hd. apply andb_true_iff in Hd as [Hc Hd].
    cbn [span_digits]. now rewrite Hc, (IH Hd).
Qed.

Lemma span_digits_only (ds : jsstring) :
  forallb is_digit ds = true -> span_digits ds = (ds, []).
Proof.
  intros H. rewrite <- (app_nil_r ds) at 1. apply span_digits_all; [assumption|].
  intros c t E. discriminate.
Qed.

Lemma forallb_repeat_zero (n : nat) : forallb is_digit (repeat 48 n) = true.
Proof. induction n; [reflexivity | exact IHn]. Qed.

Lemma decimal_value_zeros (n : nat) (acc : N) :
  decimal_value (repeat 48 n) acc = acc * 10 ^ N.of_nat n.
Proof.
  revert acc. induction n as [|n IH]; intros acc.
  - simpl. lia.
  - cbn [repeat decimal_value]. rewrite IH, Nnat.Nat2N.inj_succ, N.pow_succ_r'. lia.
Qed.

Lemma forallb_firstn {A : Type} (f : A -> bool) (n : nat) (l : list A) :
  forallb f l = true -> forallb f (firstn n l) = true /\ forallb f (skipn n l) = true.
Proof.
  intros H. rewrite <- (firstn_skipn n l) in H. rewrite forallb_app in H.
  now apply andb_true_iff in H.
Qed.

End Numerals.

Module NumberText.
Import ObjectOrder JsonNumbers Numerals Rounding.
Local Open Scope N_scope.

Lemma digit_not_minus (c : code) : is_digit c = true -> (c =? 45) = false.
Proof.
  unfold is_digit. intros H. apply andb_true_iff in H as [H _].
  apply N.leb_le in H. apply N.eqb_neq. lia.
Qed.

Lemma lex_exponent_text (ex : option (bool * jsstring)) :
  (forall eneg ed, ex = Some (eneg, ed) -> forallb is_digit ed = true /\ ed <> []) ->
  lex_exponent (exponent_text ex) = Some (exponent_value ex, []).
Proof.
  intros H. destruct ex as [[eneg ed]|]; [|reflexivity].
  destruct (H eneg ed eq_refl) as [Hd Hne].
  unfold exponent_text, exponent_value, lex_exponent.
  change ((101 =? 101) || (101 =? 69)) with true. cbv iota.
  destruct eneg.
  - change (45 =? 45) with true. cbv iota.
    rewrite (span_digits_only ed Hd). destruct ed; [now elim Hne | reflexivity].
  - change (43 =? 45) with false. change (43 =? 43) with true. cbv iota.
    rewrite (span_digits_only ed Hd). destruct ed; [now elim Hne | reflexivity].
Qed.

Lemma exponent_text_head (ex : option (bool * jsstring)) :
  forall c t, exponent_text ex = c :: t -> is_digit c = false /\ (c =? 46) = false.
Proof.
  destruct ex as [[eneg ed]|]; intros c t E; [|discriminate].
  injection E as <- _. split; reflexivity.
Qed.

Lemma lex_fraction_text (frac : jsstring) (ex : option (bool * jsstring)) :
  forallb is_digit frac = true ->
  lex_fraction (fraction_text frac ++ exponent_text ex) = Some (frac, exponent_text ex).
Proof.
  intros Hd. destruct frac as [|c frac].
  - cbn [fraction_text app]. unfold lex_fraction.
    destruct (exponent_text ex) as [|d t] eqn:E; [reflexivity|].
    destruct (exponent_text_head ex d t E) as [_ H]. now rewrite H.
  - cbn [fraction_text app]. unfold lex_fraction.
    change (46 =? 46) with true. cbv iota.
    change (c :: frac ++ exponent_text ex) with ((c :: frac) ++ exponent_text ex).
    rewrite (span_digits_all (c :: frac) (exponent_text ex) Hd); [reflexivity|].
    intros d t E. now destruct (exponent_text_head ex d t E).
Qed.

(** Reading a number that is written as sign, digits, fraction and
    exponent. *)
Lemma lex_number_literal (neg : bool) (int frac : jsstring) (ex : option (bool * jsstring)) :
  forallb is_digit int = true ->
  (exists d more, int = d :: more /\ (d =? 48) && nonempty more = false) ->
  forallb is_digit frac = true ->
  (forall eneg ed, ex = Some (eneg, ed) -> forallb is_digit ed = true /\ ed <> []) ->
  lex_number (literal neg int frac ex)
  = Some (of_decimal neg (decimal_value (int ++ frac) 0)
                     (exponent_value ex - Z.of_nat (List.length frac)), []).
Proof.
  intros Hint (d & more & Eint & Hlead) Hfrac Hex.
  assert (Hsign : lex_sign (literal neg int frac ex)
                  = (neg, int ++ fraction_text frac ++ exponent_text ex)).
  { unfold literal. destruct neg; [reflexivity|]. cbn [app]. rewrite Eint in *.
    cbn [app lex_sign]. cbn [forallb] in Hint. apply andb_true_iff in Hint as [Hd _].
    now rewrite (digit_not_minus d Hd). }
  unfold lex_number. rewrite Hsign.
  rewrite (span_digits_all int (fraction_text frac ++ exponent_text ex) Hint).
  2:{ intros c t E. destruct frac as [|f frac].
      - cbn [fraction_text app] in E. now destruct (exponent_text_head ex c t E).
      - cbn [fraction_text app] in E. now injection E as <- _. }
  rewrite Eint, Hlead, <- Eint.
  rewrite (lex_fraction_text frac ex Hfrac), (lex_exponent_text ex Hex).
  reflexivity.
Qed.

Local Open Scope Z_scope.

Lemma of_decimal_N (neg : bool) (M : N) (e : Z) :
  (0 < M)%N ->
  of_decimal neg M e
  = round_fraction neg (Z.of_N M * 10 ^ Z.max 0 e) (10 ^ Z.max 0 (- e)).
Proof. destruct M; [lia | reflexivity]. Qed.

Lemma of_decimal_shift (neg : bool) (M : N) (j : nat) :
  (0 < M)%N ->
  of_decimal neg (M * 10 ^ N.of_nat j) 0 = of_decimal neg M (Z.of_nat j).
Proof.
  intros HM. rewrite !of_decimal_N; [|assumption|].
  - rewrite N2Z.inj_mul, N2Z.inj_pow, nat_N_Z.
    change (Z.of_N 10) with 10.
    rewrite (Z.max_r 0 (Z.of_nat j)) by lia.
    rewrite (Z.max_l 0 (- Z.of_nat j)) by lia.
    change (Z.max 0 0) with 0. change (Z.max 0 (- 0)) with 0.
    now rewrite Z.pow_0_r, Z.mul_1_r.
  - apply N.mul_pos_pos; [assumption|]. apply N.neq_0_lt_0, N.pow_nonzero. discriminate.
Qed.

(** The shapes Number::toString gives a number. *)
Lemma format_literal (neg : bool) (s n : Z) :
  0 < s ->
  exists int frac ex,
    (if neg then js "-" else []) ++ format s n = literal neg int frac ex
    /\ forallb is_digit int = true
    /\ (exists d more, int = d :: more /\ (d =? 48)%N && nonempty more = false)
    /\ forallb is_digit frac = true
    /\ (forall eneg ed, ex = Some (eneg, ed) -> forallb is_digit ed = true /\ ed <> [])
    /\ of_decimal neg (decimal_value (int ++ frac) 0)
                  (exponent_value ex - Z.of_nat (List.length frac))
       = of_decimal neg (Z.to_N s) (n - num_digits s).
Proof.
  intros Hs.
  assert (HM : (0 < Z.to_N s)%N) by lia.
  destruct (of_N_numeral (Z.to_N s)) as (Hdig & Hval & d & ds & Eds & Hnz).
  specialize (Hnz HM).
  assert (Hd48 : (d =? 48)%N = false) by now apply N.eqb_neq.
  unfold format, num_digits.
  set (digits := of_N (Z.to_N s)) in *.
  set (k := Z.of_nat (List.length digits)).
  assert (Hk : 1 <= k) by (unfold k; rewrite Eds; simpl List.length; lia).
  assert (Hsign : forall t, (if neg then js "-" else []) ++ t
                            = (if neg then [45%N] else []) ++ t)
    by (now destruct neg).
  destruct ((k <=? n) && (n <=? 21)) eqn:C1.
  { apply andb_true_iff in C1 as [C1 _]. apply Z.leb_le in C1.
    exists (digits ++ zeros (n - k)), [], None. split; [|split; [|split; [|split; [|split]]]].
    - rewrite Hsign. unfold literal. cbn [fraction_text exponent_text].
      now rewrite !app_nil_r.
    - rewrite forallb_app, Hdig. apply forallb_repeat_zero.
    - exists d, (ds ++ zeros (n - k)). rewrite Eds, Hd48. split; reflexivity.
    - reflexivity.
    - intros eneg ed E. discriminate.
    - rewrite app_nil_r, decimal_value_app, Hval. unfold zeros.
      rewrite decimal_value_zeros. cbn [exponent_value List.length].
      change (0 - Z.of_nat 0) with 0.
      rewrite (of_decimal_shift neg (Z.to_N s) (Z.to_nat (n - k)) HM).
      f_equal. lia. }
  destruct ((0 <? n) && (n <=? 21)) eqn:C2.
  { apply andb_true_iff in C2 as [C2 C2']. apply Z.ltb_lt in C2. apply Z.leb_le in C2'.
    assert (Hnk : n < k).
    { apply andb_false_iff in C1 as [C1|C1]; [apply Z.leb_gt in C1; lia|].
      apply Z.leb_gt in C1. lia. }
    destruct (forallb_firstn is_digit (Z.to_nat n) digits Hdig) as [Hf Hsk].
    assert (Hlen : List.length (skipn (Z.to_nat n) digits) = Z.to_nat (k - n)).
    { rewrite length_skipn. unfold k. lia. }
    exists (firstn (Z.to_nat n) digits), (skipn (Z.to_nat n) digits), None.
    split; [|split; [|split; [|split; [|split]]]].
    - rewrite Hsign. unfold literal. cbn [exponent_text]. rewrite app_nil_r.
      destruct (skipn (Z.to_nat n) digits) eqn:Esk; [simpl in Hlen; lia|].
      reflexivity.
    - exact Hf.
    - exists d, (firstn (Z.to_nat n - 1) ds). rewrite Eds, Hd48.
      split; [|reflexivity].
      destruct (Z.to_nat n) as [|n'] eqn:En; [lia|].
      cbn [firstn]. f_equal. f_equal. lia.
    - exact Hsk.
    - intros eneg ed E. discriminate.
    - rewrite firstn_skipn, Hval, Hlen. cbn [exponent_value]. f_equal.
      fold digits. fold k. lia. }
  destruct ((-6 <? n) && (n <=? 0)) eqn:C3.
  { apply andb_true_iff in C3 as [_ C3]. apply Z.leb_le in C3.
    exists [48%N], (zeros (- n) ++ digits), None. split; [|split; [|split; [|split; [|split]]]].
    - rewrite Hsign. unfold literal. cbn [exponent_text]. rewrite app_nil_r.
      rewrite Eds. destruct (zeros (- n)); reflexivity.
    - reflexivity.
    - exists 48%N, []. split; reflexivity.
    - rewrite forallb_app, Hdig. unfold zeros. now rewrite forallb_repeat_zero.
    - intros eneg ed E. discriminate.
    - cbn [app decimal_value]. change (10 * 0 + (48 - 48))%N with 0%N.
      rewrite decimal_value_app. unfold zeros. rewrite decimal_value_zeros.
      change (0 * 10 ^ N.of_nat (Z.to_nat (- n)))%N with 0%N.
      rewrite Hval, length_app, repeat_length. cbn [exponent_value]. f_equal.
      fold digits. fold k. unfold k. lia. }
  set (ed := of_N (Z.abs_N (n - 1))).
  destruct (of_N_numeral (Z.abs_N (n - 1))) as (Hedig & Heval & ed0 & ed' & Eed & _).
  fold ed in Hedig, Heval, Eed.
  assert (Hex : forall eneg ed1,
             Some (n - 1 <? 0, ed) = Some (eneg, ed1) ->
             forallb is_digit ed1 = true /\ ed1 <> []).
  { intros eneg ed1 E. injection E as <- <-. split; [assumption|].
    rewrite Eed. discriminate. }
  assert (Hev : exponent_value (Some (n - 1 <? 0, ed)) = n - 1).
  { cbn [exponent_value]. rewrite Heval, N2Z.inj_abs_N.
    destruct (n - 1 <? 0) eqn:En; [apply Z.ltb_lt in En | apply Z.ltb_ge in En]; lia. }
  assert (Hexp : js "e" ++ (if n - 1 <? 0 then js "-" else js "+") ++ ed
                 = exponent_text (Some (n - 1 <? 0, ed))).
  { cbn [exponent_text]. now destruct (n - 1 <? 0). }
  rewrite Hexp. rewrite Eds. destruct ds as [|c ds1].
  - exists [d], [], (Some (n - 1 <? 0, ed)). split; [|split; [|split; [|split; [|split]]]].
    + rewrite Hsign. reflexivity.
    + rewrite Eds in Hdig. exact Hdig.
    + exists d, []. now rewrite andb_false_r.
    + reflexivity.
    + exact Hex.
    + rewrite Hev, app_nil_r. rewrite Eds in Hval. rewrite Hval.
      f_equal. unfold k. rewrite Eds. simpl List.length. lia.
  - exists [d], (c :: ds1), (Some (n - 1 <? 0, ed)). split; [|split; [|split; [|split; [|split]]]].
    + rewrite Hsign. reflexivity.
    + rewrite Eds in Hdig. cbn [forallb] in Hdig |- *.
      apply andb_true_iff in Hdig as [Hd _]. now rewrite Hd.
    + exists d, []. now rewrite andb_false_r.
    + rewrite Eds in Hdig. cbn [forallb] in Hdig.
      now apply andb_true_iff in Hdig as [_ Hd].
    + exact Hex.
    + rewrite Hev. change ([d] ++ c :: ds1) with (d :: c :: ds1).
      rewrite Eds in Hval. rewrite Hval. f_equal.
      unfold k. rewrite Eds. simpl List.length. lia.
Qed.

(** What Number::toString writes for the digits [s] and the position [n]
    is read as [s * 10^(n-k)]. *)
Lemma lex_number_format (neg : bool) (s n : Z) :
  0 < s ->
  lex_number ((if neg then js "-" else []) ++ format s n)
  = Some (of_decimal neg (Z.to_N s) (n - num_digits s), []).
Proof.
  intros Hs.
  destruct (format_literal neg s n Hs)
    as (int & frac & ex & Etext & Hint & Hlead & Hfrac & Hex & Hvalue).
  rewrite Etext, (lex_number_literal neg int frac ex Hint Hlead Hfrac Hex).
  now rewrite Hvalue.
Qed.

End NumberText.

Module NumberRoundTrip.
Import ObjectOrder JsonNumbers Numerals Rounding NumberText.
Local Open Scope Z_scope.

Lemma number_eqb_eq (a b : number) : number_eqb a b = true -> a = b.
Proof.
  destruct a, b; simpl; try discriminate; try reflexivity.
  - intros H. apply Bool.eqb_prop in H. now subst.
  - intros H. apply Bool.eqb_prop in H. now subst.
  - intros H. apply andb_true_iff in H as [H He]. apply andb_true_iff in H as [Hs Hm].
    apply Bool.eqb_prop in Hs. apply Pos.eqb_eq in Hm. apply Z.eqb_eq in He.
    now subst.
Qed.

Lemma number_eqb_refl (x : number) : number_eqb x x = true.
Proof.
  destruct x as [s|s| |s m e]; cbn [number_eqb]; try reflexivity.
  - now destruct s.
  - now destruct s.
  - rewrite Pos.eqb_refl, Z.eqb_refl. now destruct s.
Qed.

Lemma round_at_sign (neg : bool) (p q E : Z) :
  round_at neg p q E = with_sign neg (round_at false p q E).
Proof.
  unfold round_at. cbv zeta.
  match goal with
  | |- context [if ?c then (2 ^ 52, E + 1) else (?m, E)] =>
      destruct (if c then (2 ^ 52, E + 1) else (m, E)) as [m' E']
  end.
  destruct m' as [|mp|mp]; try reflexivity.
  now destruct (E' <=? 2045).
Qed.

Lemma of_decimal_sign (neg : bool) (M : N) (e : Z) :
  of_decimal neg M e = with_sign neg (of_decimal false M e).
Proof.
  destruct M as [|p]; [reflexivity|].
  unfold of_decimal, round_fraction, round_core. apply round_at_sign.
Qed.

Lemma round_at_not_nan (neg : bool) (p q E : Z) : round_at neg p q E <> S754_nan.
Proof.
  unfold round_at. cbv zeta.
  match goal with
  | |- context [if ?c then (2 ^ 52, E + 1) else (?m, E)] =>
      destruct (if c then (2 ^ 52, E + 1) else (m, E)) as [m' E']
  end.
  destruct m' as [|mp|mp]; try discriminate.
  destruct (E' <=? 2045); discriminate.
Qed.

(** Reading always gives a value of the format. *)
Lemma of_decimal_binary64 (neg : bool) (M : N) (e : Z) :
  is_binary64 (of_decimal neg M e) = true.
Proof.
  destruct M as [|p]; [reflexivity|].
  unfold of_decimal, round_fraction.
  assert (Hp : 0 < Zpos p * 10 ^ Z.max 0 e * 2 ^ 1074).
  { apply Z.mul_pos_pos; [apply Z.mul_pos_pos; [lia|]|];
      apply Z.pow_pos_nonneg; lia. }
  assert (Hq : 0 < 10 ^ Z.max 0 (- e)) by (apply Z.pow_pos_nonneg; lia).
  destruct (round_core neg (Zpos p * 10 ^ Z.max 0 e * 2 ^ 1074) (10 ^ Z.max 0 (- e)))
    as [s|s| |s m e'] eqn:Er; try reflexivity.
  - exfalso. exact (round_at_not_nan _ _ _ _ Er).
  - cbn [is_binary64]. now destruct (round_core_valid _ _ _ _ _ _ Hp Hq Er).
Qed.

Lemma lex_number_binary64 (s rest : jsstring) (x : number) :
  lex_number s = Some (x, rest) -> is_binary64 x = true.
Proof.
  unfold lex_number. destruct (lex_sign s) as [neg s1].
  destruct (span_digits s1) as [[|d more] s2]; [discriminate|].
  destruct ((d =? 48)%N && nonempty more); [discriminate|].
  destruct (lex_fraction s2) as [[frac s3]|]; [|discriminate].
  destruct (lex_exponent s3) as [[e r]|]; [|discriminate].
  intros H. injection H as <- _. apply of_decimal_binary64.
Qed.

Lemma digits_at_spec (x : number) (p q k n : Z) (found : Z * Z) :
  digits_at x p q k n = Some found -> digits_of x found.
Proof.
  unfold digits_at.
  destruct (List.find (reads_as x k n) (neighbours p q k n)) as [s|] eqn:Ef;
    [|discriminate].
  intros H. injection H as <-. apply find_some in Ef as [_ Hr].
  unfold reads_as in Hr. apply andb_true_iff in Hr as [Hr Heq].
  apply andb_true_iff in Hr as [Hs Hk].
  apply Z.ltb_lt in Hs. apply Z.eqb_eq in Hk. apply number_eqb_eq in Heq.
  split; [exact Hs|]. cbn [fst snd]. now rewrite Hk.
Qed.

Lemma shortest_from_spec (x : number) (p q n0 : Z) (last : Z * Z) (more : nat) :
  digits_of x last ->
  forall k, digits_of x (shortest_from x p q n0 k more last).
Proof.
  intros Hlast. induction more as [|more IH]; intros k; cbn [shortest_from].
  - destruct (digits_at x p q k n0) as [f|] eqn:E1;
      [exact (digits_at_spec _ _ _ _ _ _ E1)|].
    destruct (digits_at x p q k (n0 + 1)) as [f|] eqn:E2;
      [exact (digits_at_spec _ _ _ _ _ _ E2)|].
    exact Hlast.
  - destruct (digits_at x p q k n0) as [f|] eqn:E1;
      [exact (digits_at_spec _ _ _ _ _ _ E1)|].
    destruct (digits_at x p q k (n0 + 1)) as [f|] eqn:E2;
      [exact (digits_at_spec _ _ _ _ _ _ E2)|].
    apply IH.
Qed.

(** The exact decimal expansion of a value reads as the value. *)
Lemma exact_digits_spec (m : positive) (e : Z) :
  valid m e = true -> digits_of (S754_finite false m e) (exact_digits m e).
Proof.
  intros Hv. pose proof (proj1 (valid_spec m e) Hv) as He.
  assert (H2 : 0 < 2 ^ (e + 1074)) by (apply Z.pow_pos_nonneg; lia).
  assert (H5 : 0 < 5 ^ 1074) by (apply Z.pow_pos_nonneg; lia).
  assert (Hs : 0 < Zpos m * 2 ^ (e + 1074) * 5 ^ 1074)
    by (apply Z.mul_pos_pos; [apply Z.mul_pos_pos; [lia|assumption]|assumption]).
  unfold exact_digits, digits_of. cbv zeta. cbn [fst snd]. split; [exact Hs|].
  rewrite of_decimal_N by lia. rewrite Z2N.id by lia.
  replace (num_digits (Zpos m * 2 ^ (e + 1074) * 5 ^ 1074) - 1074
           - num_digits (Zpos m * 2 ^ (e + 1074) * 5 ^ 1074)) with (- 1074) by lia.
  change (Z.max 0 (- 1074)) with 0. change (Z.max 0 (- - 1074)) with 1074.
  rewrite Z.pow_0_r, Z.mul_1_r.
  assert (E10 : 10 ^ 1074 = 2 ^ 1074 * 5 ^ 1074)
    by (rewrite <- Z.pow_mul_l; reflexivity).
  rewrite E10.
  rewrite (round_fraction_scale false (Zpos m * 2 ^ (e + 1074)) (2 ^ 1074) (5 ^ 1074));
    [|apply Z.mul_pos_pos; [lia|assumption]|apply Z.pow_pos_nonneg; lia|assumption].
  now apply round_fraction_exact.
Qed.

Lemma shortest_spec (m : positive) (e : Z) :
  valid m e = true -> digits_of (S754_finite false m e) (shortest m e).
Proof.
  intros Hv. unfold shortest, fraction. apply shortest_from_spec.
  now apply exact_digits_spec.
Qed.

(** Every finite value of the format is read back from what
    Number::toString writes for it. *)
Lemma lex_number_toString (neg : bool) (m : positive) (e : Z) :
  valid m e = true ->
  lex_number (toString (S754_finite neg m e)) = Some (S754_finite neg m e, []).
Proof.
  intros Hv. pose proof (shortest_spec m e Hv) as [Hs Hr].
  cbn [toString]. destruct (shortest m e) as [s n]. cbn [fst snd] in Hs, Hr.
  rewrite (lex_number_format neg s n Hs), of_decimal_sign, Hr. reflexivity.
Qed.

Lemma reads_back_finite (neg : bool) (m : positive) (e : Z) :
  valid m e = true -> reads_back (S754_finite neg m e) = true.
Proof.
  intros Hv. unfold reads_back. rewrite (lex_number_toString neg m e Hv).
  apply number_eqb_refl.
Qed.

End NumberRoundTrip.

Module JsonValues.
Import StringFacts ObjectOrder JsonStrings JsonNumbers NumberRoundTrip.
Local Open Scope N_scope.

(** Induction on a value, with the property known of every element and of
    every member's value. *)
Lemma json_ind (P : json -> Prop) :
  P JNull ->
  (forall b, P (JBool b)) ->
  (forall x, P (JNumber x)) ->
  (forall s, P (JString s)) ->
  (forall items, Forall P items -> P (JArray items)) ->
  (forall props, Forall (fun kv => P (snd kv)) props -> P (JObject props)) ->
  forall v, P v.
Proof.
  intros Hnull Hbool Hnum Hstr Harr Hobj.
  fix IH 1. intros [| b | x | s | items | props].
  - exact Hnull.
  - apply Hbool.
  - apply Hnum.
  - apply Hstr.
  - apply Harr. induction items as [|v items IHitems]; constructor;
      [apply IH | exact IHitems].
  - apply Hobj. induction props as [|[k v] props IHprops]; constructor;
      [apply IH | exact IHprops].
Qed.

Lemma reads_back_lex (x : number) :
  reads_back x = true -> lex_number (toString x) = Some (x, []).
Proof.
  unfold reads_back. destruct (lex_number (toString x)) as [[y [|c r]]|];
    try discriminate.
  intros H. now rewrite (number_eqb_eq _ _ H).
Qed.

Lemma skip_ws_starts_value (c : code) (s : jsstring) :
  starts_value c = true -> skip_ws (c :: s) = c :: s.
Proof.
  unfold starts_value. intros H. apply andb_true_iff in H as [H _].
  apply andb_true_iff in H as [H _]. apply negb_true_iff in H.
  simpl. now rewrite H.
Qed.

Lemma skip_ws_spaces (n : nat) (s : jsstring) : skip_ws (repeat 32 n ++ s) = skip_ws s.
Proof. induction n as [|n IH]; [reflexivity | exact IH]. Qed.

Lemma skip_ws_newline_indent (n : nat) (s : jsstring) :
  skip_ws (newline_indent n ++ s) = skip_ws s.
Proof. unfold newline_indent. cbn [app]. apply (skip_ws_spaces n s). Qed.

Lemma parse_value_ws (fuel : nat) (s s' : jsstring) :
  skip_ws s = skip_ws s' -> parse_value fuel s = parse_value fuel s'.
Proof. intros H. destruct fuel; [reflexivity|]. cbn [parse_value]. now rewrite H. Qed.

Lemma parse_value_newline_indent (fuel n : nat) (s : jsstring) :
  parse_value fuel (newline_indent n ++ s) = parse_value fuel s.
Proof.
  apply parse_value_ws. rewrite skip_ws_newline_indent.
  reflexivity.
Qed.

Lemma parse_value_space (fuel : nat) (s : jsstring) :
  parse_value fuel (32 :: s) = parse_value fuel s.
Proof. now apply parse_value_ws. Qed.

Lemma number_start (c : code) :
  c = 45 \/ is_digit c = true ->
  is_json_ws c = false /\ (c =? lbrace) = false /\ (c =? lbracket) = false
  /\ (c =? quotation) = false /\ (c =? 110) = false /\ (c =? 116) = false
  /\ (c =? 102) = false /\ starts_value c = true.
Proof.
  intros H.
  assert (Hc : c = 45 \/ 48 <= c <= 57).
  { destruct H as [H|H]; [now left | right]. unfold is_digit in H.
    apply andb_true_iff in H as [H1 H2]. apply N.leb_le in H1, H2. lia. }
  unfold starts_value, is_json_ws, lbrace, lbracket, rbracket, rbrace, quotation.
  assert (T : forall k, c <> k -> (c =? k) = false) by (intros k; apply N.eqb_neq).
  rewrite !T by lia. repeat split.
Qed.

Lemma parse_value_number (fuel : nat) (c : code) (s rest : jsstring) (x : number) :
  c = 45 \/ is_digit c = true ->
  lex_number (c :: s) = Some (x, rest) ->
  parse_value (S fuel) (c :: s) = Some (JNumber x, rest).
Proof.
  intros Hc Hlex.
  destruct (number_start c Hc) as (Hws & H1 & H2 & H3 & H4 & H5 & H6 & _).
  cbn [parse_value skip_ws]. rewrite Hws, H1, H2, H3, H4, H5, H6, Hlex. reflexivity.
Qed.

Lemma parse_value_string (fuel : nat) (s rest : jsstring) :
  parse_value (S fuel) (quote s ++ rest) = Some (JString s, rest).
Proof.
  unfold quote. cbn [app]. rewrite <- app_assoc. cbn [app].
  change (parse_value (S fuel) (quotation :: quote_units s ++ quotation :: rest))
    with (match lex_string (quote_units s ++ quotation :: rest) with
          | Some (str, rest') => Some (JString str, rest')
          | None => None
          end).
  now rewrite lex_string_quote_units.
Qed.

(** How the text of a stable value starts. *)
Lemma serialize_head (indent : nat) (v : json) :
  stable v = true ->
  exists c s, serialize indent v = c :: s /\ starts_value c = true.
Proof.
  destruct v as [| [|] | x | str | items | props]; intros Hst;
    try (eexists; eexists; split; [reflexivity | reflexivity]).
  - cbn [stable] in Hst. apply andb_true_iff in Hst as [Hfin Hrb].
    cbn [serialize]. rewrite Hfin.
    destruct (lex_number_head _ _ _ (reads_back_lex x Hrb)) as (c & s & E & Hc).
    exists c, s. split; [exact E|]. now apply number_start.
  - cbn [serialize]. destruct (List.map _ items);
      eexists; eexists; split; reflexivity.
  - cbn [serialize]. destruct (List.map _ props);
      eexists; eexists; split; reflexivity.
Qed.

Lemma join_with_app (sep p : jsstring) (ps : list jsstring) (t : jsstring) :
  join_with sep (p :: ps) ++ t
  = p ++ match ps with
         | [] => t
         | _ :: _ => sep ++ join_with sep ps ++ t
         end.
Proof.
  destruct ps as [|q ps]; [reflexivity|].
  cbn [join_with]. now rewrite <- !app_assoc.
Qed.

Lemma ends_number_newline (n : nat) (s : jsstring) :
  ends_number (newline_indent n ++ s) = true.
Proof. reflexivity. Qed.

Lemma ordered_keys_prefix (a b : list jsstring) :
  ordered_keys (a ++ b) = true -> ordered_keys a = true.
Proof.
  induction a as [|k a IH]; [reflexivity|].
  cbn [app ordered_keys]. rewrite forallb_app. intros H.
  apply andb_true_iff in H as [H1 H2]. apply andb_true_iff in H1 as [H1 _].
  now rewrite H1, IH.
Qed.

Section Loops.
Variables (fuel0 indent : nat).

Lemma parse_elements_serialized (items : list json) (rest : jsstring) :
  items <> [] -> Forall (read_back fuel0 indent) items ->
  forall fuel, (List.length items <= fuel)%nat ->
  parse_elements (parse_value fuel0) fuel
    (newline_indent (2 + indent)
     ++ join_with (separator indent) (List.map (serialize (2 + indent)) items)
     ++ newline_indent indent ++ rbracket :: rest)
  = Some (items, rest).
Proof.
  induction items as [|x xs IH]; [intros H; now elim H|].
  intros _ Hall fuel Hfuel. inversion Hall as [|? ? Hx Hxs]; subst.
  destruct fuel as [|fuel]; [simpl in Hfuel; lia|].
  cbn [List.map]. rewrite join_with_app.
  cbn [parse_elements]. rewrite parse_value_newline_indent.
  destruct xs as [|y ys].
  - cbn [List.map]. rewrite (Hx _ (ends_number_newline indent _)).
    rewrite skip_ws_newline_indent. reflexivity.
  - cbn [List.map]. unfold separator at 1.
    rewrite <- app_comm_cons.
    rewrite (Hx (comma :: _) eq_refl).
    change (skip_ws (comma :: ?s)) with (comma :: s).
    cbv iota. rewrite (N.eqb_refl comma).
    change (serialize (2 + indent) y :: List.map (serialize (2 + indent)) ys)
      with (List.map (serialize (2 + indent)) (y :: ys)).
    rewrite (IH ltac:(discriminate) Hxs fuel ltac:(simpl in Hfuel |- *; lia)).
    reflexivity.
Qed.

Lemma parse_members_serialized (props : object json) (rest : jsstring) :
  props <> [] -> Forall (fun kv => read_back fuel0 indent (snd kv)) props ->
  forall acc fuel,
    ordered (acc ++ props) = true -> (List.length props <= fuel)%nat ->
    parse_members (parse_value fuel0) fuel
      (newline_indent (2 + indent)
       ++ join_with (separator indent) (List.map (member indent) props)
       ++ newline_indent indent ++ rbrace :: rest) acc
    = Some (acc ++ props, rest).
Proof.
  induction props as [|[k v] ps IH]; [intros H; now elim H|].
  intros _ Hall acc fuel Hord Hfuel. inversion Hall as [|? ? Hv Hps]; subst.
  cbn [snd] in Hv.
  destruct fuel as [|fuel]; [simpl in Hfuel; lia|].
  assert (Hdef : obj_define acc k v = acc ++ [(k, v)]).
  { apply obj_define_last. unfold ordered in *.
    apply ordered_keys_prefix with (b := List.map fst ps).
    rewrite <- map_app, <- app_assoc. exact Hord. }
  cbn [List.map]. rewrite join_with_app.
  cbn [parse_members]. rewrite skip_ws_newline_indent.
  unfold member at 1. cbn [fst snd]. unfold quote. cbn [app].
  rewrite <- !app_assoc. cbn [app skip_ws is_json_ws quotation N.eqb Pos.eqb orb].
  change (quotation =? quotation) with true. cbv iota.
  rewrite lex_string_quote_units.
  change (js ": ") with [colon; 32]. cbn [app].
  change (skip_ws (colon :: ?s)) with (colon :: s).
  cbv iota. rewrite (N.eqb_refl colon), parse_value_space.
  destruct ps as [|p ps']; cbn [List.map]; cbv iota.
  - rewrite (Hv _ (ends_number_newline indent _)).
    rewrite skip_ws_newline_indent, Hdef. reflexivity.
  - unfold separator at 1. rewrite <- app_comm_cons.
    rewrite (Hv (comma :: _) eq_refl).
    change (skip_ws (comma :: ?s)) with (comma :: s).
    cbv iota. rewrite (N.eqb_refl comma), Hdef.
    change (member indent p :: List.map (member indent) ps')
      with (List.map (member indent) (p :: ps')).
    rewrite (IH ltac:(discriminate) Hps (acc ++ [(k, v)]) fuel).
    + now rewrite <- app_assoc.
    + now rewrite <- app_assoc.
    + simpl in Hfuel |- *. lia.
Qed.

End Loops.

Lemma weight_in_sum {A : Type} (f : A -> nat) (items : list A) (v : A) :
  In v items -> (f v <= list_sum (List.map f items))%nat.
Proof.
  induction items as [|x xs IH]; [intros []|].
  intros [->|H]; simpl; [lia|]. specialize (IH H). lia.
Qed.

Lemma weight_pos (v : json) : (1 <= weight v)%nat.
Proof. destruct v; simpl; lia. Qed.

Lemma length_le_sum {A : Type} (f : A -> nat) (l : list A) :
  (forall a, 1 <= f a)%nat -> (List.length l <= list_sum (List.map f l))%nat.
Proof.
  intros Hf. induction l as [|a l IH]; simpl; [lia|]. specialize (Hf a). lia.
Qed.

(** A stable, well-formed value is read back from its text, whatever the
    indentation, in front of anything that does not continue a number. *)
Lemma parse_value_serialize (v : json) :
  stable v = true -> well_formed v = true ->
  forall indent fuel rest,
    (weight v < fuel)%nat -> ends_number rest = true ->
    parse_value fuel (serialize indent v ++ rest) = Some (v, rest).
Proof.
  induction v as [| b | x | str | items IH | props IH] using json_ind;
    intros Hst Hwf indent fuel rest Hfuel Hrest;
    (destruct fuel as [|fuel]; [lia|]).
  - reflexivity.
  - destruct b; reflexivity.
  - cbn [stable] in Hst. apply andb_true_iff in Hst as [Hfin Hrb].
    cbn [serialize]. rewrite Hfin.
    pose proof (reads_back_lex x Hrb) as Hlex.
    destruct (lex_number_head _ _ _ Hlex) as (c & s & E & Hc).
    rewrite E in *. apply parse_value_number; [exact Hc|].
    exact (lex_number_app (c :: s) [] rest x Hlex Hrest).
  - apply parse_value_string.
  - destruct items as [|x xs]; [reflexivity|].
    cbn [stable] in Hst. cbn [well_formed] in Hwf. cbn [weight] in Hfuel.
    assert (Hall : Forall (read_back fuel indent) (x :: xs)).
    { rewrite Forall_forall in IH |- *. intros v Hin rest' Hrest'.
      rewrite forallb_forall in Hst, Hwf.
      apply IH; auto.
      pose proof (weight_in_sum weight (x :: xs) v Hin). lia. }
    destruct (serialize_head (2 + indent) x) as (c & s & E & Hc).
    { rewrite forallb_forall in Hst. apply Hst. now left. }
    change (serialize indent (JArray (x :: xs)))
      with (lbracket :: (newline_indent (2 + indent)
              ++ join_with (separator indent)
                   (List.map (serialize (2 + indent)) (x :: xs))
              ++ newline_indent indent ++ [rbracket])).
    cbn [app]. rewrite <- !app_assoc. cbn [app].
    assert (Hloop : parse_elements (parse_value fuel) fuel
                      (newline_indent (2 + indent)
                       ++ join_with (separator indent)
                            (List.map (serialize (2 + indent)) (x :: xs))
                       ++ newline_indent indent ++ rbracket :: rest)
                    = Some (x :: xs, rest)).
    { apply parse_elements_serialized; [discriminate | exact Hall |].
      pose proof (length_le_sum weight (x :: xs) weight_pos). lia. }
    remember (newline_indent (2 + indent)
              ++ join_with (separator indent)
                   (List.map (serialize (2 + indent)) (x :: xs))
              ++ newline_indent indent ++ rbracket :: rest) as text eqn:Et.
    assert (Hskip : exists s', skip_ws text = c :: s').
    { eexists. rewrite Et, skip_ws_newline_indent. cbn [List.map].
      rewrite join_with_app, E. cbn [app]. now apply skip_ws_starts_value. }
    destruct Hskip as [s' Hskip].
    cbn [parse_value]. change (skip_ws (lbracket :: text)) with (lbracket :: text).
    cbv iota. change (lbracket =? lbrace) with false.
    rewrite (N.eqb_refl lbracket). cbv iota. rewrite Hskip, Hloop.
    unfold starts_value in Hc. apply andb_true_iff in Hc as [Hc _].
    apply andb_true_iff in Hc as [_ Hc]. apply negb_true_iff in Hc. rewrite Hc.
    reflexivity.
  - destruct props as [|[k v] ps]; [reflexivity|].
    cbn [stable] in Hst. cbn [well_formed] in Hwf. cbn [weight] in Hfuel.
    apply andb_true_iff in Hwf as [Hord Hwf].
    assert (Hall : Forall (fun kv => read_back fuel indent (snd kv)) ((k, v) :: ps)).
    { rewrite Forall_forall in IH |- *. intros kv Hin rest' Hrest'.
      rewrite forallb_forall in Hst, Hwf.
      apply IH; auto.
      pose proof (weight_in_sum (fun kv => weight (snd kv)) ((k, v) :: ps) kv Hin).
      cbn beta in *. lia. }
    change (serialize indent (JObject ((k, v) :: ps)))
      with (lbrace :: (newline_indent (2 + indent)
              ++ join_with (separator indent)
                   (List.map (member indent) ((k, v) :: ps))
              ++ newline_indent indent ++ [rbrace])).
    cbn [app]. rewrite <- !app_assoc. cbn [app].
    assert (Hloop : parse_members (parse_value fuel) fuel
                      (newline_indent (2 + indent)
                       ++ join_with (separator indent)
                            (List.map (member indent) ((k, v) :: ps))
                       ++ newline_indent indent ++ rbrace :: rest) []
                    = Some ((k, v) :: ps, rest)).
    { apply (parse_members_serialized fuel indent ((k, v) :: ps) rest
               ltac:(discriminate) Hall [] fuel Hord).
      pose proof (length_le_sum (fun kv : jsstring * json => weight (snd kv))
                    ((k, v) :: ps) (fun kv => weight_pos (snd kv))).
      lia. }
    remember (newline_indent (2 + indent)
              ++ join_with (separator indent)
                   (List.map (member indent) ((k, v) :: ps))
              ++ newline_indent indent ++ rbrace :: rest) as text eqn:Et.
    assert (Hskip : exists s', skip_ws text = quotation :: s').
    { eexists. rewrite Et, skip_ws_newline_indent. cbn [List.map].
      rewrite join_with_app. unfold member at 1, quote. cbn [app]. reflexivity. }
    destruct Hskip as [s' Hskip].
    cbn [parse_value]. change (skip_ws (lbrace :: text)) with (lbrace :: text).
    cbv iota. rewrite (N.eqb_refl lbrace). cbv iota. rewrite Hskip, Hloop.
    reflexivity.
Qed.

(** The text of a stable value is at least as long as the value is large:
    the fuel [JSON.parse] gives itself is enough. *)
Lemma length_join_with (sep : jsstring) (parts : list jsstring) :
  (list_sum (List.map (@List.length code) parts) <= List.length (join_with sep parts))%nat.
Proof.
  induction parts as [|p ps IH]; [simpl; lia|].
  destruct ps as [|q ps]; [simpl; lia|].
  change (join_with sep (p :: q :: ps)) with (p ++ sep ++ join_with sep (q :: ps)).
  change (List.map (@List.length code) (p :: q :: ps))
    with (List.length p :: List.map (@List.length code) (q :: ps)).
  change (list_sum (List.length p :: ?l)) with (List.length p + list_sum l)%nat.
  rewrite !length_app. lia.
Qed.

Lemma list_sum_le {A : Type} (f g : A -> nat) (l : list A) :
  Forall (fun a => f a <= g a)%nat l ->
  (list_sum (List.map f l) <= list_sum (List.map g l))%nat.
Proof. induction 1; simpl; lia. Qed.

Lemma weight_le_length (v : json) :
  stable v = true ->
  forall indent, (weight v <= List.length (serialize indent v))%nat.
Proof.
  induction v as [| b | x | str | items IH | props IH] using json_ind;
    intros Hst indent.
  - simpl. lia.
  - destruct b; simpl; lia.
  - destruct (serialize_head indent (JNumber x) Hst) as (c & s & E & _).
    rewrite E. simpl. lia.
  - simpl. lia.
  - cbn [stable] in Hst. cbn [weight serialize].
    assert (Hsum : (list_sum (List.map weight items)
                    <= list_sum (List.map (@List.length code)
                                   (List.map (serialize (2 + indent)) items)))%nat).
    { rewrite map_map. apply list_sum_le. rewrite Forall_forall in IH |- *.
      intros v Hin. apply IH; [exact Hin|]. rewrite forallb_forall in Hst. now apply Hst. }
    pose proof (length_join_with (comma :: newline_indent (2 + indent))
                  (List.map (serialize (2 + indent)) items)) as Hj.
    destruct (List.map (serialize (2 + indent)) items) eqn:Em.
    + simpl in *. lia.
    + rewrite !length_app. cbn [List.length js List.map list_ascii_of_string]. lia.
  - cbn [stable] in Hst. cbn [weight serialize].
    assert (Hsum : (list_sum (List.map (fun kv => weight (snd kv)) props)
                    <= list_sum (List.map (@List.length code)
                                   (List.map (fun kv => quote (fst kv) ++ js ": "
                                                        ++ serialize (2 + indent) (snd kv))
                                             props)))%nat).
    { rewrite map_map. apply list_sum_le. rewrite Forall_forall in IH |- *.
      intros kv Hin. rewrite !length_app.
      specialize (IH kv Hin). rewrite forallb_forall in Hst.
      specialize (IH (Hst kv Hin) (2 + indent)%nat). lia. }
    pose proof (length_join_with (comma :: newline_indent (2 + indent))
                  (List.map (fun kv => quote (fst kv) ++ js ": "
                                       ++ serialize (2 + indent) (snd kv)) props)) as Hj.
    destruct (List.map (fun kv => quote (fst kv) ++ js ": "
                                  ++ serialize (2 + indent) (snd kv)) props) eqn:Em.
    + simpl in *. lia.
    + rewrite !length_app. cbn [List.length js List.map list_ascii_of_string]. lia.
Qed.

(** Parsing what [JSON.stringify (v, null, 2)] wrote gives [v] back. *)
Theorem parse_stringify (v : json) :
  stable v = true -> well_formed v = true -> parse (stringify v) = Some v.
Proof.
  intros Hst Hwf. unfold parse, stringify.
  pose proof (parse_value_serialize v Hst Hwf 0%nat
                (S (List.length (serialize 0 v))) [] ) as H.
  rewrite app_nil_r in H. rewrite H; [reflexivity | | reflexivity].
  pose proof (weight_le_length v Hst 0%nat). lia.
Qed.

(** *** What [JSON.parse] returns is well formed *)

Section Values.
Variables (V : Type) (P : V -> bool).

Lemma forallb_define (o : object V) (k : jsstring) (v : V) :
  forallb (fun kv => P (snd kv)) o = true -> P v = true ->
  forallb (fun kv => P (snd kv)) (obj_define o k v) = true.
Proof.
  intros Ho Hv. unfold obj_define. destruct (obj_has o k).
  - induction o as [|[k' v'] o IH]; [reflexivity|].
    cbn [forallb snd] in Ho. apply andb_true_iff in Ho as [H1 H2].
    cbn [obj_update]. destruct (JsString.eqb k' k); cbn [forallb snd].
    + now rewrite Hv, H2.
    + now rewrite H1, IH.
  - destruct (array_index k) as [n|].
    + induction o as [|[k' v'] o IH]; [simpl; now rewrite Hv|].
      cbn [forallb snd] in Ho. apply andb_true_iff in Ho as [H1 H2].
      cbn [obj_insert_index].
      destruct (array_index k') as [n'|]; [destruct (n <? n')|];
        cbn [forallb snd]; rewrite ?Hv, ?H1, ?H2, ?IH; auto.
    + rewrite forallb_app. simpl. now rewrite Ho, Hv.
Qed.

End Values.

Section Parsed.
Variable pv : jsstring -> option (json * jsstring).
Hypothesis pv_well_formed : forall s v r, pv s = Some (v, r) -> well_formed v = true.

Lemma parse_elements_well_formed (fuel : nat) :
  forall s items rest,
    parse_elements pv fuel s = Some (items, rest) ->
    forallb well_formed items = true.
Proof.
  induction fuel as [|fuel IH]; intros s items rest; [discriminate|].
  cbn [parse_elements].
  destruct (pv s) as [[v r]|] eqn:Ev; [|discriminate].
  destruct (skip_ws r) as [|c r']; [discriminate|].
  destruct (c =? comma).
  - destruct (parse_elements pv fuel r') as [[vs r'']|] eqn:El; [|discriminate].
    intros H. injection H as <- <-. cbn [forallb].
    now rewrite (pv_well_formed _ _ _ Ev), (IH _ _ _ El).
  - destruct (c =? rbracket); [|discriminate].
    intros H. injection H as <- <-. cbn [forallb].
    now rewrite (pv_well_formed _ _ _ Ev).
Qed.

Lemma parse_members_well_formed (fuel : nat) :
  forall s acc props rest,
    ordered acc = true ->
    forallb (fun kv => well_formed (snd kv)) acc = true ->
    parse_members pv fuel s acc = Some (props, rest) ->
    ordered props = true /\ forallb (fun kv => well_formed (snd kv)) props = true.
Proof.
  induction fuel as [|fuel IH]; intros s acc props rest Ho Hw; [discriminate|].
  cbn [parse_members].
  destruct (skip_ws s) as [|q s1]; [discriminate|].
  destruct (q =? quotation); [|discriminate].
  destruct (lex_string s1) as [[key s2]|]; [|discriminate].
  destruct (skip_ws s2) as [|c s3]; [discriminate|].
  destruct (c =? colon); [|discriminate].
  destruct (pv s3) as [[v r]|] eqn:Ev; [|discriminate].
  pose proof (ordered_define _ acc key v Ho) as Ho'.
  pose proof (forallb_define _ well_formed acc key v Hw (pv_well_formed _ _ _ Ev)) as Hw'.
  destruct (skip_ws r) as [|d r']; [discriminate|].
  destruct (d =? comma); [now apply IH|].
  destruct (d =? rbrace); [|discriminate].
  intros H. injection H as <- <-. now split.
Qed.

End Parsed.

Lemma parse_value_well_formed (fuel : nat) :
  forall s v rest, parse_value fuel s = Some (v, rest) -> well_formed v = true.
Proof.
  induction fuel as [|fuel IH]; intros s v rest; [discriminate|].
  cbn [parse_value].
  destruct (skip_ws s) as [|c s1]; [discriminate|].
  destruct (c =? lbrace).
  { destruct (skip_ws s1) as [|d s2]; [discriminate|].
    destruct (d =? rbrace); [intros H; now injection H as <- <-|].
    destruct (parse_members (parse_value fuel) fuel s1 []) as [[props r]|] eqn:Em;
      [|discriminate].
    intros H. injection H as <- <-.
    destruct (parse_members_well_formed _ IH fuel s1 [] props r eq_refl eq_refl Em)
      as [Ho Hw].
    cbn [well_formed]. now rewrite Ho, Hw. }
  destruct (c =? lbracket).
  { destruct (skip_ws s1) as [|d s2]; [discriminate|].
    destruct (d =? rbracket); [intros H; now injection H as <- <-|].
    destruct (parse_elements (parse_value fuel) fuel s1) as [[items r]|] eqn:El;
      [|discriminate].
    intros H. injection H as <- <-.
    exact (parse_elements_well_formed _ IH fuel s1 items r El). }
  destruct (c =? quotation).
  { destruct (lex_string s1) as [[str r]|]; [|discriminate].
    intros H. now injection H as <- <-. }
  destruct (c =? 110).
  { destruct (strip_prefix (js "ull") s1); [|discriminate].
    intros H. now injection H as <- <-. }
  destruct (c =? 116).
  { destruct (strip_prefix (js "rue") s1); [|discriminate].
    intros H. now injection H as <- <-. }
  destruct (c =? 102).
  { destruct (strip_prefix (js "alse") s1); [|discriminate].
    intros H. now injection H as <- <-. }
  destruct (lex_number (c :: s1)) as [[x r]|] eqn:Ex; [|discriminate].
  intros H. injection H as <- <-. exact (lex_number_binary64 _ _ _ Ex).
Qed.

(** A value [JSON.parse] returned is a value of the language. *)
Lemma parse_well_formed (text : jsstring) (v : json) :
  parse text = Some v -> well_formed v = true.
Proof.
  unfold parse.
  destruct (parse_value (S (List.length text)) text) as [[v' r]|] eqn:E; [|discriminate].
  destruct (skip_ws r); [|discriminate].
  intros H. injection H as <-. exact (parse_value_well_formed _ _ _ _ E).
Qed.

(** *** Finite numbers are stable *)

Lemma reads_back_exact (x : number) :
  is_binary64 x = true -> printed_exactly x = true ->
  is_finite x && reads_back x = true.
Proof.
  destruct x as [[|]|s| |s m e]; cbn [is_binary64 printed_exactly is_finite];
    try discriminate; intros Hv _.
  - reflexivity.
  - now rewrite (reads_back_finite s m e Hv).
Qed.

Lemma exact_numbers_stable (v : json) :
  well_formed v = true -> exact_numbers v = true -> stable v = true.
Proof.
  induction v as [| b | x | s | items IH | props IH] using json_ind;
    try reflexivity.
  - exact (reads_back_exact x).
  - cbn [well_formed exact_numbers stable].
    induction IH as [|v items Hv _ IHitems]; [reflexivity|].
    cbn [forallb]. intros Hwf Hex.
    apply andb_true_iff in Hwf as [Hwf Hwfs].
    apply andb_true_iff in Hex as [Hex Hexs].
    now rewrite (Hv Hwf Hex), (IHitems Hwfs Hexs).
  - cbn [well_formed exact_numbers stable]. intros Hwf.
    apply andb_true_iff in Hwf as [_ Hwf]. revert Hwf.
    induction IH as [|kv props Hv _ IHprops]; [reflexivity|].
    cbn [forallb]. intros Hwf Hex.
    apply andb_true_iff in Hwf as [Hwf Hwfs].
    apply andb_true_iff in Hex as [Hex Hexs].
    now rewrite (Hv Hwf Hex), (IHprops Hwfs Hexs).
Qed.

(** Parsing what [JSON.stringify (v, null, 2)] wrote for a value of the
    language without an infinity, a NaN or a negative zero gives the value
    back. *)
Theorem parse_stringify_exact (v : json) :
  well_formed v = true -> exact_numbers v = true -> parse (stringify v) = Some v.
Proof.
  intros Hwf Hex. apply parse_stringify; [|exact Hwf].
  now apply exact_numbers_stable.
Qed.

End JsonValues.

(** ** What the printed text denotes *)

Module PrintedValues.
Import StringFacts ObjectFacts HandlerFacts JsonValues.

Lemma serialize_printed_value (v : json) :
  forall indent, serialize indent (printed_value v) = serialize indent v.
Proof.
  induction v as [| b | x | s | items IH | props IH] using json_ind; intros indent;
    try reflexivity.
  - now destruct x as [[|]|[|]| |].
  - cbn [printed_value serialize]. rewrite map_map.
    assert (E : List.map (fun v => serialize (2 + indent) (printed_value v)) items
                = List.map (serialize (2 + indent)) items).
    { induction IH as [|v items Hv _ IHitems]; [reflexivity|].
      cbn [List.map]. now rewrite Hv, IHitems. }
    now rewrite E.
  - cbn [printed_value serialize]. rewrite map_map. cbn [fst snd].
    assert (E : List.map (fun kv => quote (fst kv) ++ js ": "
                                    ++ serialize (2 + indent) (printed_value (snd kv)))
                         props
                = List.map (fun kv => quote (fst kv) ++ js ": "
                                      ++ serialize (2 + indent) (snd kv)) props).
    { induction IH as [|kv props Hv _ IHprops]; [reflexivity|].
      cbn [List.map]. now rewrite Hv, IHprops. }
    now rewrite E.
Qed.

Lemma well_formed_printed_value (v : json) :
  well_formed v = true -> well_formed (printed_value v) = true.
Proof.
  induction v as [| b | x | s | items IH | props IH] using json_ind;
    try (intros; reflexivity).
  - now destruct x as [[|]|[|]| |].
  - cbn [printed_value well_formed].
    induction IH as [|v items Hv _ IHitems]; [reflexivity|].
    cbn [List.map forallb]. intros H. apply andb_true_iff in H as [H1 H2].
    now rewrite (Hv H1), (IHitems H2).
  - cbn [printed_value well_formed]. intros H. apply andb_true_iff in H as [Ho Hw].
    apply andb_true_iff. split.
    + unfold ordered in *. rewrite map_map. cbn [fst]. exact Ho.
    + clear Ho. induction IH as [|kv props Hv _ IHprops]; [reflexivity|].
      cbn [List.map forallb snd] in *. apply andb_true_iff in Hw as [H1 H2].
      now rewrite (Hv H1), (IHprops H2).
Qed.

Lemma exact_numbers_printed_value (v : json) : exact_numbers (printed_value v) = true.
Proof.
  induction v as [| b | x | s | items IH | props IH] using json_ind; try reflexivity.
  - now destruct x as [[|]|[|]| |].
  - cbn [printed_value exact_numbers].
    induction IH as [|v items Hv _ IHitems]; [reflexivity|].
    cbn [List.map forallb]. now rewrite Hv, IHitems.
  - cbn [printed_value exact_numbers].
    induction IH as [|kv props Hv _ IHprops]; [reflexivity|].
    cbn [List.map forallb snd]. now rewrite Hv, IHprops.
Qed.

Lemma printed_value_exact (v : json) : exact_numbers v = true -> printed_value v = v.
Proof.
  induction v as [| b | x | s | items IH | props IH] using json_ind;
    try (intros; reflexivity).
  - destruct x as [[|]|[|]| |]; try discriminate; reflexivity.
  - cbn [printed_value exact_numbers]. intros H. f_equal.
    induction IH as [|v items Hv _ IHitems]; [reflexivity|].
    cbn [List.map forallb] in *. apply andb_true_iff in H as [H1 H2].
    now rewrite (Hv H1), (IHitems H2).
  - cbn [printed_value exact_numbers]. intros H. f_equal.
    induction IH as [|[k v] props Hv _ IHprops]; [reflexivity|].
    cbn [List.map forallb fst snd] in *. apply andb_true_iff in H as [H1 H2].
    now rewrite (Hv H1), (IHprops H2).
Qed.

(** Parsing what [JSON.stringify (v, null, 2)] wrote always succeeds. *)
Lemma parse_stringify_printed_value (v : json) :
  well_formed v = true -> parse (stringify v) = Some (printed_value v).
Proof.
  intros Hwf. unfold stringify. rewrite <- (serialize_printed_value v 0).
  apply (parse_stringify_exact (printed_value v)).
  - now apply well_formed_printed_value.
  - apply exact_numbers_printed_value.
Qed.

Lemma client_data_parsed (body : jsstring) (v : json) :
  parse body = Some v -> client_data body = v.
Proof. intros H. unfold client_data. now rewrite H. Qed.

Lemma client_data_text (body : jsstring) :
  parse body = None -> client_data body = JString body.
Proof. intros H. unfold client_data. now rewrite H. Qed.

Lemma printed_as_json_printed_value (v : json) :
  printed_as_json v = true -> printed_as_json (printed_value v) = true.
Proof. destruct v as [| b | [s|s| |s m e] | s | items | props]; try discriminate; reflexivity. Qed.

Lemma primitive_text_printed_value (v : json) :
  primitive_text v = None -> primitive_text (printed_value v) = None.
Proof. destruct v; try discriminate; reflexivity. Qed.

Lemma primitive_text_stringify (v : json) (text : jsstring) :
  printed_as_json v = true -> primitive_text v = Some text -> text = stringify v.
Proof.
  destruct v as [| b | x | s | items | props]; try discriminate;
    cbn [printed_as_json primitive_text]; intros Hf H; injection H as <-;
    try reflexivity.
  unfold stringify. cbn [serialize]. now rewrite Hf.
Qed.

(** A decoded value that is not a string or an infinite number is printed
    as [JSON.stringify (v, null, 2)]: an array or an object whatever the
    content type, the others under a JSON content type. *)
Lemma print_body_decoded (r : response) (v : json) :
  resp_data r = v -> well_formed v = true -> printed_as_json v = true ->
  isJsonHeader r = true \/ primitive_text v = None ->
  print_body r = [(Stdout, [Highlight (stringify v)])].
Proof.
  intros Hd Hwf Hp Hj. unfold print_body. rewrite Hd.
  destruct (primitive_text v) as [text|] eqn:Et; [|reflexivity].
  destruct Hj as [Hj|Hj]; [|discriminate]. rewrite Hj.
  rewrite (primitive_text_stringify v text Hp Et).
  rewrite (parse_stringify_printed_value v Hwf).
  unfold stringify. now rewrite serialize_printed_value.
Qed.

Lemma exact_numbers_printed_as_json (v : json) :
  (forall s, v <> JString s) -> exact_numbers v = true -> printed_as_json v = true.
Proof.
  destruct v as [| b | [s|s| |s m e] | s | items | props]; try reflexivity;
    try discriminate.
  intros H _. now destruct (H s).
Qed.

End PrintedValues.

Module BodyClaims.
Import HandlerFacts JsonValues PrintedValues.

(** C2 (amended).  A response whose body is valid JSON text for anything
    but a string, whose [content-type] contains [application/json], and in
    whose value every number is finite and is not the negative zero: the
    client hands the value over, the body is printed highlighted as
    [JSON.stringify (value, null, 2)], the JSON with two-space indentation,
    and parsing that text gives the value that parsing the body gives. *)
Theorem json_body_round_trip (r : response) (body contentType : jsstring) (v : json) :
  resp_data r = client_data body ->
  obj_get (resp_headers r) (js "content-type") = Some contentType ->
  includes (js "application/json") contentType = true ->
  parse body = Some v ->
  (forall s, v <> JString s) ->
  exact_numbers v = true ->
  print_body r = [(Stdout, [Highlight (stringify v)])]
  /\ parse (stringify v) = Some v.
Proof.
  intros Hd Hct Hin Hp Hs Hex.
  pose proof (parse_well_formed body v Hp) as Hwf.
  rewrite (client_data_parsed body v Hp) in Hd. split.
  - apply (print_body_decoded r v Hd Hwf).
    + now apply exact_numbers_printed_as_json.
    + left. apply isJsonHeader_spec. now exists contentType.
  - now apply parse_stringify_exact.
Qed.

Lemma json_body_witness :
  print_body (served (js "application/json; charset=utf-8") sample_body)
  = [(Stdout, [Highlight (stringify sample_value)])]
  /\ parse (stringify sample_value) = Some sample_value.
Proof.
  apply (json_body_round_trip (served (js "application/json; charset=utf-8") sample_body)
           sample_body (js "application/json; charset=utf-8") sample_value).
  - reflexivity.
  - reflexivity.
  - reflexivity.
  - vm_compute. reflexivity.
  - discriminate.
  - reflexivity.
Defined.

(** C2 as stated fails: a number too large for a binary64 decodes to
    Infinity, which is printed as [null]. *)
Lemma overflowing_number_is_not_read_back :
  parse (js "[1e400]") = Some (JArray [JNumber (S754_infinity false)])
  /\ print_body (served (js "application/json") (js "[1e400]"))
     = [(Stdout, [Highlight (stringify (JArray [JNull]))])]
  /\ parse (stringify (JArray [JNull])) = Some (JArray [JNull])
  /\ JArray [JNull] <> JArray [JNumber (S754_infinity false)].
Proof.
  repeat split; try (vm_compute; reflexivity). discriminate.
Qed.

(** Why the strings are left out: a body that is a JSON string is handed
    over as that string, which the handler parses once more; the string
    [123] comes out as the number [123]. *)
Lemma string_body_is_not_read_back :
  parse (dq ++ js "123" ++ dq) = Some (JString (js "123"))
  /\ print_body (served (js "application/json") (dq ++ js "123" ++ dq))
     = [(Stdout, [Highlight (js "123")])]
  /\ parse (js "123") = Some (JNumber (S754_finite false 8655355533852672 (-46)))
  /\ JNumber (S754_finite false 8655355533852672 (-46)) <> JString (js "123").
Proof.
  split; [vm_compute; reflexivity|]. split; [vm_compute; reflexivity|].
  split; [vm_compute; reflexivity|]. discriminate.
Qed.

(** The negative zero is a value of the language that is printed as [0]. *)
Example negative_zero_is_printed_as_zero :
  parse (js "-0") = Some (JNumber (S754_zero true))
  /\ stringify (JNumber (S754_zero true)) = js "0"
  /\ parse (js "0") = Some (JNumber (S754_zero false)).
Proof. repeat split; vm_compute; reflexivity. Qed.

(** The body the client decoded itself (an array or an object) is printed
    the same way, and is read back from what is printed when none of its
    numbers is an infinity, a NaN or the negative zero. *)
Theorem decoded_body_round_trip (r : response) :
  primitive_text (resp_data r) = None ->
  well_formed (resp_data r) = true -> exact_numbers (resp_data r) = true ->
  print_body r = [(Stdout, [Highlight (stringify (resp_data r))])]
  /\ parse (stringify (resp_data r)) = Some (resp_data r).
Proof.
  intros Hd Hwf Hex. split.
  - unfold print_body. now rewrite Hd.
  - now apply parse_stringify_exact.
Qed.

Lemma decoded_body_witness :
  print_body {| resp_status := 200; resp_statusText := js "OK"; resp_headers := [];
                resp_data := sample_value; resp_protocol := None |}
  = [(Stdout, [Highlight (stringify sample_value)])]
  /\ parse (stringify sample_value) = Some sample_value.
Proof.
  apply (decoded_body_round_trip
           {| resp_status := 200; resp_statusText := js "OK"; resp_headers := [];
              resp_data := sample_value; resp_protocol := None |}).
  - reflexivity.
  - vm_compute. reflexivity.
  - vm_compute. reflexivity.
Defined.

End BodyClaims.

(** ** More on the request *)

Module TrimFacts.

Lemma trimStart_idem (s : jsstring) : trimStart (trimStart s) = trimStart s.
Proof.
  induction s as [|c s IH]; [reflexivity|]. cbn [trimStart].
  destruct (is_white_space c) eqn:E; [exact IH|]. cbn [trimStart]. now rewrite E.
Qed.

Lemma trimStart_length (s : jsstring) : (List.length (trimStart s) <= List.length s)%nat.
Proof.
  induction s as [|c s IH]; [reflexivity|]. cbn [trimStart].
  destruct (is_white_space c); cbn [List.length]; lia.
Qed.

Lemma trimStart_fixed_head (c : code) (s : jsstring) :
  trimStart (c :: s) = c :: s -> is_white_space c = false.
Proof.
  cbn [trimStart]. destruct (is_white_space c); [|reflexivity].
  intros E. pose proof (trimStart_length s) as H. rewrite E in H.
  cbn [List.length] in H. lia.
Qed.

Lemma trimStart_suffix (s : jsstring) : exists w, s = w ++ trimStart s.
Proof.
  induction s as [|c s [w IH]]; [now exists []|]. cbn [trimStart].
  destruct (is_white_space c).
  - exists (c :: w). cbn [app]. now rewrite <- IH.
  - now exists [].
Qed.

(** What [trim] returns has no white space left at either end. *)
Lemma trim_idem (s : jsstring) : trim (trim s) = trim s.
Proof.
  unfold trim, trimEnd.
  set (t := trimStart s).
  assert (Ht : trimStart t = t) by apply trimStart_idem.
  assert (Hstart : trimStart (rev (trimStart (rev t))) = rev (trimStart (rev t))).
  { destruct (trimStart_suffix (rev t)) as [w Hw].
    destruct (rev (trimStart (rev t))) as [|c x] eqn:Er; [reflexivity|].
    assert (Et : t = c :: x ++ rev w).
    { rewrite <- (rev_involutive t), Hw, rev_app_distr, Er. reflexivity. }
    rewrite Et in Ht. apply trimStart_fixed_head in Ht.
    cbn [trimStart]. now rewrite Ht. }
  rewrite Hstart, rev_involutive, trimStart_idem. reflexivity.
Qed.

Lemma trimStart_white_prefix (s : jsstring) :
  exists w, s = w ++ trimStart s /\ forallb is_white_space w = true.
Proof.
  induction s as [|c s (w & IH & Hw)]; [now exists []|]. cbn [trimStart].
  destruct (is_white_space c) eqn:E.
  - exists (c :: w). cbn [app forallb]. rewrite E, Hw. split; [now rewrite <- IH | reflexivity].
  - now exists [].
Qed.

(** [trim] takes nothing but white space, and only from the two ends:
    the string is what [trim] returns with white space before and after,
    and trimming again changes nothing. *)
Theorem trim_removes_only_white_space (s : jsstring) :
  exists w1 w2,
    s = w1 ++ trim s ++ w2
    /\ forallb is_white_space w1 = true /\ forallb is_white_space w2 = true
    /\ trim (trim s) = trim s.
Proof.
  destruct (trimStart_white_prefix s) as (w1 & E1 & H1).
  destruct (trimStart_white_prefix (rev (trimStart s))) as (w2 & E2 & H2).
  exists w1, (rev w2). split; [|split; [exact H1|split; [|apply trim_idem]]].
  - unfold trim, trimEnd. rewrite <- rev_app_distr, <- E2, rev_involutive. exact E1.
  - apply forallb_forall. intros c Hc. apply in_rev in Hc.
    rewrite forallb_forall in H2. now apply H2.
Qed.


End TrimFacts.

Module DefineFacts.
Import StringFacts ObjectFacts ObjectOrder.

Section Invariant.
Variable V : Type.
Variable P : jsstring * V -> Prop.

Lemma Forall_update (o : object V) (k : jsstring) (v : V) :
  Forall P o -> P (k, v) -> Forall P (obj_update o k v).
Proof.
  intros Ho Hkv. induction Ho as [|[k' v'] o Hhd Htl IH]; [constructor|].
  cbn [obj_update]. destruct (JsString.eqb k' k) eqn:E.
  - apply eqb_eq in E. subst k'. now constructor.
  - now constructor.
Qed.

Lemma Forall_insert_index (o : object V) (n : N) (k : jsstring) (v : V) :
  Forall P o -> P (k, v) -> Forall P (obj_insert_index o n k v).
Proof.
  intros Ho Hkv. induction Ho as [|[k' v'] o Hhd Htl IH]; [now repeat constructor|].
  cbn [obj_insert_index]. destruct (array_index k') as [n'|].
  - destruct (n <? n')%N; now repeat constructor.
  - now repeat constructor.
Qed.

Lemma Forall_define (o : object V) (k : jsstring) (v : V) :
  Forall P o -> P (k, v) -> Forall P (obj_define o k v).
Proof.
  intros Ho Hkv. unfold obj_define. destruct (obj_has o k).
  - now apply Forall_update.
  - destruct (array_index k) as [n|].
    + now apply Forall_insert_index.
    + apply Forall_app. split; [exact Ho | now constructor].
Qed.

End Invariant.

Lemma Forall_assign (P : jsstring * jsstring -> Prop) (o : object jsstring)
      (k v : jsstring) :
  Forall P o -> P (k, v) -> Forall P (obj_assign o k v).
Proof.
  intros Ho Hkv. unfold obj_assign. destruct (JsString.eqb k proto_key); [exact Ho|].
  now apply Forall_define.
Qed.

Lemma ordered_assign (o : object jsstring) (k v : jsstring) :
  ordered o = true -> ordered (obj_assign o k v) = true.
Proof.
  intros Ho. unfold obj_assign. destruct (JsString.eqb k proto_key); [exact Ho|].
  now apply ordered_define.
Qed.

Lemma ordered_keys_NoDup (ks : list jsstring) : ordered_keys ks = true -> NoDup ks.
Proof.
  induction ks as [|k ks IH]; [constructor|]. cbn [ordered_keys]. intros H.
  apply andb_true_iff in H as [Hk Hks]. constructor; [|now apply IH].
  intros Hin. rewrite forallb_forall in Hk.
  now apply (precedes_distinct k k (Hk k Hin)).
Qed.

End DefineFacts.

Module RequestInvariants.
Import StringFacts ObjectFacts RequestFacts ObjectOrder TrimFacts DefineFacts.

(** Repeated [-H] flags are gathered in the order of the command line,
    none lost and none twice. *)
Theorem collected_in_order (values : list jsstring) : collected values = values.
Proof.
  unfold collected.
  assert (H : forall init, fold_left (fun previous value => collect value previous)
                                     values init = init ++ values).
  { induction values as [|v values IH]; intros init; cbn [fold_left].
    - now rewrite app_nil_r.
    - rewrite IH. unfold collect. now rewrite <- app_assoc. }
  exact (H []).
Qed.

Lemma header_callback_trimmed (headers : object jsstring) (h : jsstring) :
  Forall trimmed headers -> Forall trimmed (header_callback headers h).
Proof.
  intros H. unfold header_callback.
  destruct (split colon h) as [|key valueParts]; [exact H|].
  destruct (nonempty key && (0 <? List.length valueParts)%nat); [|exact H].
  apply Forall_assign; [exact H|]. split; apply trim_idem.
Qed.

Lemma parse_headers_trimmed (hs : list jsstring) : Forall trimmed (parse_headers hs).
Proof.
  unfold parse_headers.
  assert (H : forall headers, Forall trimmed headers ->
                              Forall trimmed (fold_left header_callback hs headers)).
  { induction hs as [|h hs IH]; intros headers Hh; [exact Hh|].
    cbn [fold_left]. apply IH. now apply header_callback_trimmed. }
  apply H. constructor.
Qed.

(** No header of the request has white space at either end of its name or
    of its value, whatever the flags were. *)
Theorem request_headers_trimmed (url : jsstring) (o : options) (k v : jsstring) :
  In (k, v) (cfg_headers (build_config url o)) -> trim k = k /\ trim v = v.
Proof.
  assert (H : Forall trimmed (cfg_headers (build_config url o))).
  { cbn [build_config cfg_headers]. unfold inject_content_type.
    destruct (truthy (unify_data o)
              && negb (truthy (obj_get (parse_headers (opt_header o)) (js "Content-Type")))
              && negb (truthy (obj_get (parse_headers (opt_header o)) (js "content-type")))).
    - apply Forall_assign; [apply parse_headers_trimmed|]. split; reflexivity.
    - apply parse_headers_trimmed. }
  intros Hin. rewrite Forall_forall in H. exact (H (k, v) Hin).
Qed.

Lemma request_headers_trimmed_witness :
  trim (js "X-Token") = js "X-Token" /\ trim (js "abc:def") = js "abc:def".
Proof.
  apply (request_headers_trimmed (js "http://localhost/")
           (with_header_and_data [js "  X-Token :  abc:def  "] None)).
  vm_compute. now left.
Defined.

Lemma parse_headers_ordered (hs : list jsstring) : ordered (parse_headers hs) = true.
Proof.
  unfold parse_headers.
  assert (H : forall headers, ordered headers = true ->
                              ordered (fold_left header_callback hs headers) = true).
  { induction hs as [|h hs IH]; intros headers Hh; [exact Hh|].
    cbn [fold_left]. apply IH. unfold header_callback.
    destruct (split colon h) as [|key valueParts]; [exact Hh|].
    destruct (nonempty key && (0 <? List.length valueParts)%nat); [|exact Hh].
    now apply ordered_assign. }
  now apply H.
Qed.

(** The request never carries the same header name twice: a name given by
    several flags is sent once. *)
Theorem request_header_names_distinct (url : jsstring) (o : options) :
  NoDup (List.map fst (cfg_headers (build_config url o))).
Proof.
  apply ordered_keys_NoDup. fold (ordered (cfg_headers (build_config url o))).
  cbn [build_config cfg_headers]. unfold inject_content_type.
  destruct (truthy (unify_data o)
            && negb (truthy (obj_get (parse_headers (opt_header o)) (js "Content-Type")))
            && negb (truthy (obj_get (parse_headers (opt_header o)) (js "content-type")))).
  - apply ordered_assign, parse_headers_ordered.
  - apply parse_headers_ordered.
Qed.

Lemma fold_headers_given (hs : list jsstring) :
  forall hs' headers,
    (forall h, In h hs' -> In h hs) ->
    Forall (fun kv => exists h, In h hs /\ given_by h kv) headers ->
    Forall (fun kv => exists h, In h hs /\ given_by h kv)
           (fold_left header_callback hs' headers).
Proof.
  induction hs' as [|h hs' IH]; intros headers Hsub Hh; [exact Hh|].
  cbn [fold_left]. apply IH; [intros h' Hin; apply Hsub; now right|].
  rewrite header_callback_first_colon.
  destruct (first_colon h) as [[before after]|] eqn:Ef; [|exact Hh].
  destruct (nonempty before); [|exact Hh].
  apply Forall_assign; [exact Hh|].
  apply first_colon_inv in Ef as [Eh Hn].
  exists h. split; [apply Hsub; now left|]. now exists before, after.
Qed.

(** No header is made up: every header of the request is given by one of
    the [-H] flags, as the trimmed texts around its first colon, or is the
    [Content-Type: application/json] added for a body. *)
Theorem request_headers_come_from_flags (url : jsstring) (o : options) (k v : jsstring) :
  In (k, v) (cfg_headers (build_config url o)) ->
  (exists h, In h (opt_header o) /\ given_by h (k, v))
  \/ (truthy (unify_data o) = true
      /\ k = js "Content-Type" /\ v = js "application/json").
Proof.
  cbn [build_config cfg_headers].
  pose proof (fold_headers_given (opt_header o) (opt_header o) []
                (fun h H => H) (Forall_nil _)) as Hparsed.
  fold (parse_headers (opt_header o)) in Hparsed.
  unfold inject_content_type.
  destruct (truthy (unify_data o)) eqn:Ed; cbn [andb].
  - destruct (negb (truthy (obj_get (parse_headers (opt_header o)) (js "Content-Type")))
              && negb (truthy (obj_get (parse_headers (opt_header o)) (js "content-type")))).
    + intros Hin.
      assert (H : Forall (fun kv => (exists h, In h (opt_header o) /\ given_by h kv)
                                    \/ kv = (js "Content-Type", js "application/json"))
                         (obj_assign (parse_headers (opt_header o)) (js "Content-Type")
                                     (js "application/json"))).
      { apply Forall_assign; [|now right].
        apply (Forall_impl _ (fun kv H => or_introl H) Hparsed). }
      rewrite Forall_forall in H. destruct (H (k, v) Hin) as [Hg|E]; [now left|].
      right. injection E as -> ->. now repeat split.
    + intros Hin. left. rewrite Forall_forall in Hparsed. exact (Hparsed (k, v) Hin).
  - intros Hin. left. rewrite Forall_forall in Hparsed. exact (Hparsed (k, v) Hin).
Qed.

Lemma request_headers_come_from_flags_witness :
  (exists h, In h (opt_header (with_header_and_data [js "Accept : */*"] (Some (js "{}"))))
             /\ given_by h (js "Accept", js "*/*"))
  \/ (truthy (unify_data (with_header_and_data [js "Accept : */*"] (Some (js "{}")))) = true
      /\ js "Accept" = js "Content-Type" /\ js "*/*" = js "application/json").
Proof.
  apply (request_headers_come_from_flags (js "http://localhost/")
           (with_header_and_data [js "Accept : */*"] (Some (js "{}")))).
  vm_compute. now left.
Defined.

Lemma content_type_not_proto : js "Content-Type" <> proto_key.
Proof. discriminate. Qed.

(** A request with a body always has a non-empty [Content-Type] or
    [content-type] header: the one given, or the one added. *)
Theorem body_has_content_type (url : jsstring) (o : options) :
  truthy (cfg_data (build_config url o)) = true ->
  truthy (obj_get (cfg_headers (build_config url o)) (js "Content-Type"))
  || truthy (obj_get (cfg_headers (build_config url o)) (js "content-type")) = true.
Proof.
  cbn [build_config cfg_data cfg_headers]. intros Hd. unfold inject_content_type.
  rewrite Hd. cbn [andb].
  destruct (truthy (obj_get (parse_headers (opt_header o)) (js "Content-Type"))) eqn:E1;
    cbn [negb andb].
  - now rewrite E1.
  - destruct (truthy (obj_get (parse_headers (opt_header o)) (js "content-type"))) eqn:E2;
      cbn [negb].
    + now rewrite E1, E2.
    + rewrite (obj_get_assign _ _ _ _ content_type_not_proto), eqb_refl. reflexivity.
Qed.

Lemma body_has_content_type_witness :
  truthy (obj_get (cfg_headers (build_config (js "http://localhost/")
                                  (with_header_and_data [js "content-type: text/csv"]
                                                        (Some (js "a,b")))))
                  (js "Content-Type"))
  || truthy (obj_get (cfg_headers (build_config (js "http://localhost/")
                                     (with_header_and_data [js "content-type: text/csv"]
                                                           (Some (js "a,b")))))
                     (js "content-type")) = true.
Proof.
  apply (body_has_content_type (js "http://localhost/")
           (with_header_and_data [js "content-type: text/csv"] (Some (js "a,b")))).
  reflexivity.
Defined.

(** What the request has under a header name, read off the flags: the
    trimmed value of the last flag that names it; for [Content-Type],
    [application/json] instead when there is a body and the flags leave both
    [Content-Type] and [content-type] absent or empty. *)
Theorem request_header_lookup (url : jsstring) (o : options) (name : jsstring) :
  name <> proto_key ->
  obj_get (cfg_headers (build_config url o)) name
  = if JsString.eqb name (js "Content-Type")
       && truthy (unify_data o)
       && negb (truthy (last_value (js "Content-Type") (opt_header o) None))
       && negb (truthy (last_value (js "content-type") (opt_header o) None))
    then Some (js "application/json")
    else last_value name (opt_header o) None.
Proof.
  intros Hname. cbn [build_config cfg_headers].
  assert (Hct : js "content-type" <> proto_key) by discriminate.
  destruct (JsString.eqb name (js "Content-Type")) eqn:E.
  - apply eqb_eq in E. subst name. cbn [andb]. unfold inject_content_type.
    rewrite !(obj_get_parse_headers (opt_header o) (js "Content-Type") Hname).
    rewrite !(obj_get_parse_headers (opt_header o) (js "content-type") Hct).
    destruct (truthy (unify_data o)
              && negb (truthy (last_value (js "Content-Type") (opt_header o) None))
              && negb (truthy (last_value (js "content-type") (opt_header o) None))).
    + now rewrite (obj_get_assign _ _ _ _ Hname), eqb_refl.
    + now apply obj_get_parse_headers.
  - cbn [andb]. apply eqb_neq in E.
    rewrite (RequestClaims.obj_get_inject _ _ _ E). now apply obj_get_parse_headers.
Qed.

Lemma request_header_lookup_witness :
  obj_get (cfg_headers (build_config (js "http://localhost/")
                          (with_header_and_data
                             [js "Accept: text/html"; js "Accept : */*"; js "content-type:"]
                             (Some (js "{}")))))
          (js "Accept")
  = Some (js "*/*").
Proof.
  apply (request_header_lookup (js "http://localhost/")
           (with_header_and_data
              [js "Accept: text/html"; js "Accept : */*"; js "content-type:"]
              (Some (js "{}")))
           (js "Accept")).
  discriminate.
Defined.


End RequestInvariants.

(** ** More on the output *)

Module OutputFacts.
Import StringFacts ObjectFacts RequestFacts HandlerFacts JsonValues.

Lemma print_warning_stderr (o : options) (r : response) :
  on_stream Stdout (print_warning o r) = []
  /\ on_stream Stderr (print_warning o r) = print_warning o r.
Proof.
  unfold print_warning.
  destruct ((400 <=? resp_status r)%Z && negb (opt_silent o)); split; reflexivity.
Qed.

Lemma on_error_stderr (o : options) (e : error) :
  on_stream Stdout (on_error o e) = []
  /\ on_stream Stderr (on_error o e) = on_error o e.
Proof.
  unfold on_error. destruct (opt_silent o); [split; reflexivity|].
  destruct (err_response e) as [[code reason]|]; [split; reflexivity|].
  destruct (err_request e); split; reflexivity.
Qed.

Lemma print_body_one (r : response) : List.length (print_body r) = 1%nat.
Proof.
  unfold print_body. destruct (primitive_text (resp_data r)) as [text|]; [|reflexivity].
  destruct (isJsonHeader r); [|reflexivity].
  destruct (parse text); reflexivity.
Qed.

(** The protocol of a request is absent, or a scheme and a colon
    ([http:], [https:]): the status line then says [HTTP/1.1], there being
    nothing after the colon to take the version from. *)
Theorem status_line_version (r : response) :
  resp_protocol r = None
  \/ (exists scheme, resp_protocol r = Some (scheme ++ [colon]) /\ ~ In colon scheme) ->
  status_line r
  = js "HTTP/1.1 " ++ of_Z (resp_status r) ++ js " " ++ resp_statusText r.
Proof.
  unfold status_line. intros [E|(scheme & E & Hs)]; rewrite E; [reflexivity|].
  rewrite split_first_colon, (first_colon_app scheme [] Hs). reflexivity.
Qed.

Lemma status_line_version_witness :
  status_line not_found = js "HTTP/1.1 " ++ of_Z 404 ++ js " " ++ js "Not Found".
Proof.
  apply (status_line_version not_found). right. exists (js "https").
  split; [reflexivity|]. intros H. simpl in H. intuition discriminate.
Defined.

(** What a response puts on the output stream: with [-i] the status line,
    one line [name: value] per response header in the order the headers are
    enumerated, and an empty line; then, with or without [-i], the body, as
    one more line.  The warning is never among them. *)
Theorem output_stream_of_response (axios : config -> client_result)
        (url : jsstring) (o : options) (r : response) :
  axios (build_config url o) = Resolves r ->
  on_stream Stdout (printed (action axios url o))
  = (if opt_include o
     then (Stdout, [Chalk Blue (status_line r)])
          :: List.map (fun kv => (Stdout, [Chalk Cyan (fst kv ++ js ": " ++ snd kv)]))
                      (resp_headers r)
          ++ [(Stdout, [Plain []])]
     else [])
    ++ print_body r
  /\ List.length (on_stream Stdout (printed (action axios url o)))
     = ((if opt_include o then 2 + List.length (resp_headers r) else 0) + 1)%nat.
Proof.
  intros Hr. unfold action. rewrite Hr. cbn [printed].
  rewrite !on_stream_app.
  rewrite (proj1 (print_headers_stdout o r)), (proj1 (print_warning_stderr o r)),
    (proj1 (print_body_stdout r)).
  cbn [app]. unfold print_headers. split; [reflexivity|].
  rewrite length_app, print_body_one.
  destruct (opt_include o); [|reflexivity].
  cbn [Datatypes.length]. rewrite length_app, length_map. cbn [Datatypes.length].
  unfold jsstring. lia.
Qed.

Lemma output_stream_witness :
  on_stream Stdout
    (printed (action (fun _ => Resolves not_found) (js "https://example.com/missing")
                default_options))
  = [] ++ print_body not_found
  /\ List.length
       (on_stream Stdout
          (printed (action (fun _ => Resolves not_found) (js "https://example.com/missing")
                      default_options)))
     = (0 + 1)%nat.
Proof.
  apply (output_stream_of_response (fun _ => Resolves not_found)
           (js "https://example.com/missing") default_options not_found).
  reflexivity.
Defined.

(** A response with a status below 400 writes nothing to the error
    stream. *)
Theorem no_warning_below_400 (axios : config -> client_result)
        (url : jsstring) (o : options) (r : response) :
  axios (build_config url o) = Resolves r ->
  (resp_status r < 400)%Z ->
  on_stream Stderr (printed (action axios url o)) = [].
Proof.
  intros Hr Hs. unfold action. rewrite Hr. cbn [printed].
  rewrite !on_stream_app.
  rewrite (proj2 (print_headers_stdout o r)), (proj2 (print_body_stdout r)).
  unfold print_warning. apply Z.leb_gt in Hs. rewrite Hs. reflexivity.
Qed.

Lemma no_warning_witness :
  on_stream Stderr
    (printed (action (fun _ => Resolves (json_response sample_body))
                (js "https://example.com/") default_options)) = [].
Proof.
  apply (no_warning_below_400 (fun _ => Resolves (json_response sample_body))
           (js "https://example.com/") default_options (json_response sample_body)).
  - reflexivity.
  - reflexivity.
Defined.

(** Adding [-s] to an invocation changes neither what goes to the output
    stream nor the exit code, and leaves the error stream empty, whether the
    request succeeds or fails. *)
Theorem silent_touches_only_error_stream (axios : config -> client_result)
        (url : jsstring) (o : options) :
  on_stream Stdout (printed (action axios url (silenced o)))
  = on_stream Stdout (printed (action axios url o))
  /\ on_stream Stderr (printed (action axios url (silenced o))) = []
  /\ exit_code (action axios url (silenced o)) = exit_code (action axios url o).
Proof.
  unfold action. rewrite build_config_silenced.
  destruct (axios (build_config url o)) as [r|e]; cbn [printed exit_code].
  - rewrite !on_stream_app.
    rewrite !(proj1 (print_warning_stderr _ r)), !(proj2 (print_body_stdout r)).
    rewrite (proj2 (print_headers_stdout (silenced o) r)).
    assert (Hw : print_warning (silenced o) r = []).
    { unfold print_warning. cbn [silenced opt_silent negb]. now rewrite andb_false_r. }
    rewrite Hw. repeat split.
  - rewrite (proj1 (on_error_stderr o e)). repeat split.
Qed.

(** A failure that is not silenced writes exactly one line, to the error
    stream, in red and beginning with [Error:]: the status of
    [error.response] when there is one, whether or not [error.request] is
    set; failing that the notice that no response was received, when
    [error.request] is set; failing that too, [error.message]. *)
Theorem failure_prints_one_error_line (axios : config -> client_result)
        (url : jsstring) (o : options) (e : error) :
  axios (build_config url o) = Rejects e ->
  opt_silent o = false ->
  on_stream Stdout (printed (action axios url o)) = []
  /\ exists line rest,
      printed (action axios url o) = [(Stderr, Chalk Red line :: rest)]
      /\ startsWith (js "Error:") line = true
      /\ (forall code reason,
             err_response e = Some (code, reason) ->
             line = js "Error: " ++ of_Z code ++ js " " ++ reason /\ rest = [])
      /\ (err_response e = None -> err_request e = true ->
          line = js "Error: No response received from server." /\ rest = [])
      /\ (err_response e = None -> err_request e = false ->
          line = js "Error:" /\ rest = [Plain (err_message e)]).
Proof.
  intros He Hs. unfold action. rewrite He. cbn [printed].
  split; [apply on_error_stderr|].
  unfold on_error. rewrite Hs.
  destruct (err_response e) as [[code reason]|].
  - exists (js "Error: " ++ of_Z code ++ js " " ++ reason), [].
    split; [reflexivity|]. split; [reflexivity|]. split; [|split].
    + intros c t H. injection H as <- <-. now split.
    + discriminate.
    + discriminate.
  - destruct (err_request e).
    + exists (js "Error: No response received from server."), [].
      split; [reflexivity|]. split; [reflexivity|]. split; [|split].
      * discriminate.
      * now split.
      * discriminate.
    + exists (js "Error:"), [Plain (err_message e)].
      split; [reflexivity|]. split; [reflexivity|]. split; [|split].
      * discriminate.
      * discriminate.
      * now split.
Qed.

Lemma failure_witness :
  on_stream Stdout
    (printed (action (fun _ => Rejects refused) (js "https://example.com/")
                default_options)) = []
  /\ exists line rest,
      printed (action (fun _ => Rejects refused) (js "https://example.com/")
                 default_options) = [(Stderr, Chalk Red line :: rest)]
      /\ startsWith (js "Error:") line = true
      /\ (forall code reason,
             err_response refused = Some (code, reason) ->
             line = js "Error: " ++ of_Z code ++ js " " ++ reason /\ rest = [])
      /\ (err_response refused = None -> err_request refused = true ->
          line = js "Error: No response received from server." /\ rest = [])
      /\ (err_response refused = None -> err_request refused = false ->
          line = js "Error:" /\ rest = [Plain (err_message refused)]).
Proof.
  apply (failure_prints_one_error_line (fun _ => Rejects refused)
           (js "https://example.com/") default_options refused).
  - reflexivity.
  - reflexivity.
Defined.

End OutputFacts.

Module BodyRendering.
Import StringFacts ObjectFacts HandlerFacts ObjectOrder DefineFacts JsonValues.
Import PrintedValues.

Lemma startsWith_inv (p s : jsstring) :
  startsWith p s = true -> exists b, s = p ++ b.
Proof.
  revert s. induction p as [|x p IH]; intros s; [now exists s|].
  destruct s as [|y s]; cbn [startsWith]; [discriminate|]. intros H.
  apply andb_true_iff in H as [Hxy Hp]. apply code_eqb_eq in Hxy. subst y.
  destruct (IH s Hp) as [b ->]. now exists b.
Qed.

Lemma includes_inv (sub s : jsstring) :
  includes sub s = true -> exists a b, s = a ++ sub ++ b.
Proof.
  induction s as [|c s IH]; cbn [includes]; intros H.
  - apply orb_true_iff in H as [H|H]; [|discriminate].
    destruct (startsWith_inv sub [] H) as [b E]. now exists [], b.
  - apply orb_true_iff in H as [H|H].
    + destruct (startsWith_inv sub (c :: s) H) as [b E]. now exists [], b.
    + destruct (IH H) as (a & b & ->). now exists (c :: a), b.
Qed.

(** A response counts as JSON exactly when its [content-type] header has
    [application/json] somewhere in it, in these very letters: parameters
    and longer names around it do not matter. *)
Theorem json_header_is_substring (r : response) :
  isJsonHeader r = true
  <-> exists before after,
      obj_get (resp_headers r) (js "content-type")
      = Some (before ++ js "application/json" ++ after).
Proof.
  rewrite isJsonHeader_spec. split.
  - intros (contentType & Hget & Hin).
    destruct (includes_inv _ _ Hin) as (a & b & ->). now exists a, b.
  - intros (a & b & Hget). exists (a ++ js "application/json" ++ b).
    split; [exact Hget | apply includes_app].
Qed.

(** A JSON array or object is printed the same whether the client decoded
    it or handed it over as text under a JSON content type. *)
Theorem decoded_and_text_print_alike (r r' : response) (text : jsstring) :
  resp_data r = JString text ->
  isJsonHeader r = true ->
  parse text = Some (resp_data r') ->
  primitive_text (resp_data r') = None ->
  print_body r = print_body r'.
Proof.
  intros Hd Hj Hp Hv. unfold print_body.
  rewrite Hd, Hv. cbn [primitive_text]. now rewrite Hj, Hp.
Qed.

Lemma decoded_and_text_witness :
  print_body (json_response sample_body)
  = print_body {| resp_status := 200; resp_statusText := js "OK"; resp_headers := [];
                  resp_data := sample_value; resp_protocol := None |}.
Proof.
  apply (decoded_and_text_print_alike (json_response sample_body)
           {| resp_status := 200; resp_statusText := js "OK"; resp_headers := [];
              resp_data := sample_value; resp_protocol := None |} sample_body).
  - reflexivity.
  - reflexivity.
  - vm_compute. reflexivity.
  - reflexivity.
Defined.

(** What is printed for a body that is valid JSON text for anything but a
    string or a number beyond the binary64 range (an array or an object
    under any content type, the rest under a JSON content type) is itself
    valid JSON: it parses, to the value of the body with [null] for every
    number beyond the binary64 range and [0] for every negative zero, and
    to the very value of the body when there is no such number. *)
Theorem printed_json_parses (r : response) (body : jsstring) (v : json) :
  resp_data r = client_data body ->
  parse body = Some v ->
  printed_as_json v = true ->
  isJsonHeader r = true \/ primitive_text v = None ->
  print_body r = [(Stdout, [Highlight (stringify v)])]
  /\ parse (stringify v) = Some (printed_value v)
  /\ (exact_numbers v = true -> printed_value v = v).
Proof.
  intros Hd Hp Hv Hj. pose proof (parse_well_formed body v Hp) as Hwf.
  rewrite (client_data_parsed body v Hp) in Hd. split; [|split].
  - exact (print_body_decoded r v Hd Hwf Hv Hj).
  - now apply parse_stringify_printed_value.
  - apply printed_value_exact.
Qed.

Lemma printed_json_parses_witness :
  print_body (served (js "text/html") (js "[1e400,-0,2]"))
  = [(Stdout, [Highlight (stringify (JArray [JNumber (S754_infinity false);
                                              JNumber (S754_zero true);
                                              JNumber (S754_finite false 4503599627370496 (-51))]))])]
  /\ parse (stringify (JArray [JNumber (S754_infinity false);
                               JNumber (S754_zero true);
                               JNumber (S754_finite false 4503599627370496 (-51))]))
     = Some (printed_value (JArray [JNumber (S754_infinity false);
                                    JNumber (S754_zero true);
                                    JNumber (S754_finite false 4503599627370496 (-51))]))
  /\ (exact_numbers (JArray [JNumber (S754_infinity false);
                             JNumber (S754_zero true);
                             JNumber (S754_finite false 4503599627370496 (-51))]) = true ->
      printed_value (JArray [JNumber (S754_infinity false);
                             JNumber (S754_zero true);
                             JNumber (S754_finite false 4503599627370496 (-51))])
      = JArray [JNumber (S754_infinity false);
                JNumber (S754_zero true);
                JNumber (S754_finite false 4503599627370496 (-51))]).
Proof.
  apply (printed_json_parses (served (js "text/html") (js "[1e400,-0,2]"))
           (js "[1e400,-0,2]")).
  - reflexivity.
  - vm_compute. reflexivity.
  - reflexivity.
  - right. reflexivity.
Defined.

(** What is printed for such a body is printed unchanged when it comes
    back as a body itself, through the client: the rendering changes
    nothing in its own output. *)
Theorem printed_json_prints_as_itself (r r' : response) (body : jsstring) (v : json) :
  resp_data r = client_data body ->
  parse body = Some v ->
  printed_as_json v = true ->
  isJsonHeader r = true \/ primitive_text v = None ->
  resp_data r' = client_data (stringify v) ->
  isJsonHeader r' = true \/ primitive_text v = None ->
  print_body r = [(Stdout, [Highlight (stringify v)])]
  /\ print_body r' = print_body r.
Proof.
  intros Hd Hp Hv Hj Hd' Hj'. pose proof (parse_well_formed body v Hp) as Hwf.
  rewrite (client_data_parsed body v Hp) in Hd.
  pose proof (print_body_decoded r v Hd Hwf Hv Hj) as Hr.
  split; [exact Hr|]. rewrite Hr.
  rewrite (client_data_parsed _ _ (parse_stringify_printed_value v Hwf)) in Hd'.
  rewrite (print_body_decoded r' (printed_value v) Hd'
             (well_formed_printed_value v Hwf) (printed_as_json_printed_value v Hv)).
  - unfold stringify. now rewrite serialize_printed_value.
  - destruct Hj' as [Hj'|Hj']; [now left|right].
    now apply primitive_text_printed_value.
Qed.

Lemma printed_json_witness :
  print_body (served (js "application/json") (js "[1e400,-0]"))
  = [(Stdout, [Highlight (stringify (JArray [JNumber (S754_infinity false);
                                              JNumber (S754_zero true)]))])]
  /\ print_body (served (js "application/json")
                   (stringify (JArray [JNumber (S754_infinity false);
                                       JNumber (S754_zero true)])))
     = print_body (served (js "application/json") (js "[1e400,-0]")).
Proof.
  apply (printed_json_prints_as_itself
           (served (js "application/json") (js "[1e400,-0]"))
           (served (js "application/json")
              (stringify (JArray [JNumber (S754_infinity false); JNumber (S754_zero true)])))
           (js "[1e400,-0]")
           (JArray [JNumber (S754_infinity false); JNumber (S754_zero true)])).
  - reflexivity.
  - vm_compute. reflexivity.
  - reflexivity.
  - now left.
  - reflexivity.
  - now left.
Defined.

(** The value printed for a body that is a JSON array or object is a
    value of the language, not the text of the body: in every object of it
    no key occurs twice and the keys that are array indices come first, in
    ascending order, whatever the order and the repetitions in the body. *)
Theorem printed_objects_are_normalised (r : response) (body : jsstring) (v : json) :
  resp_data r = client_data body ->
  parse body = Some v ->
  primitive_text v = None ->
  print_body r = [(Stdout, [Highlight (stringify v)])]
  /\ well_formed v = true
  /\ forall props, v = JObject props ->
                   NoDup (List.map fst props) /\ ordered props = true.
Proof.
  intros Hd Hp Hv.
  pose proof (parse_well_formed body v Hp) as Hwf.
  rewrite (client_data_parsed body v Hp) in Hd.
  split; [|split; [exact Hwf|]].
  - unfold print_body. now rewrite Hd, Hv.
  - intros props ->. cbn [well_formed] in Hwf.
    apply andb_true_iff in Hwf as [Ho _]. split; [|exact Ho].
    now apply ordered_keys_NoDup.
Qed.

Lemma printed_objects_witness :
  print_body (served (js "text/plain")
                     (js "{" ++ dq ++ js "b" ++ dq ++ js ":1," ++ dq ++ js "1"
                      ++ dq ++ js ":2," ++ dq ++ js "b" ++ dq ++ js ":3}"))
  = [(Stdout,
      [Highlight (stringify
                    (JObject [(js "1", JNumber (S754_finite false 4503599627370496 (-51)));
                              (js "b", JNumber (S754_finite false 6755399441055744 (-51)))]))])]
  /\ well_formed
       (JObject [(js "1", JNumber (S754_finite false 4503599627370496 (-51)));
                 (js "b", JNumber (S754_finite false 6755399441055744 (-51)))]) = true
  /\ forall props,
      JObject [(js "1", JNumber (S754_finite false 4503599627370496 (-51)));
               (js "b", JNumber (S754_finite false 6755399441055744 (-51)))]
      = JObject props ->
      NoDup (List.map fst props) /\ ordered props = true.
Proof.
  apply (printed_objects_are_normalised
           (served (js "text/plain")
                   (js "{" ++ dq ++ js "b" ++ dq ++ js ":1," ++ dq ++ js "1"
                    ++ dq ++ js ":2," ++ dq ++ js "b" ++ dq ++ js ":3}"))
           (js "{" ++ dq ++ js "b" ++ dq ++ js ":1," ++ dq ++ js "1"
            ++ dq ++ js ":2," ++ dq ++ js "b" ++ dq ++ js ":3}")).
  - reflexivity.
  - vm_compute. reflexivity.
  - reflexivity.
Defined.

(** A body the client decoded to [null], to a boolean or to a finite
    number other than the negative zero, under a JSON content type: it goes
    through [JSON.parse] as its own text and is printed highlighted. *)
Theorem decoded_primitive_is_highlighted (r : response) :
  isJsonHeader r = true ->
  match resp_data r with
  | JNull | JBool _ => True
  | JNumber x => is_binary64 x = true /\ printed_exactly x = true
  | _ => False
  end ->
  primitive_text (resp_data r) = Some (stringify (resp_data r))
  /\ print_body r = [(Stdout, [Highlight (stringify (resp_data r))])].
Proof.
  intros Hj Hv.
  assert (Hp : primitive_text (resp_data r) = Some (stringify (resp_data r))
               /\ parse (stringify (resp_data r)) = Some (resp_data r)).
  { destruct (resp_data r) as [|[|]|x| | |]; try contradiction;
      try (split; reflexivity).
    destruct Hv as [Hb He]. split.
    - cbn [primitive_text]. unfold stringify. cbn [serialize].
      destruct x as [[|]|s| |s m e]; try discriminate; reflexivity.
    - now apply parse_stringify_exact. }
  destruct Hp as [Ht Hp]. split; [exact Ht|].
  unfold print_body. now rewrite Ht, Hj, Hp.
Qed.

Lemma decoded_primitive_witness :
  primitive_text JNull = Some (stringify JNull)
  /\ print_body {| resp_status := 200; resp_statusText := js "OK";
                   resp_headers := [(js "content-type", js "application/json")];
                   resp_data := JNull; resp_protocol := None |}
     = [(Stdout, [Highlight (stringify JNull)])].
Proof.
  apply (decoded_primitive_is_highlighted
           {| resp_status := 200; resp_statusText := js "OK";
              resp_headers := [(js "content-type", js "application/json")];
              resp_data := JNull; resp_protocol := None |}).
  - reflexivity.
  - exact I.
Defined.

End BodyRendering.

(** ** The scenarios of the specification, run on the model *)

Module Scenarios.

(** A 200 response whose body is an object with a single member: the
    output stream carries the body over three lines, indented by two spaces,
    and the exit code is 0. *)
Example ok_scenario :
  action (fun _ => Resolves (served (js "application/json")
                                    (js "{" ++ dq ++ js "a" ++ dq ++ js ":1}")))
         (js "https://example.com/ok") default_options
  = {| printed :=
         [(Stdout, [Highlight (js "{" ++ [10%N] ++ js "  " ++ dq ++ js "a" ++ dq
                               ++ js ": 1" ++ [10%N] ++ js "}")])];
       exit_code := 0 |}.
Proof. vm_compute. reflexivity. Qed.

(** A 404 response with a JSON body: the warning on the error stream, the
    body still printed, exit code 0. *)
Example missing_scenario :
  action (fun _ => Resolves
            {| resp_status := 404;
               resp_statusText := js "Not Found";
               resp_headers := [(js "content-type", js "application/json")];
               resp_data := client_data (js "{" ++ dq ++ js "error" ++ dq ++ js ":" ++ dq
                                         ++ js "not found" ++ dq ++ js "}");
               resp_protocol := Some (js "https:") |})
         (js "https://example.com/missing") default_options
  = {| printed :=
         [(Stderr, [Chalk Yellow (js "Warning: Request failed with status 404 Not Found")]);
          (Stdout, [Highlight (js "{" ++ [10%N] ++ js "  " ++ dq ++ js "error" ++ dq
                               ++ js ": " ++ dq ++ js "not found" ++ dq ++ [10%N]
                               ++ js "}")])];
       exit_code := 0 |}.
Proof. vm_compute. reflexivity. Qed.

(** A body and no header flag: the request says its body is JSON. *)
Example data_scenario :
  cfg_headers (build_config (js "https://example.com")
                 (store_flags default_options
                    [(FlagData, js "{" ++ dq ++ js "x" ++ dq ++ js ":1}")]))
  = [(js "Content-Type", js "application/json")].
Proof. reflexivity. Qed.

(** No response received: one error line, exit code 1; nothing at all in
    silent mode. *)
Example refused_scenario :
  action (fun _ => Rejects refused) (js "https://example.com") default_options
  = {| printed := [(Stderr, [Chalk Red (js "Error: No response received from server.")])];
       exit_code := 1 |}
  /\ action (fun _ => Rejects refused) (js "https://example.com") (silenced default_options)
     = {| printed := []; exit_code := 1 |}.
Proof. split; reflexivity. Qed.

(** The status line and the headers, when asked for, come first. *)
Example include_scenario :
  printed (action (fun _ => Resolves not_found) (js "https://example.com/missing")
             {| opt_request := js "GET"; opt_header := []; opt_data := None;
                opt_dataRaw := None; opt_dataBinary := None; opt_user := None;
                opt_insecure := false; opt_include := true; opt_silent := true |})
  = [(Stdout, [Chalk Blue (js "HTTP/1.1 404 Not Found")]);
     (Stdout, [Chalk Cyan (js "content-type: application/json; charset=utf-8")]);
     (Stdout, [Plain []]);
     (Stdout, [Value (JString (js "<html>gone</html>"))])].
Proof. vm_compute. reflexivity. Qed.

End Scenarios.

(** ** Numbers: reading rounds to a binary64 value, and a binary64 value is
    read back from what is printed *)

